(** * Verification of the tempra image-registration batch pipeline

    A shallow embedding of

    - [preprocessing/standardization/intensity_standardizer.py],
      [nyul_standardizer.py] and [zscore_standardizer.py],
    - [pipeline/base_pipeline.py] (the sequential step engine),
    - [pipeline/batch_preprocessing.py] (discovery, shared training,
      per-patient fan-out and reporting),

    followed by the properties of those programs.

    Conventions of the embedding.

    - A Python exception is a value [exn] (type name and message); a call
      that may raise returns a [result].  Only [Exception]s are modelled,
      not [KeyboardInterrupt] and the like.
    - A method that changes its object returns the new state of the
      object next to its result.
    - Voxel intensities live in a type [F] with the arithmetic and the
      numpy reductions the code calls ([Numeric]).  The programs are
      embedded over an arbitrary such [F]; [Q] is the instance used to
      run them on concrete images.  Rounding of binary floating point is
      not modelled: arithmetic on [Q] is exact.
    - A numpy array keeps its element type.  [np.zeros_like(a)] has the
      element type of [a], and an assignment into an integer array
      converts the assigned value ([store]).  An image is its flattened
      voxel array; geometry ([CopyInformation]) is left out.
    - A Python [dict] with string keys is a [gmap string _], or an
      association list where the program iterates over it.
    - File names are matched as on a POSIX file system (case matters).
    - The thread pool of the batch step is represented by the order in
      which it hands back the patients; the run of one patient does not
      depend on the others.
    - Of the log, the records of the discovery step and of the training
      step are kept; the other logging calls are left out. *)

From Stdlib Require Import QArith Qround Qabs.
From stdpp Require Import gmap strings list pretty.

(** ** Exceptions and results *)

Record exn := Exn { exn_type : string; exn_msg : string }.

Inductive result (A : Type) : Type :=
| Ok (a : A)
| Raise (e : exn).

Arguments Ok {A} a.
Arguments Raise {A} e.

(** Sequencing: [x ← m; k] runs [k] if [m] returned, and raises what [m]
    raised otherwise. *)
#[global] Instance result_bind : MBind result := fun _ _ f m =>
  match m with
  | Ok a => f a
  | Raise e => Raise e
  end.

Definition is_ok {A} (r : result A) : bool :=
  match r with Ok _ => true | Raise _ => false end.

Definition raises {A} (r : result A) : Prop :=
  match r with Ok _ => False | Raise _ => True end.

Definition TypeError (msg : string) : exn := Exn "TypeError" msg.
Definition IndexError (msg : string) : exn := Exn "IndexError" msg.
Definition RuntimeError (msg : string) : exn := Exn "RuntimeError" msg.
Definition ValueError (msg : string) : exn := Exn "ValueError" msg.
Definition FileNotFoundError (msg : string) : exn := Exn "FileNotFoundError" msg.

(** ** Numbers and numpy *)

(** The arithmetic of voxel values, and the numpy functions the
    standardizers call.  [np_percentile] may raise (numpy does, or returns
    nan, on an empty sample, depending on its version). *)
Class Numeric (F : Type) := {
  f0 : F;
  fadd : F -> F -> F;
  fsub : F -> F -> F;
  fmul : F -> F -> F;
  fdiv : F -> F -> F;
  fabs : F -> F;
  fltb : F -> F -> bool;
  fleb : F -> F -> bool;
  feqb : F -> F -> bool;
  f_of_nat : nat -> F;
  (* conversion float -> integer element type, as done on assignment *)
  ftrunc : F -> F;
  c_1_4826 : F;
  c_1e_8 : F;
  np_percentile : list F -> list F -> result (list F);
  np_mean : list F -> F;
  np_median : list F -> F;
  np_std : list F -> F;
}.

(** What the programs rely on from numpy's [percentile]: the result has
    one entry per requested percentage. *)
Class NumpyLaws (F : Type) `{Numeric F} : Prop := {
  np_percentile_length : forall xs ps l,
    np_percentile xs ps = Ok l -> length l = length ps;
}.

(** Order laws of a totally ordered field without nan, used where a
    property speaks of the interval a voxel lies in. *)
Class OrderLaws (F : Type) `{Numeric F} : Prop := {
  fleb_trans : forall a b c,
    fleb a b = true -> fleb b c = true -> fleb a c = true;
  fltb_fleb_false : forall x a, fltb x a = true -> fleb a x = false;
}.

(** ** Images *)

(** Element type of the pixel array of an image. *)
Inductive pixel_type := PixelFloat | PixelInt.

(** A [sitk.Image] as seen by the standardizers: the array returned by
    [sitk.GetArrayFromImage], flattened, with its element type. *)
Record Image (F : Type) := mkImage {
  pixel : pixel_type;
  voxels : list F;
}.
Arguments mkImage {F} pixel voxels.
Arguments pixel {F} i.
Arguments voxels {F} i.

Section Arrays.
Context {F : Type} `{Numeric F}.

(** [a[...] = v] on an array of element type [p]. *)
Definition store (p : pixel_type) (v : F) : F :=
  match p with
  | PixelFloat => v
  | PixelInt => ftrunc v
  end.

(** [img_array[img_array > 0]] *)
Definition non_zero (a : list F) : list F := List.filter (fun x => fltb f0 x) a.

(** [np.zeros_like(a)] *)
Definition zeros_like (a : list F) : list F := List.map (fun _ => f0) a.

(** [dst[mask] = f(src[mask])], element-wise: [mask] and [f] read the
    source voxel, the destination keeps its other entries. *)
Fixpoint assign_where (mask : F -> bool) (f : F -> F) (src dst : list F) : list F :=
  match src, dst with
  | x :: src', d :: dst' =>
      (if mask x then f x else d) :: assign_where mask f src' dst'
  | _, _ => dst
  end.

(** [a[i]] for a non-negative index. *)
Definition getitem (a : list F) (i : nat) : result F :=
  match a !! i with
  | Some x => Ok x
  | None => Raise (IndexError "index out of bounds")
  end.

(** [a[-1]] *)
Definition getlast (a : list F) : result F :=
  match List.rev a with
  | x :: _ => Ok x
  | [] => Raise (IndexError "index -1 is out of bounds")
  end.

(** [a[i]] where [a] may be [None]. *)
Definition subscript (a : option (list F)) (i : nat) : result F :=
  match a with
  | None => Raise (TypeError "'NoneType' object is not subscriptable")
  | Some l => getitem l i
  end.

Definition subscript_last (a : option (list F)) : result F :=
  match a with
  | None => Raise (TypeError "'NoneType' object is not subscriptable")
  | Some l => getlast l
  end.

(** [np.mean(rows, axis=0)] for rows of equal length. *)
Definition np_mean_axis0 (rows : list (list F)) : list F :=
  match rows with
  | [] => []
  | r :: _ =>
      List.map (fun j => np_mean (List.map (fun row => List.nth j row f0) rows))
               (List.seq 0 (length r))
  end.

End Arrays.

(** ** intensity_standardizer.py: parameter files *)

(** JSON values stored in [self.parameters]. *)
Inductive json (F : Type) :=
| JNum (x : F)
| JBool (b : bool)
| JList (l : list F).
Arguments JNum {F} x.
Arguments JBool {F} b.
Arguments JList {F} l.

(** The parameter files on disk: path -> decoded JSON object.
    [json.dump] followed by [json.load] returns the object written. *)
Abbreviation files F := (gmap string (gmap string (json F))).

Definition json_dump {F} (params : gmap string (json F)) (filepath : string)
    (fs : files F) : files F :=
  <[filepath := params]> fs.

Definition json_load {F} (filepath : string) (fs : files F)
    : result (gmap string (json F)) :=
  match fs !! filepath with
  | Some p => Ok p
  | None => Raise (FileNotFoundError filepath)
  end.

(** ** nyul_standardizer.py *)

Module Nyul.
Section Nyul.
Context {F : Type} `{Numeric F}.

Record NyulStandardizer := mk {
  trained : bool;
  parameters : gmap string (json F);
  landmarks_percentage : list F;
  standard_scale : F * F;
  standard_landmarks : option (list F);
}.

(** [NyulStandardizer(landmarks_percentage, standard_scale)] *)
Definition init (landmarks : list F) (scale : F * F) : NyulStandardizer :=
  {| trained := false; parameters := ∅;
     landmarks_percentage := landmarks; standard_scale := scale;
     standard_landmarks := None |}.

(** The default arguments of the constructor. *)
Definition default_percentage : list F :=
  List.map (fun k => f_of_nat (10 * k)) (List.seq 0 11).
Definition default_scale : F * F := (f_of_nat 0, f_of_nat 100).
Definition new : NyulStandardizer := init default_percentage default_scale.

(** The loop over the training images: one landmark vector per image. *)
Fixpoint all_landmarks (ps : list F) (images : list (Image F))
    : result (list (list F)) :=
  match images with
  | [] => Ok []
  | img :: rest =>
      l ← np_percentile (non_zero (voxels img)) ps;
      ls ← all_landmarks ps rest;
      Ok (l :: ls)
  end.

(** The value written at index [i] by the interpolation loop. *)
Definition interior (scale : F * F) (len i : nat) : F :=
  fadd (fst scale)
       (fmul (fsub (snd scale) (fst scale))
             (fdiv (f_of_nat i) (f_of_nat (len - 1)))).

(** [for i in range(1, len(s) - 1): s[i] = ...] *)
Definition respace (scale : F * F) (s : list F) : list F :=
  foldl (fun acc i => <[i := interior scale (length s) i]> acc)
        s (List.seq 1 (length s - 1 - 1)).

(** [train]: the new state of the standardizer, and whether the call
    returned or raised. *)
Definition train (self : NyulStandardizer) (images : list (Image F))
    : NyulStandardizer * result unit :=
  match all_landmarks (landmarks_percentage self) images with
  | Raise e => (self, Raise e)
  | Ok rows =>
      let mean := np_mean_axis0 rows in
      match mean with
      | [] =>
          (* no image: the mean is a scalar, which has no items; no
             percentage: the mean is an empty array *)
          (mk (trained self) (parameters self) (landmarks_percentage self)
              (standard_scale self) (Some mean),
           Raise (match rows with
                  | [] => TypeError "'numpy.float64' object does not support item assignment"
                  | _ :: _ => IndexError "index 0 is out of bounds for axis 0 with size 0"
                  end))
      | _ :: _ =>
          let s0 := <[0 := fst (standard_scale self)]> mean in
          let s1 := <[length s0 - 1 := snd (standard_scale self)]> s0 in
          let s := respace (standard_scale self) s1 in
          (mk true
              (<["landmarks_percentage" := JList (landmarks_percentage self)]>
                 (<["standard_landmarks" := JList s]> (parameters self)))
              (landmarks_percentage self) (standard_scale self) (Some s),
           Ok tt)
      end
  end.

(** One iteration of the mapping loop of [transform]. *)
Definition transform_step (self : NyulStandardizer) (p : pixel_type)
    (img_array img_landmarks : list F) (i : nat) (standardized : list F)
    : result (list F) :=
  lower ← getitem img_landmarks i;
  upper ← getitem img_landmarks (i + 1);
  if fltb lower upper then
    s1 ← subscript (standard_landmarks self) (i + 1);
    s0 ← subscript (standard_landmarks self) i;
    let slope := fdiv (fsub s1 s0) (fsub upper lower) in
    Ok (assign_where (fun x => fleb lower x && fltb x upper)
                     (fun x => store p (fadd s0 (fmul slope (fsub x lower))))
                     img_array standardized)
  else Ok standardized.

Fixpoint transform_loop (self : NyulStandardizer) (p : pixel_type)
    (img_array img_landmarks : list F) (idxs : list nat) (standardized : list F)
    : result (list F) :=
  match idxs with
  | [] => Ok standardized
  | i :: rest =>
      st ← transform_step self p img_array img_landmarks i standardized;
      transform_loop self p img_array img_landmarks rest st
  end.

Definition transform (self : NyulStandardizer) (image : Image F)
    : result (Image F) :=
  if negb (trained self) then
    Raise (RuntimeError "Standardizer must be trained before transform")
  else
    let img_array := voxels image in
    img_landmarks ← np_percentile (non_zero img_array) (landmarks_percentage self);
    let standardized := zeros_like img_array in
    st ← transform_loop self (pixel image) img_array img_landmarks
           (List.seq 0 (length (landmarks_percentage self) - 1)) standardized;
    top_std ← subscript_last (standard_landmarks self);
    top_src ← getlast img_landmarks;
    let st := assign_where (fun x => fleb top_src x)
                (fun _ => store (pixel image) top_std) img_array st in
    let st := assign_where (fun x => feqb x f0) (fun _ => f0) img_array st in
    Ok (mkImage (pixel image) st).

(** [save_parameters] and [load_parameters], inherited from
    [IntensityStandardizer]. *)
Definition save_parameters (self : NyulStandardizer) (filepath : string)
    (fs : files F) : files F :=
  json_dump (parameters self) filepath fs.

Definition load_parameters (self : NyulStandardizer) (filepath : string)
    (fs : files F) : NyulStandardizer * result unit :=
  match json_load filepath fs with
  | Raise e => (self, Raise e)
  | Ok p =>
      (mk true p (landmarks_percentage self) (standard_scale self)
          (standard_landmarks self), Ok tt)
  end.

End Nyul.
Arguments NyulStandardizer F : clear implicits.
End Nyul.

(** ** zscore_standardizer.py *)

Module ZScore.
Section ZScore.
Context {F : Type} `{Numeric F}.

Record ZScoreStandardizer := mk {
  trained : bool;
  parameters : gmap string (json F);
  use_robust_statistics : bool;
  global_mean : option F;
  global_std : option F;
}.

(** [ZScoreStandardizer(use_robust_statistics)]; the default is [True]. *)
Definition init (robust : bool) : ZScoreStandardizer :=
  {| trained := false; parameters := ∅; use_robust_statistics := robust;
     global_mean := None; global_std := None |}.
Definition new : ZScoreStandardizer := init true.

(** The two branches computing (center, scale) from a sample, written
    out identically in [train] and in the untrained path of [transform]. *)
Definition center (robust : bool) (values : list F) : F :=
  if robust then np_median values else np_mean values.

Definition scale (robust : bool) (values : list F) : F :=
  if robust then
    fmul (np_median (List.map (fun v => fabs (fsub v (np_median values))) values))
         c_1_4826
  else np_std values.

(** [all_values.extend(non_zero)] over the training images. *)
Definition pooled (images : list (Image F)) : list F :=
  List.concat (List.map (fun img => non_zero (voxels img)) images).

Definition train (self : ZScoreStandardizer) (images : list (Image F))
    : ZScoreStandardizer :=
  let all_values := pooled images in
  let m := center (use_robust_statistics self) all_values in
  let s := scale (use_robust_statistics self) all_values in
  mk true
     (<["use_robust" := JBool (use_robust_statistics self)]>
        (<["global_std" := JNum s]>
           (<["global_mean" := JNum m]> (parameters self))))
     (use_robust_statistics self) (Some m) (Some s).

(** [(img_array[mask] - mean) / (std + 1e-8)] where [mean] and [std] may
    be [None]: the subtraction fails on a non-empty selection, the
    addition fails always. *)
Definition standardize (p : pixel_type) (mean std : option F)
    (img_array : list F) : result (list F) :=
  match mean, std with
  | Some m, Some s =>
      Ok (assign_where (fun x => fltb f0 x)
            (fun x => store p (fdiv (fsub x m) (fadd s c_1e_8)))
            img_array (zeros_like img_array))
  | None, _ =>
      match non_zero img_array with
      | _ :: _ =>
          Raise (TypeError "unsupported operand type(s) for -: 'float' and 'NoneType'")
      | [] =>
          match std with
          | Some _ => Ok (zeros_like img_array)
          | None =>
              Raise (TypeError "unsupported operand type(s) for +: 'NoneType' and 'float'")
          end
      end
  | Some _, None =>
      Raise (TypeError "unsupported operand type(s) for +: 'NoneType' and 'float'")
  end.

Definition transform (self : ZScoreStandardizer) (image : Image F)
    : result (Image F) :=
  let img_array := voxels image in
  let '(mean, std) :=
    if negb (trained self) then
      let sample := non_zero img_array in
      (Some (center (use_robust_statistics self) sample),
       Some (scale (use_robust_statistics self) sample))
    else (global_mean self, global_std self) in
  st ← standardize (pixel image) mean std img_array;
  Ok (mkImage (pixel image) st).

Definition save_parameters (self : ZScoreStandardizer) (filepath : string)
    (fs : files F) : files F :=
  json_dump (parameters self) filepath fs.

Definition load_parameters (self : ZScoreStandardizer) (filepath : string)
    (fs : files F) : ZScoreStandardizer * result unit :=
  match json_load filepath fs with
  | Raise e => (self, Raise e)
  | Ok p =>
      (mk true p (use_robust_statistics self) (global_mean self)
          (global_std self), Ok tt)
  end.

End ZScore.
Arguments ZScoreStandardizer F : clear implicits.
End ZScore.

(** ** The rational instance

    Exact arithmetic on [Q], results kept in lowest terms.  [percentile]
    is numpy's default (linear) method; on an empty sample it raises, as
    numpy >= 1.22 does.  The square root of [np.std] is taken to eight
    decimal digits. *)

Module QNum.

Definition add (x y : Q) : Q := Qred (x + y).
Definition sub (x y : Q) : Q := Qred (x - y).
Definition mul (x y : Q) : Q := Qred (x * y).
Definition div (x y : Q) : Q := Qred (x / y).
Definition ltb (x y : Q) : bool := negb (Qle_bool y x).
Definition leb (x y : Q) : bool := Qle_bool x y.
Definition eqb (x y : Q) : bool := Qeq_bool x y.
Definition trunc (x : Q) : Q :=
  inject_Z (if Qle_bool 0 x then Qfloor x else Qceiling x).
Definition of_nat (n : nat) : Q := inject_Z (Z.of_nat n).

Fixpoint insert_sorted (x : Q) (l : list Q) : list Q :=
  match l with
  | [] => [x]
  | y :: l' => if Qle_bool x y then x :: l else y :: insert_sorted x l'
  end.

Definition sort (l : list Q) : list Q := List.fold_right insert_sorted [] l.

(** One percentile, linear interpolation between the two neighbours of
    the virtual index [(n - 1) * q / 100]. *)
Definition percentile1 (sorted : list Q) (q : Q) : Q :=
  let n := length sorted in
  let h := Qred (inject_Z (Z.of_nat (n - 1)) * q / 100) in
  let lo := Z.to_nat (Qfloor h) in
  let hi := Nat.min (lo + 1) (n - 1) in
  let a := List.nth lo sorted 0%Q in
  let b := List.nth hi sorted 0%Q in
  Qred (a + (h - inject_Z (Z.of_nat lo)) * (b - a)).

Definition percentile (xs ps : list Q) : result (list Q) :=
  match xs with
  | [] => Raise (IndexError "index -1 is out of bounds for axis 0 with size 0")
  | _ :: _ => Ok (List.map (percentile1 (sort xs)) ps)
  end.

Definition sum (l : list Q) : Q := List.fold_right (fun x acc => Qred (x + acc)) 0%Q l.

Definition mean (l : list Q) : Q := Qred (sum l / inject_Z (Z.of_nat (length l))).

Definition median (l : list Q) : Q :=
  let s := sort l in
  let n := length s in
  if Nat.even n then
    Qred ((List.nth (n / 2 - 1) s 0%Q + List.nth (n / 2) s 0%Q) / 2)
  else List.nth (n / 2) s 0%Q.

Definition sqrt8 (x : Q) : Q :=
  Qred (Z.sqrt (Qfloor (x * 10000000000000000)) # 100000000).

Definition std (l : list Q) : Q :=
  let m := mean l in
  sqrt8 (mean (List.map (fun x => Qred ((x - m) * (x - m))) l)).

#[global] Instance numeric : Numeric Q := {|
  f0 := 0%Q;
  fadd := add; fsub := sub; fmul := mul; fdiv := div;
  fabs := Qabs;
  fltb := ltb; fleb := leb; feqb := eqb;
  f_of_nat := of_nat;
  ftrunc := trunc;
  c_1_4826 := (14826 # 10000)%Q;
  c_1e_8 := (1 # 100000000)%Q;
  np_percentile := percentile;
  np_mean := mean;
  np_median := median;
  np_std := std;
|}.

End QNum.

(** ** base_pipeline.py *)

Module Engine.
Section Engine.

(** [V] is the type of the artifacts a context holds, [W] the state of
    everything outside the engine that a step can read or change
    (files, logs, the clock). *)
Context {V W : Type}.

(** [time.time()] *)
Variable time_time : W -> Z * W.

(** A step is given by its name and by what its three methods do.  The
    engine hands the context dictionary itself to [validate_inputs] and
    [execute], so both may change it in place: each method returns the
    context as it leaves it.  [execute] returns the result dictionary. *)
Record PipelineStep := {
  name : string;
  validate_inputs : gmap string V -> W -> (gmap string V * W) * result bool;
  execute : gmap string V -> W -> (gmap string V * W) * result (gmap string V);
  cleanup : W -> W * result unit;
}.

(** The fields [execute] of the engine writes on a step object. *)
Record step_fields := {
  execution_time : Z;
  status : string;
  error_message : option string;
}.

Definition pending : step_fields :=
  {| execution_time := 0; status := "pending"; error_message := None |}.

(** An entry of [results['step_results']]. *)
Record step_result := {
  sr_result : option (gmap string V);
  sr_execution_time : Z;
  sr_status : string;
  sr_error : option string;
}.

(** An entry of [results['metadata']['steps_executed']]. *)
Record executed := {
  ex_name : string;
  ex_index : nat;
  ex_execution_time : Z;
  ex_status : string;
}.

(** An entry of [self.errors]. *)
Record error_info := {
  step_name : string;
  step_index : nat;
  error : string;
  error_type : string;
}.

(** [self.results] at the end of [execute]. *)
Record results := {
  input_data : gmap string V;
  step_results : gmap string step_result;
  pipeline_name : string;
  meta_start_time : Z;
  steps_executed : list executed;
  results_error : option string;
  meta_end_time : Z;
  total_execution_time : Z;
  meta_status : string;
  meta_errors : list error_info;
}.

Record BasePipeline := {
  pname : string;
  steps : list PipelineStep;
  fields : list step_fields;
  pstatus : string;
  perrors : list error_info;
  presults : option results;
  current_step_index : nat;
  start_time : option Z;
  end_time : option Z;
}.

(** [BasePipeline(name)] followed by [add_step] for each of [l]. *)
Definition make (n : string) (l : list PipelineStep) : BasePipeline :=
  {| pname := n; steps := l; fields := List.map (fun _ => pending) l;
     pstatus := "initialized"; perrors := []; presults := None;
     current_step_index := 0; start_time := None; end_time := None |}.

(** The variables of the loop in [execute]. *)
Record loop := {
  current_data : gmap string V;
  world : W;
  l_fields : list step_fields;
  l_step_results : gmap string step_result;
  l_steps_executed : list executed;
  l_errors : list error_info;
  l_index : nat;
}.

(** The [except Exception as e] branch of one iteration. *)
Definition on_failure (continue_on_error : bool) (i : nat) (step : PipelineStep)
    (t0 : Z) (e : exn) (s : loop) : loop * result unit :=
  let '(t1, w) := time_time (world s) in
  ({| current_data := current_data s;
      world := w;
      l_fields := <[i := {| execution_time := t1 - t0; status := "failed";
                            error_message := Some (exn_msg e) |}]> (l_fields s);
      l_step_results :=
        <[name step := {| sr_result := None; sr_execution_time := t1 - t0;
                          sr_status := "failed"; sr_error := Some (exn_msg e) |}]>
          (l_step_results s);
      l_steps_executed := l_steps_executed s;
      l_errors := l_errors s ++
        [{| step_name := name step; step_index := i;
            error := exn_msg e; error_type := exn_type e |}];
      l_index := l_index s |},
   if continue_on_error then Ok tt else Raise e).

(** The end of the [try] branch of one iteration, after [step.execute]
    returned [step_result]. *)
Definition on_success (i : nat) (step : PipelineStep) (t0 : Z)
    (step_result : gmap string V) (s : loop) : loop :=
  let '(t1, w) := time_time (world s) in
  {| current_data := step_result ∪ current_data s;
     world := w;
     l_fields := <[i := {| execution_time := t1 - t0; status := "completed";
                           error_message := error_message
                             (default pending (l_fields s !! i)) |}]> (l_fields s);
     l_step_results :=
       <[name step := {| sr_result := Some step_result; sr_execution_time := t1 - t0;
                         sr_status := "success"; sr_error := None |}]>
         (l_step_results s);
     l_steps_executed := l_steps_executed s ++
       [{| ex_name := name step; ex_index := i;
           ex_execution_time := t1 - t0; ex_status := "success" |}];
     l_errors := l_errors s;
     l_index := l_index s |}.

Definition set_data_world (s : loop) (d : gmap string V) (w : W) : loop :=
  {| current_data := d; world := w; l_fields := l_fields s;
     l_step_results := l_step_results s;
     l_steps_executed := l_steps_executed s;
     l_errors := l_errors s; l_index := l_index s |}.

(** The [finally] of one iteration: [cleanup] runs, a failure of it is
    logged and dropped. *)
Definition finally_cleanup (step : PipelineStep) (s : loop) : loop :=
  set_data_world s (current_data s) (fst (cleanup step (world s))).

(** The first two statements of the [try] block: validation, then the
    step itself.  A validation that returns false raises [ValueError]. *)
Definition attempt (step : PipelineStep) (d : gmap string V) (w : W)
    : (gmap string V * W) * result (gmap string V) :=
  let '((d, w), valid) := validate_inputs step d w in
  match valid with
  | Raise e => ((d, w), Raise e)
  | Ok false =>
      ((d, w),
       Raise (ValueError ("Input validation failed for step: " +:+ name step)))
  | Ok true => execute step d w
  end.

(** [step.status = "running"] *)
Definition set_running (i : nat) (fs : list step_fields) : list step_fields :=
  <[i := {| execution_time := execution_time (default pending (fs !! i));
            status := "running";
            error_message := error_message (default pending (fs !! i)) |}]> fs.

(** The body of the [for] loop for step [i]. *)
Definition run_step (continue_on_error : bool) (i : nat) (step : PipelineStep)
    (s : loop) : loop * result unit :=
  let '(t0, w) := time_time (world s) in
  let s :=
    {| current_data := current_data s; world := w;
       l_fields := set_running i (l_fields s);
       l_step_results := l_step_results s;
       l_steps_executed := l_steps_executed s;
       l_errors := l_errors s; l_index := i |} in
  let '((d, w), r) := attempt step (current_data s) (world s) in
  let s := set_data_world s d w in
  let '(s, r) :=
    match r with
    | Raise e => on_failure continue_on_error i step t0 e s
    | Ok step_result => (on_success i step t0 step_result s, Ok tt)
    end in
  (finally_cleanup step s, r).

Fixpoint run_steps (continue_on_error : bool) (i : nat)
    (l : list PipelineStep) (s : loop) : loop * result unit :=
  match l with
  | [] => (s, Ok tt)
  | step :: rest =>
      let '(s', r) := run_step continue_on_error i step s in
      match r with
      | Ok _ => run_steps continue_on_error (S i) rest s'
      | Raise e => (s', Raise e)
      end
  end.

(** The loop variables when the [for] loop is entered. *)
Definition start (self : BasePipeline) (input : gmap string V) (w : W) : loop :=
  {| current_data := input; world := w; l_fields := fields self;
     l_step_results := ∅; l_steps_executed := [];
     l_errors := perrors self; l_index := 0 |}.

(** [BasePipeline.execute(input_data, continue_on_error)]: the pipeline
    object and the world afterwards, and what the call returns or raises. *)
Definition execute_pipeline (self : BasePipeline) (input : gmap string V)
    (continue_on_error : bool) (w : W)
    : (BasePipeline * W) * result results :=
  let '(t_start, w) := time_time w in
  let '(s, r) :=
    run_steps continue_on_error 0 (steps self) (start self input w) in
  let st := match r with Ok _ => "completed" | Raise _ => "failed" end in
  let '(stop, w) := time_time (world s) in
  let res :=
    {| input_data := input;
       step_results := l_step_results s;
       pipeline_name := pname self;
       meta_start_time := t_start;
       steps_executed := l_steps_executed s;
       results_error := match r with Ok _ => None | Raise e => Some (exn_msg e) end;
       meta_end_time := stop;
       total_execution_time := stop - t_start;
       meta_status := st;
       meta_errors := l_errors s |} in
  (({| pname := pname self; steps := steps self; fields := l_fields s;
       pstatus := st; perrors := l_errors s; presults := Some res;
       current_step_index := l_index s;
       start_time := Some t_start; end_time := Some stop |}, w),
   match r with Ok _ => Ok res | Raise e => Raise e end).

End Engine.
Arguments PipelineStep V W : clear implicits.
Arguments BasePipeline V W : clear implicits.
Arguments results V : clear implicits.
Arguments step_result V : clear implicits.
Arguments loop V W : clear implicits.
End Engine.

(** ** Ordered dictionaries

    [detailed_results] is iterated when the CSV is written, so it is kept
    as Python keeps it: in insertion order, a second assignment to a key
    replacing the value in place. *)

Section ODict.
Context {A : Type}.

Fixpoint oset (k : string) (v : A) (d : list (string * A)) : list (string * A) :=
  match d with
  | [] => [(k, v)]
  | (k', v') :: d' =>
      if String.eqb k k' then (k, v) :: d' else (k', v') :: oset k v d'
  end.

Fixpoint oget (k : string) (d : list (string * A)) : option A :=
  match d with
  | [] => None
  | (k', v') :: d' => if String.eqb k k' then Some v' else oget k d'
  end.

End ODict.

(** ** batch_preprocessing.py *)

Module Batch.

(** *** The file system seen by discovery *)

(** An entry of the base directory as [iterdir] yields it: its name,
    whether it is a directory, and the names it contains, in the order
    [glob] lists them. *)
Record dir_entry := {
  entry_name : string;
  is_dir : bool;
  children : list string;
}.

Record patient := {
  patient_id : string;
  t2w_path : string;
  adc_path : string;
  patient_dir : string;
}.

(** [Path(a) / b] as a string. *)
Definition joinpath (a b : string) : string := a +:+ "/" +:+ b.

Definition ends_with (suffix s : string) : bool :=
  String.prefix (String.rev suffix) (String.rev s).

(** Matching of a name against a pattern.  The patterns of this program
    are a single [*] followed by literal text. *)
Definition fnmatch (pattern fname : string) : bool :=
  match pattern with
  | String c lit =>
      if Ascii.eqb c (Ascii.ascii_of_nat 42) then ends_with lit fname
      else String.eqb pattern fname
  | EmptyString => String.eqb pattern fname
  end.

(** [list(patient_dir.glob(pattern))], as names. *)
Definition glob (pattern : string) (e : dir_entry) : list string :=
  List.filter (fnmatch pattern) (children e).

(** [(patient_dir / fname).exists()] *)
Definition file_exists (fname : string) (e : dir_entry) : bool :=
  bool_decide (fname ∈ children e).

Definition patterns : list (string * string) :=
  [ ("*_t2w.nii.gz", "*_adc.nii.gz");
    ("*_T2W.nii.gz", "*_ADC.nii.gz");
    ("*t2.nii.gz", "*adc.nii.gz") ].

(** The loop over [patterns]: the first pair with candidates for both
    files wins. *)
Fixpoint first_match (pats : list (string * string)) (e : dir_entry)
    : option (string * string) :=
  match pats with
  | [] => None
  | (t2w_pattern, adc_pattern) :: rest =>
      match glob t2w_pattern e, glob adc_pattern e with
      | t :: _, a :: _ => Some (t, a)
      | _, _ => first_match rest e
      end
  end.

(** The two files of a directory, after the pattern loop and the exact
    naming check. *)
Definition required_files (e : dir_entry) : option (string * string) :=
  match first_match patterns e with
  | Some ta => Some ta
  | None =>
      let exact_t2w := entry_name e +:+ "_t2w.nii.gz" in
      let exact_adc := entry_name e +:+ "_adc.nii.gz" in
      if file_exists exact_t2w e && file_exists exact_adc e
      then Some (exact_t2w, exact_adc) else None
  end.

Definition hidden (e : dir_entry) : bool := String.prefix "." (entry_name e).

(** A log record: level and message. *)
Definition log_record : Type := string * string.

(** The body of the loop over [base_dir.iterdir()]: the patients found so
    far and the log. *)
Definition discover_entry (base : string) (e : dir_entry)
    (acc : list patient * list log_record) : list patient * list log_record :=
  if negb (is_dir e) then acc
  else if hidden e then acc
  else
    let dir := joinpath base (entry_name e) in
    match required_files e with
    | Some (t, a) =>
        (acc.1 ++ [{| patient_id := entry_name e;
                      t2w_path := joinpath dir t;
                      adc_path := joinpath dir a;
                      patient_dir := dir |}],
         acc.2 ++ [("INFO", "Found patient " +:+ entry_name e)])
    | None =>
        (acc.1,
         acc.2 ++ [("WARNING", "Skipping " +:+ entry_name e +:+ ": missing required files")])
    end.

Definition discover (base : string) (entries : list dir_entry)
    : list patient * list log_record :=
  foldl (fun acc e => discover_entry base e acc) ([], []) entries.

(** *** Outcomes of the per-patient runs *)

(** The dictionary describing one patient's outcome; a key that is absent
    is [None]. *)
Record patient_result := {
  success : bool;
  pr_patient_id : option string;
  outputs_saved : option (list string);
  output_directory : option string;
  pr_execution_time : option Z;
  pr_error : option string;
  pr_error_type : option string;
}.

(** The dictionary returned by [BatchProcessingStep.execute]. *)
Record batch_results := {
  successful : list string;
  failed : list string;
  detailed_results : list (string * patient_result);
}.

Definition no_results : batch_results :=
  {| successful := []; failed := []; detailed_results := [] |}.

(** The record written by the [except] branch of [execute]. *)
Definition failure_record (e : exn) : patient_result :=
  {| success := false; pr_patient_id := None; outputs_saved := None;
     output_directory := None; pr_execution_time := None;
     pr_error := Some (exn_msg e); pr_error_type := None |}.

(** The body of the loop over the patients (the same in the sequential
    and in the parallel branch), given what [process_patient] did. *)
Definition record_outcome (p : patient) (r : result patient_result)
    (acc : batch_results) : batch_results :=
  match r with
  | Ok res =>
      {| successful := if success res then successful acc ++ [patient_id p]
                       else successful acc;
         failed := if success res then failed acc
                   else failed acc ++ [patient_id p];
         detailed_results := oset (patient_id p) res (detailed_results acc) |}
  | Raise e =>
      {| successful := successful acc;
         failed := failed acc ++ [patient_id p];
         detailed_results :=
           oset (patient_id p) (failure_record e) (detailed_results acc) |}
  end.

(** *** Reports *)

Record csv_row := {
  PatientID : string;
  Status : string;
  ExecutionTime : option Z;   (* [None] is printed N/A *)
  OutputsSaved : string;
  Error : string;
}.

Record error_entry := {
  log_patient : string;
  log_error : string;
  log_error_type : string;
}.

Definition join_comma (l : list string) : string :=
  match l with
  | [] => ""
  | x :: rest => foldl (fun acc y => acc +:+ "," +:+ y) x rest
  end.

Definition csv_of (kv : string * patient_result) : csv_row :=
  {| PatientID := kv.1;
     Status := if success kv.2 then "Success" else "Failed";
     ExecutionTime := pr_execution_time kv.2;
     OutputsSaved := join_comma (default [] (outputs_saved kv.2));
     Error := default "" (pr_error kv.2) |}.

Definition error_entry_of (d : list (string * patient_result)) (pid : string)
    : error_entry :=
  {| log_patient := pid;
     log_error := default "Unknown error" (oget pid d ≫= pr_error);
     log_error_type := default "Unknown" (oget pid d ≫= pr_error_type) |}.

(** *** The steps *)

Section Steps.
Context {F : Type} `{Numeric F}.

(** Artifacts held by the context of the batch pipeline. *)
Inductive value :=
| VStr (s : string)
| VBool (b : bool)
| VNat (n : nat)
| VPatients (l : list patient)
| VStandardizer (s : Nyul.NyulStandardizer F)
| VIds (l : list string)
| VDetailed (d : list (string * patient_result))
| VResults (b : batch_results).

(** [batch_summary.json] *)
Record summary := {
  s_pipeline_name : string;
  s_timestamp : Z;
  s_total_patients : nat;
  s_successful : nat;
  s_failed : nat;
  s_success_rate : F;
  s_registration_type : value;
  s_standardization_method : value;
  s_enable_segmentation : value;
}.

Inductive report_file :=
| SummaryFile (s : summary)
| CsvFile (rows : list csv_row)
| ErrorLogFile (generated : Z) (entries : list error_entry).

(** What the steps change outside the context: the clock (number of
    readings so far), the parameter files, the report files and the log. *)
Record World := {
  readings : nat;
  param_files : files F;
  report_files : gmap string report_file;
  log : list log_record;
}.

(** The environment of a batch run, fixed while it runs:
    - [clock]: the successive readings of the wall clock;
    - [iterdir]: the listing of a directory;
    - [ReadImage]: [sitk.ReadImage];
    - [mkdir]: creation of a directory;
    - [patient_run]: the [try] body of [_process_single_patient] (loading
      both images, the preprocessing pipeline, saving) for a patient and
      the shared standardizer: the outputs saved and the run time, or the
      exception it raised;
    - [as_completed]: the order in which the pool hands back the
      submitted patients. *)
Variable clock : nat -> Z.
Variable iterdir : string -> result (list dir_entry).
Variable ReadImage : string -> result (Image F).
Variable mkdir : string -> result unit.
Variable patient_run :
  patient -> option (Nyul.NyulStandardizer F) -> result (list string * Z).
Variable as_completed : list patient -> list patient.

Definition time_time (w : World) : Z * World :=
  (clock (readings w),
   {| readings := S (readings w); param_files := param_files w;
      report_files := report_files w; log := log w |}).

Definition add_log (l : list log_record) (w : World) : World :=
  {| readings := readings w; param_files := param_files w;
     report_files := report_files w; log := log w ++ l |}.

Definition KeyError (k : string) : exn := Exn "KeyError" k.

Abbreviation context := (gmap string value).
Abbreviation Step := (Engine.PipelineStep value World).

(** [PipelineStep.validate_inputs] and [PipelineStep.cleanup], which no
    step of this file overrides. *)
Definition base_validate (d : context) (w : World)
    : (context * World) * result bool := ((d, w), Ok true).
Definition base_cleanup (w : World) : World * result unit := (w, Ok tt).

Definition step (n : string)
    (exec : context -> World -> World * result context) : Step :=
  {| Engine.name := n;
     Engine.validate_inputs := base_validate;
     Engine.execute := fun d w => let '(w', r) := exec d w in ((d, w'), r);
     Engine.cleanup := base_cleanup |}.

(** **** PatientDiscoveryStep *)

Definition discovery_execute (d : context) (w : World) : World * result context :=
  match d !! "base_directory" with
  | Some (VStr base) =>
      match iterdir base with
      | Raise e => (w, Raise e)
      | Ok entries =>
          let '(patients, l) := discover base entries in
          (add_log (l ++ [("INFO", "Found " +:+ pretty (length patients)
                                     +:+ " patients with complete data")]) w,
           Ok (<["total_patients" := VNat (length patients)]>
                 {["patients" := VPatients patients]}))
      end
  | Some _ => (w, Raise (TypeError "expected str, bytes or os.PathLike object"))
  | None => (w, Raise (KeyError "base_directory"))
  end.

Definition PatientDiscoveryStep : Step := step "PatientDiscoveryStep" discovery_execute.

(** **** BatchStandardizationStep *)

(** The loop loading the training images: [patients[:20]], a failed load
    is logged and skipped. *)
Fixpoint load_training (ps : list patient) : list (Image F) * list log_record :=
  match ps with
  | [] => ([], [])
  | p :: rest =>
      let '(imgs, l) := load_training rest in
      match ReadImage (t2w_path p) with
      | Ok img => (img :: imgs, l)
      | Raise e =>
          (imgs, ("WARNING", "Failed to load " +:+ patient_id p +:+ ": " +:+ exn_msg e) :: l)
      end
  end.

Definition standardization_execute (method : string) (d : context) (w : World)
    : World * result context :=
  match d !! "patients" with
  | Some (VPatients patients) =>
      if String.eqb method "nyul" then
        let '(t2w_images, l) := load_training (take 20 patients) in
        let w := add_log (("INFO", "Training Nyul standardization on all T2W images")
                            :: l) w in
        let '(t2w_standardizer, r) := Nyul.train Nyul.new t2w_images in
        match r with
        | Raise e => (w, Raise e)
        | Ok _ =>
            match d !! "output_directory" with
            | Some (VStr output_dir) =>
                let param_file := joinpath output_dir "nyul_parameters.json" in
                ({| readings := readings w;
                    param_files :=
                      Nyul.save_parameters t2w_standardizer param_file (param_files w);
                    report_files := report_files w; log := log w |},
                 Ok (<["training_samples" := VNat (length t2w_images)]>
                       (<["standardization_trained" := VBool true]>
                          {["t2w_standardizer" := VStandardizer t2w_standardizer]})))
            | Some _ => (w, Raise (TypeError "expected str, bytes or os.PathLike object"))
            | None => (w, Raise (KeyError "output_directory"))
            end
        end
      else (w, Ok {["standardization_trained" := VBool false]})
  | Some _ => (w, Raise (TypeError "object is not subscriptable"))
  | None => (w, Raise (KeyError "patients"))
  end.

Definition BatchStandardizationStep (method : string) : Step :=
  step "BatchStandardizationStep" (standardization_execute method).

(** **** BatchProcessingStep *)

Definition process_single_patient (output_dir : string)
    (t2w_standardizer : option (Nyul.NyulStandardizer F)) (p : patient)
    : result patient_result :=
  let patient_output_dir := joinpath output_dir (patient_id p) in
  _ ← mkdir patient_output_dir;
  match patient_run p t2w_standardizer with
  | Ok (saved, t) =>
      Ok {| success := true; pr_patient_id := Some (patient_id p);
            outputs_saved := Some saved;
            output_directory := Some patient_output_dir;
            pr_execution_time := Some t;
            pr_error := None; pr_error_type := None |}
  | Raise e =>
      Ok {| success := false; pr_patient_id := Some (patient_id p);
            outputs_saved := None; output_directory := None;
            pr_execution_time := None;
            pr_error := Some (exn_msg e); pr_error_type := Some (exn_type e) |}
  end.

(** Processing of the patients in the order [order], which is the list
    itself in the sequential branch and the completion order in the
    parallel one.  The worker bound of the pool (a positive number) only
    limits how many runs are in flight and does not appear here. *)
Definition process_all (output_dir : string)
    (t2w_standardizer : option (Nyul.NyulStandardizer F)) (order : list patient)
    : batch_results :=
  foldl (fun acc p =>
           record_outcome p (process_single_patient output_dir t2w_standardizer p) acc)
        no_results order.

Definition process_patients (parallel : bool) (output_dir : string)
    (t2w_standardizer : option (Nyul.NyulStandardizer F)) (patients : list patient)
    : batch_results :=
  if parallel && bool_decide (1 < length patients) then
    process_all output_dir t2w_standardizer (as_completed patients)
  else process_all output_dir t2w_standardizer patients.

Definition results_dict (b : batch_results) : context :=
  <["detailed_results" := VDetailed (detailed_results b)]>
    (<["failed" := VIds (failed b)]>
       {["successful" := VIds (successful b)]}).

Definition processing_execute (parallel : bool) (d : context) (w : World)
    : World * result context :=
  match d !! "patients" with
  | Some (VPatients patients) =>
      match d !! "output_directory" with
      | Some (VStr output_dir) =>
          let t2w_standardizer :=
            match d !! "t2w_standardizer" with
            | Some (VStandardizer s) => Some s
            | _ => None
            end in
          (w, Ok (results_dict
                    (process_patients parallel output_dir t2w_standardizer patients)))
      | Some _ => (w, Raise (TypeError "expected str, bytes or os.PathLike object"))
      | None => (w, Raise (KeyError "output_directory"))
      end
  | Some _ => (w, Raise (TypeError "object is not subscriptable"))
  | None => (w, Raise (KeyError "patients"))
  end.

Definition BatchProcessingStep (parallel : bool) : Step :=
  step "BatchProcessingStep" (processing_execute parallel).

(** **** BatchReportingStep *)

(** [data.get('BatchProcessingStep', {})], read with [.get(key, default)]. *)
Definition reported_results (d : context) : result batch_results :=
  match d !! "BatchProcessingStep" with
  | None => Ok no_results
  | Some (VResults b) => Ok b
  | Some _ => Raise (Exn "AttributeError" "object has no attribute 'get'")
  end.

Definition total_patients (d : context) : result nat :=
  match d !! "total_patients" with
  | Some (VNat n) => Ok n
  | Some _ => Raise (TypeError "'>' not supported")
  | None => Raise (KeyError "total_patients")
  end.

Definition success_rate (n_successful total : nat) : F :=
  if bool_decide (0 < total) then fdiv (f_of_nat n_successful) (f_of_nat total)
  else f_of_nat 0.

Definition make_summary (d : context) (b : batch_results) (now : Z) (total : nat)
    : summary :=
  {| s_pipeline_name := "BatchPreprocessingPipeline";
     s_timestamp := now;
     s_total_patients := total;
     s_successful := length (successful b);
     s_failed := length (failed b);
     s_success_rate := success_rate (length (successful b)) total;
     s_registration_type := default (VStr "unknown") (d !! "registration_type");
     s_standardization_method :=
       default (VStr "unknown") (d !! "standardization_method");
     s_enable_segmentation := default (VBool false) (d !! "enable_segmentation") |}.

Definition csv_rows (b : batch_results) : list csv_row :=
  List.map csv_of (detailed_results b).

Definition error_log (b : batch_results) : list error_entry :=
  List.map (error_entry_of (detailed_results b)) (failed b).

Definition write_report (path : string) (f : report_file) (w : World) : World :=
  {| readings := readings w; param_files := param_files w;
     report_files := <[path := f]> (report_files w); log := log w |}.

Definition reporting_execute (d : context) (w : World) : World * result context :=
  match d !! "output_directory" with
  | Some (VStr output_dir) =>
      match reported_results d with
      | Raise e => (w, Raise e)
      | Ok b =>
          let reports_dir := joinpath output_dir "reports" in
          match mkdir reports_dir with
          | Raise e => (w, Raise e)
          | Ok _ =>
              let '(now, w) := time_time w in
              match total_patients d with
              | Raise e => (w, Raise e)
              | Ok total =>
                  let summary_path := joinpath reports_dir "batch_summary.json" in
                  let csv_path := joinpath reports_dir "batch_results.csv" in
                  let w := write_report summary_path
                             (SummaryFile (make_summary d b now total)) w in
                  let w := write_report csv_path (CsvFile (csv_rows b)) w in
                  let w :=
                    match failed b with
                    | [] => w
                    | _ :: _ =>
                        let '(generated, w) := time_time w in
                        write_report (joinpath reports_dir "error_log.txt")
                          (ErrorLogFile generated (error_log b)) w
                    end in
                  (w, Ok (<["reports_directory" := VStr reports_dir]>
                            (<["csv_path" := VStr csv_path]>
                               {["summary_path" := VStr summary_path]})))
              end
          end
      end
  | Some _ => (w, Raise (TypeError "expected str, bytes or os.PathLike object"))
  | None => (w, Raise (KeyError "output_directory"))
  end.

Definition BatchReportingStep : Step := step "BatchReportingStep" reporting_execute.

(** **** BatchPreprocessingPipeline *)

Definition BatchPreprocessingPipeline (standardization_method : string)
    (parallel_processing : bool) : Engine.BasePipeline value World :=
  Engine.make "BatchPreprocessingPipeline"
    [ PatientDiscoveryStep;
      BatchStandardizationStep standardization_method;
      BatchProcessingStep parallel_processing;
      BatchReportingStep ].

Definition run_batch (standardization_method : string) (parallel : bool)
    (input : context) (w : World) :=
  Engine.execute_pipeline time_time
    (BatchPreprocessingPipeline standardization_method parallel) input false w.

End Steps.
Arguments value F : clear implicits.
Arguments World F : clear implicits.
Arguments summary F : clear implicits.
Arguments report_file F : clear implicits.
End Batch.

(** ** intensity_standardizer.py: [fit_transform] *)

Module IntensityStandardizer.

(** The two abstract methods of [IntensityStandardizer], on a
    standardizer state [S]: [train] returns the new state. *)
Class Standardizer (F S : Type) := {
  train : S -> list (Image F) -> S * result unit;
  transform : S -> Image F -> result (Image F);
}.

Section FitTransform.
Context {F S : Type} `{Standardizer F S}.

(** [[self.transform(img) for img in images]] *)
Fixpoint transform_each (self : S) (images : list (Image F))
    : result (list (Image F)) :=
  match images with
  | [] => Ok []
  | img :: rest =>
      o ← transform self img;
      os ← transform_each self rest;
      Ok (o :: os)
  end.

Definition fit_transform (self : S) (images : list (Image F))
    : S * result (list (Image F)) :=
  let '(self, r) := train self images in
  match r with
  | Raise e => (self, Raise e)
  | Ok _ => (self, transform_each self images)
  end.

End FitTransform.

#[global] Instance nyul {F} `{Numeric F}
    : Standardizer F (Nyul.NyulStandardizer F) :=
  {| train := Nyul.train; transform := Nyul.transform |}.

#[global] Instance zscore {F} `{Numeric F}
    : Standardizer F (ZScore.ZScoreStandardizer F) :=
  {| train := fun self images => (ZScore.train self images, Ok tt);
     transform := ZScore.transform |}.

End IntensityStandardizer.

(** * Vocabulary of the properties *)

(** ** Concrete images used to run the standardizers *)

Module Samples.
Import QNum.

(** A floating-point image and a 16-bit integer image with the same
    voxels: four foreground voxels and one background voxel. *)
Definition float_image : Image Q := mkImage PixelFloat [1; 2; 3; 4; 0]%Q.
Definition int_image : Image Q := mkImage PixelInt [1; 2; 3; 4; 0]%Q.

Definition trained_nyul : Nyul.NyulStandardizer Q :=
  (Nyul.train Nyul.new [float_image]).1.

Definition trained_nyul_int : Nyul.NyulStandardizer Q :=
  (Nyul.train Nyul.new [int_image]).1.

Definition trained_zscore : ZScore.ZScoreStandardizer Q :=
  ZScore.train ZScore.new [float_image].

End Samples.

(** ** Saving and reloading parameters *)

Section ReloadDefs.
Context {F : Type} `{Numeric F}.

(** A fresh standardizer of the same kind, with the constructor arguments
    of [st], loaded from the file [st] was saved to. *)
Definition nyul_reloaded (st : Nyul.NyulStandardizer F) (path : string)
    (fs : files F) : Nyul.NyulStandardizer F * result unit :=
  Nyul.load_parameters
    (Nyul.init (Nyul.landmarks_percentage st) (Nyul.standard_scale st))
    path (Nyul.save_parameters st path fs).

Definition zscore_reloaded (st : ZScore.ZScoreStandardizer F) (path : string)
    (fs : files F) : ZScore.ZScoreStandardizer F * result unit :=
  ZScore.load_parameters (ZScore.init (ZScore.use_robust_statistics st))
    path (ZScore.save_parameters st path fs).

End ReloadDefs.

(** ** Runs of the engine *)

Section EngineVocabulary.
Context {V W : Type}.

(** The variables of the loop of [execute] when it reaches its [k]-th
    step (counted from 0): the state after the iterations for the steps
    before it. *)
Definition reached (time_time : W → Z * W) (k : nat)
    (self : Engine.BasePipeline V W) (input : gmap string V)
    (continue_on_error : bool) (w : W) : Engine.loop V W :=
  (Engine.run_steps time_time continue_on_error 0 (take k (Engine.steps self))
     (Engine.start self input (time_time w).2)).1.

(** The context dictionary passed to the [k]-th step. *)
Definition context_passed_to (time_time : W → Z * W) (k : nat)
    (self : Engine.BasePipeline V W) (input : gmap string V)
    (continue_on_error : bool) (w : W) : gmap string V :=
  Engine.current_data (reached time_time k self input continue_on_error w).

(** What the methods of the [k]-th step do in this run (validation, then
    execution): the context and the world as they leave them, and the
    dictionary returned or the exception raised. *)
Definition attempt_at (time_time : W → Z * W) (k : nat)
    (self : Engine.BasePipeline V W) (input : gmap string V)
    (continue_on_error : bool) (w : W)
    : option ((gmap string V * W) * result (gmap string V)) :=
  let st := reached time_time k self input continue_on_error w in
  (λ step, Engine.attempt step (Engine.current_data st)
             (time_time (Engine.world st)).2) <$> Engine.steps self !! k.

(** In this run, the [k]-th step returns. *)
Definition step_returns (time_time : W → Z * W) (k : nat)
    (self : Engine.BasePipeline V W) (input : gmap string V)
    (continue_on_error : bool) (w : W) : Prop :=
  match attempt_at time_time k self input continue_on_error w with
  | Some (_, Ok _) => True
  | _ => False
  end.

(** In this run, the [k]-th step raises (in its validation or in its
    execution). *)
Definition step_raises (time_time : W → Z * W) (k : nat)
    (self : Engine.BasePipeline V W) (input : gmap string V)
    (continue_on_error : bool) (w : W) : Prop :=
  match attempt_at time_time k self input continue_on_error w with
  | Some (_, Raise _) => True
  | _ => False
  end.

(** In this run, the [k]-th step leaves the context dictionary as it was
    handed to it. *)
Definition step_keeps_context (time_time : W → Z * W) (k : nat)
    (self : Engine.BasePipeline V W) (input : gmap string V)
    (continue_on_error : bool) (w : W) : Prop :=
  match attempt_at time_time k self input continue_on_error w with
  | Some a => a.1.1 = context_passed_to time_time k self input continue_on_error w
  | None => False
  end.

(** The status recorded for a step name in [results['step_results']]. *)
Definition recorded_status (res : Engine.results V) (n : string) : option string :=
  Engine.sr_status <$> (Engine.step_results res !! n).

(** The status field of the [i]-th step object. *)
Definition step_status (p : Engine.BasePipeline V W) (i : nat) : option string :=
  Engine.status <$> (Engine.fields p !! i).

(** The loop state in which the methods of step [i] leave the engine,
    before the outcome is recorded. *)
Definition attempted (time_time : W → Z * W) (i : nat)
    (step : Engine.PipelineStep V W) (s : Engine.loop V W) : Engine.loop V W :=
  let a := Engine.attempt step (Engine.current_data s)
             (time_time (Engine.world s)).2 in
  {| Engine.current_data := a.1.1; Engine.world := a.1.2;
     Engine.l_fields := Engine.set_running i (Engine.l_fields s);
     Engine.l_step_results := Engine.l_step_results s;
     Engine.l_steps_executed := Engine.l_steps_executed s;
     Engine.l_errors := Engine.l_errors s; Engine.l_index := i |}.

(** A step that never puts the key [k] into the context: neither by
    writing it into the dictionary it is handed, nor in the dictionary it
    returns. *)
Definition never_sets (k : string) (s : Engine.PipelineStep V W) : Prop :=
  ∀ d w, d !! k = None →
    (Engine.attempt s d w).1.1 !! k = None ∧
    ∀ r, (Engine.attempt s d w).2 = Ok r → r !! k = None.

(** The number of entries of [results['step_results']] after a run. *)
Definition outcomes_recorded (self : Engine.BasePipeline V W) : option nat :=
  (λ res, size (Engine.step_results res)) <$> Engine.presults self.

End EngineVocabulary.

(** Small pipelines over contexts of numbers, with a clock that stands
    still and no world. *)
Module EngineSamples.

Definition clock (w : unit) : Z * unit := (0%Z, w).

Definition boom : exn := RuntimeError "boom".

(** A step that validates and returns one key. *)
Definition ok_step (n key : string) : Engine.PipelineStep nat unit :=
  {| Engine.name := n;
     Engine.validate_inputs := λ d w, ((d, w), Ok true);
     Engine.execute := λ d w, ((d, w), Ok {[key := 1]});
     Engine.cleanup := λ w, (w, Ok tt) |}.

(** A step that raises. *)
Definition failing_step (n : string) : Engine.PipelineStep nat unit :=
  {| Engine.name := n;
     Engine.validate_inputs := λ d w, ((d, w), Ok true);
     Engine.execute := λ d w, ((d, w), Raise boom);
     Engine.cleanup := λ w, (w, Ok tt) |}.

(** A step that writes a key into the dictionary it is handed, then
    raises. *)
Definition leaking_step (n key : string) : Engine.PipelineStep nat unit :=
  {| Engine.name := n;
     Engine.validate_inputs := λ d w, ((d, w), Ok true);
     Engine.execute := λ d w, ((<[key := 7]> d, w), Raise boom);
     Engine.cleanup := λ w, (w, Ok tt) |}.

Definition distinct_names : Engine.BasePipeline nat unit :=
  Engine.make "p" [ok_step "one" "a"; failing_step "two"; ok_step "three" "c"].

Definition repeated_name : Engine.BasePipeline nat unit :=
  Engine.make "p" [ok_step "one" "a"; failing_step "one"; ok_step "three" "c"].

Definition leaking : Engine.BasePipeline nat unit :=
  Engine.make "p" [ok_step "one" "a"; leaking_step "two" "partial"; ok_step "three" "c"].

(** Runs of these pipelines on the empty context. *)
Definition run (p : Engine.BasePipeline nat unit) (continue_on_error : bool) :=
  Engine.execute_pipeline clock p ∅ continue_on_error tt.

Definition returns (k : nat) (p : Engine.BasePipeline nat unit)
    (continue_on_error : bool) : Prop :=
  step_returns clock k p ∅ continue_on_error tt.

Definition raises_at (k : nat) (p : Engine.BasePipeline nat unit)
    (continue_on_error : bool) : Prop :=
  step_raises clock k p ∅ continue_on_error tt.

Definition context (k : nat) (p : Engine.BasePipeline nat unit)
    (continue_on_error : bool) : gmap string nat :=
  context_passed_to clock k p ∅ continue_on_error tt.

End EngineSamples.

(** ** Discovery *)

Module DiscoverySpec.
Import Batch.

(** A directory holds both required files under a recognized naming
    convention: some pattern pair has a candidate for each file, or both
    exactly named files exist. *)
Definition has_both (e : dir_entry) : Prop :=
  (∃ pat, pat ∈ patterns ∧ glob pat.1 e ≠ [] ∧ glob pat.2 e ≠ []) ∨
  (file_exists (entry_name e +:+ "_t2w.nii.gz") e = true ∧
   file_exists (entry_name e +:+ "_adc.nii.gz") e = true).

(** No file of the directory is a T2W file under any convention. *)
Definition no_t2w (e : dir_entry) : Prop :=
  (∀ pat, pat ∈ patterns → glob pat.1 e = []) ∧
  file_exists (entry_name e +:+ "_t2w.nii.gz") e = false.

(** No file of the directory is an ADC file under any convention. *)
Definition no_adc (e : dir_entry) : Prop :=
  (∀ pat, pat ∈ patterns → glob pat.2 e = []) ∧
  file_exists (entry_name e +:+ "_adc.nii.gz") e = false.

(** How many work items carry the identifier [pid]. *)
Definition occurrences (pid : string) (ps : list patient) : nat :=
  length (List.filter (λ p, String.eqb (patient_id p) pid) ps).

(** The work item of one directory entry, if it yields one. *)
Definition patient_of (base : string) (e : dir_entry) : option patient :=
  if is_dir e && negb (hidden e) then
    match required_files e with
    | Some (t, a) =>
        Some {| patient_id := entry_name e;
                t2w_path := joinpath (joinpath base (entry_name e)) t;
                adc_path := joinpath (joinpath base (entry_name e)) a;
                patient_dir := joinpath base (entry_name e) |}
    | None => None
    end
  else None.

(** The log records of one directory entry. *)
Definition log_of (e : dir_entry) : list log_record :=
  if is_dir e && negb (hidden e) then
    match required_files e with
    | Some _ => [("INFO", "Found patient " +:+ entry_name e)]
    | None =>
        [("WARNING", "Skipping " +:+ entry_name e +:+ ": missing required files")]
    end
  else [].

Definition sample_listing : list dir_entry :=
  [ {| entry_name := "p1"; is_dir := true;
       children := ["p1_t2w.nii.gz"; "p1_adc.nii.gz"] |};
    {| entry_name := "p2"; is_dir := true; children := ["p2_t2w.nii.gz"] |};
    {| entry_name := "p3"; is_dir := true;
       children := ["scan_T2W.nii.gz"; "map_ADC.nii.gz"; "notes.txt"] |};
    {| entry_name := ".cache"; is_dir := true;
       children := ["x_t2w.nii.gz"; "x_adc.nii.gz"] |};
    {| entry_name := "README.md"; is_dir := false; children := [] |} ].

Definition sample_entry : dir_entry :=
  {| entry_name := "p3"; is_dir := true;
     children := ["scan_T2W.nii.gz"; "map_ADC.nii.gz"; "notes.txt"] |}.

End DiscoverySpec.

(** ** Batch steps *)

Module BatchSpec.
Import Batch.

Section Vocabulary.
Context {F : Type} `{Numeric F}.
Variable ReadImage : string → result (Image F).
Variable mkdir : string → result unit.
Variable patient_run :
  patient → option (Nyul.NyulStandardizer F) → result (list string * Z).

(** The T2W image of a patient, when it loads. *)
Definition read_ok (p : patient) : option (Image F) :=
  match ReadImage (t2w_path p) with
  | Ok img => Some img
  | Raise _ => None
  end.

(** The warning logged for a patient whose T2W image does not load. *)
Definition load_warning (p : patient) : option log_record :=
  match ReadImage (t2w_path p) with
  | Ok _ => None
  | Raise e =>
      Some ("WARNING", "Failed to load " +:+ patient_id p +:+ ": " +:+ exn_msg e)
  end.

(** The outcome recorded for a patient: what its own processing
    returned, or the failure record made from what it raised. *)
Definition outcome_of (output_dir : string)
    (std : option (Nyul.NyulStandardizer F)) (p : patient) : patient_result :=
  match process_single_patient mkdir patient_run output_dir std p with
  | Ok res => res
  | Raise e => failure_record e
  end.

(** The processing of the patient itself went through: its output
    directory was created and its run returned. *)
Definition processed_ok (output_dir : string)
    (std : option (Nyul.NyulStandardizer F)) (p : patient) : bool :=
  is_ok (mkdir (joinpath output_dir (patient_id p))) && is_ok (patient_run p std).

End Vocabulary.

(** How many entries of an ordered dictionary have the key [k]. *)
Definition entries_for {A} (k : string) (d : list (string * A)) : nat :=
  length (List.filter (λ kv, String.eqb kv.1 k) d).

End BatchSpec.

(** A small batch: the work list of [DiscoverySpec.sample_listing], where
    the T2W image of the second patient does not load and the run of the
    second patient raises. *)
Module BatchSamples.
Import Batch.

Definition patients : list patient :=
  (discover "in" DiscoverySpec.sample_listing).1.

Definition ReadImage (path : string) : result (Image Q) :=
  if String.eqb path "in/p3/scan_T2W.nii.gz"
  then Raise (RuntimeError "corrupt file")
  else Ok Samples.float_image.

Definition iterdir (path : string) : result (list dir_entry) :=
  if String.eqb path "in" then Ok DiscoverySpec.sample_listing
  else Raise (FileNotFoundError path).

Definition mkdir (path : string) : result unit := Ok tt.

Definition patient_run (p : patient) (std : option (Nyul.NyulStandardizer Q))
    : result (list string * Z) :=
  if String.eqb (patient_id p) "p3"
  then Raise (RuntimeError "registration failed")
  else Ok (["t2w_standardized"; "registered_adc"], 5%Z).

Definition clock (n : nat) : Z := Z.of_nat n.

Definition as_completed (l : list patient) : list patient := List.rev l.

Definition world : World Q :=
  {| readings := 0; param_files := ∅; report_files := ∅; log := [] |}.

(** The context a caller of the pipeline passes in. *)
Definition input : gmap string (value Q) :=
  <["base_directory" := VStr "in"]> {["output_directory" := VStr "out"]}.

(** The context as the discovery step leaves it for the later steps. *)
Definition discovered : gmap string (value Q) :=
  <["total_patients" := VNat (length patients)]>
    (<["patients" := VPatients patients]> input).

End BatchSamples.

(** A run of the whole batch pipeline on the small batch. *)
Module BatchRun.
Import Batch.

Definition run :=
  run_batch BatchSamples.clock BatchSamples.iterdir BatchSamples.ReadImage
    BatchSamples.mkdir BatchSamples.patient_run BatchSamples.as_completed
    "zscore" true BatchSamples.input BatchSamples.world.

(** The dictionary the processing step returned, as the engine recorded it. *)
Definition processing_result : option (gmap string (value Q)) :=
  match run.2 with
  | Ok res =>
      Engine.step_results res !! "BatchProcessingStep" ≫= Engine.sr_result
  | Raise _ => None
  end.

Definition written (path : string) : option (report_file Q) :=
  report_files run.1.2 !! path.

End BatchRun.

(** ** Voxel-wise description of the standardizers *)

Section VoxelMaps.
Context {F : Type} `{Numeric F}.

(** The z-score of one voxel for given statistics, as stored in an array
    of element type [p]; background voxels are 0. *)
Definition zscore_voxel (p : pixel_type) (center scale : F) (x : F) : F :=
  if fltb f0 x then store p (fdiv (fsub x center) (fadd scale c_1e_8)) else f0.

(** The piecewise-linear map of bucket [i], from the source interval
    [lower, upper) onto the standard interval [s0, s1]. *)
Definition linear_map (lower upper s0 s1 : F) (x : F) : F :=
  fadd s0 (fmul (fdiv (fsub s1 s0) (fsub upper lower)) (fsub x lower)).

(** What iteration [i] of the mapping loop writes for a voxel of value
    [x], if it writes: the bucket is not degenerate and [x] lies in it. *)
Definition bucket_value (p : pixel_type) (src std : list F) (i : nat) (x : F)
    : option F :=
  match src !! i, src !! (i + 1), std !! i, std !! (i + 1) with
  | Some lower, Some upper, Some s0, Some s1 =>
      if fltb lower upper && (fleb lower x && fltb x upper)
      then Some (store p (linear_map lower upper s0 s1 x))
      else None
  | _, _, _, _ => None
  end.

(** The value of a voxel after the iterations [idxs] of the loop, from
    the value [d] it had before: the last write wins. *)
Definition loop_value (p : pixel_type) (src std : list F) (idxs : list nat)
    (d : F) (x : F) : F :=
  foldl (λ acc i, default acc (bucket_value p src std i x)) d idxs.

(** The output voxel of [NyulStandardizer.transform] for source landmarks
    [src] and standard landmarks [std]. *)
Definition nyul_voxel (p : pixel_type) (src std : list F) (x : F) : F :=
  if feqb x f0 then f0
  else if fleb (List.last src f0) x then store p (List.last std f0)
  else loop_value p src std (List.seq 0 (length src - 1)) f0 x.

(** Consecutive landmarks do not decrease (numpy's percentiles of
    increasing percentages). *)
Definition nondecreasing (lm : list F) : Prop :=
  ∀ j x y, lm !! j = Some x → lm !! (j + 1) = Some y → fleb x y = true.

End VoxelMaps.

(** ** Further sample pipelines *)

Module EngineSamples2.

(** Two steps that return. *)
Definition all_ok : Engine.BasePipeline nat unit :=
  Engine.make "p" [EngineSamples.ok_step "one" "a"; EngineSamples.ok_step "two" "b"].

(** Three steps that return, then one that raises, then one more. *)
Definition fails_fourth : Engine.BasePipeline nat unit :=
  Engine.make "p"
    [EngineSamples.ok_step "one" "a"; EngineSamples.ok_step "two" "b";
     EngineSamples.ok_step "three" "c"; EngineSamples.failing_step "four";
     EngineSamples.ok_step "five" "e"].

End EngineSamples2.

(** ** Further sample batches *)

Module BatchSamples2.
Import Batch.

(** No image can be read. *)
Definition unreadable (path : string) : result (Image Q) :=
  Raise (RuntimeError "corrupt file").

End BatchSamples2.

(** * Properties *)

(** ** Saving and reloading parameters *)

Section Reload.
Context {F : Type} `{Numeric F}.

(** The parameter dictionary itself survives the round trip. *)
Lemma nyul_reloaded_parameters (st : Nyul.NyulStandardizer F) path fs :
  (nyul_reloaded st path fs).2 = Ok tt ∧
  Nyul.parameters (nyul_reloaded st path fs).1 = Nyul.parameters st ∧
  Nyul.trained (nyul_reloaded st path fs).1 = true ∧
  Nyul.standard_landmarks (nyul_reloaded st path fs).1 = None.
Proof.
  unfold nyul_reloaded, Nyul.load_parameters, Nyul.save_parameters,
    json_load, json_dump.
  rewrite lookup_insert_eq. simpl. done.
Qed.

Lemma zscore_reloaded_parameters (st : ZScore.ZScoreStandardizer F) path fs :
  (zscore_reloaded st path fs).2 = Ok tt ∧
  ZScore.parameters (zscore_reloaded st path fs).1 = ZScore.parameters st ∧
  ZScore.trained (zscore_reloaded st path fs).1 = true ∧
  ZScore.global_mean (zscore_reloaded st path fs).1 = None ∧
  ZScore.global_std (zscore_reloaded st path fs).1 = None.
Proof.
  unfold zscore_reloaded, ZScore.load_parameters, ZScore.save_parameters,
    json_load, json_dump.
  rewrite lookup_insert_eq. simpl. done.
Qed.

(** [transform] reads [standard_landmarks], which [load_parameters] never
    sets: on a reloaded Nyul standardizer it raises on every image. *)
Lemma nyul_transform_without_landmarks (self : Nyul.NyulStandardizer F) img :
  Nyul.standard_landmarks self = None →
  raises (Nyul.transform self img).
Proof.
  intros Hnone. unfold Nyul.transform.
  destruct (negb (Nyul.trained self)); [exact I |].
  destruct (np_percentile _ _) as [lm | e]; [| exact I]. cbn.
  destruct (Nyul.transform_loop _ _ _ _ _ _) as [st | e]; [| exact I]. cbn.
  rewrite Hnone. exact I.
Qed.

(** Likewise [ZScoreStandardizer.transform] reads [global_mean] and
    [global_std]. *)
Lemma zscore_transform_without_statistics (self : ZScore.ZScoreStandardizer F) img :
  ZScore.trained self = true →
  ZScore.global_mean self = None →
  ZScore.global_std self = None →
  raises (ZScore.transform self img).
Proof.
  intros Ht Hm Hs. unfold ZScore.transform. rewrite Ht, Hm, Hs. cbn.
  unfold ZScore.standardize. destruct (non_zero (voxels img)); exact I.
Qed.

End Reload.

(** C1 (refuted as a property of the code).  Saving the parameters of a
    trained standardizer and loading them into a fresh standardizer of
    the same kind does not give an equivalent model: the original
    transforms the sample image, while the reloaded standardizer, Nyul or
    Z-score, raises on every image. *)
Theorem C1_reloaded_standardizer_raises :
  is_ok (Nyul.transform Samples.trained_nyul Samples.float_image) = true ∧
  is_ok (ZScore.transform Samples.trained_zscore Samples.float_image) = true ∧
  (∀ (F : Type) (N : Numeric F) (st : Nyul.NyulStandardizer F) path fs img,
      (nyul_reloaded st path fs).2 = Ok tt ∧
      raises (Nyul.transform (nyul_reloaded st path fs).1 img)) ∧
  (∀ (F : Type) (N : Numeric F) (st : ZScore.ZScoreStandardizer F) path fs img,
      (zscore_reloaded st path fs).2 = Ok tt ∧
      raises (ZScore.transform (zscore_reloaded st path fs).1 img)).
Proof.
  split; [vm_compute; reflexivity |].
  split; [vm_compute; reflexivity |].
  split.
  - intros F N st path fs img.
    destruct (nyul_reloaded_parameters st path fs) as (Hr & _ & _ & Hl).
    split; [exact Hr |]. by apply nyul_transform_without_landmarks.
  - intros F N st path fs img.
    destruct (zscore_reloaded_parameters st path fs) as (Hr & _ & Ht & Hm & Hs).
    split; [exact Hr |]. by apply zscore_transform_without_statistics.
Qed.

(** ** Training of the Nyul standardizer *)

Section NyulTrain.
Context {F : Type} `{NumpyLaws F}.

(** Writing [g i] at every index [i] of [l], from left to right. *)
Lemma foldl_insert_lookup (g : nat → F) (l : list nat) (s : list F) (j : nat) :
  foldl (λ acc i, <[i := g i]> acc) s l !! j =
  if decide (j ∈ l ∧ j < length s) then Some (g j) else s !! j.
Proof.
  revert s. induction l as [| i l IH]; intros s; cbn [foldl].
  - case_decide as Hd; [| done]. destruct Hd as [Hd _]. by apply elem_of_nil in Hd.
  - rewrite IH, length_insert.
    destruct (decide (j ∈ l ∧ j < length s)) as [[Hin Hlt] | Hno].
    + rewrite decide_True; [done |]. split; [by right | done].
    + destruct (decide (i = j)) as [-> | Hne].
      * destruct (decide (j < length s)) as [Hlt | Hge].
        -- rewrite list_lookup_insert_eq by done.
           rewrite decide_True; [done |]. split; [by left | done].
        -- rewrite list_insert_ge by lia.
           rewrite decide_False; [done |]. intros [_ ?]. lia.
      * rewrite list_lookup_insert_ne by done.
        rewrite decide_False; [done |].
        intros [Hin Hlt]. apply Hno. split; [| done].
        apply elem_of_cons in Hin as [-> | Hin]; [done | exact Hin].
Qed.

Lemma foldl_insert_length (g : nat → F) (l : list nat) (s : list F) :
  length (foldl (λ acc i, <[i := g i]> acc) s l) = length s.
Proof.
  revert s. induction l as [| i l IH]; intros s; cbn [foldl]; [done |].
  by rewrite IH, length_insert.
Qed.

Lemma respace_length scale (s : list F) :
  length (Nyul.respace scale s) = length s.
Proof. apply foldl_insert_length. Qed.

(** The interpolation loop rewrites the interior and nothing else. *)
Lemma respace_lookup scale (s : list F) (j : nat) :
  Nyul.respace scale s !! j =
  if decide (0 < j ∧ j < length s - 1)
  then Some (Nyul.interior scale (length s) j) else s !! j.
Proof.
  unfold Nyul.respace. rewrite foldl_insert_lookup.
  destruct (decide (0 < j ∧ j < length s - 1)) as [[Hj0 Hj1] | Hno].
  - rewrite decide_True; [done |]. split; [| lia].
    apply list_elem_of_In, in_seq. lia.
  - rewrite decide_False; [done |]. intros [Hin _]. apply Hno.
    apply list_elem_of_In, in_seq in Hin. lia.
Qed.

(** One landmark vector per image, each of the length of the percentages. *)
Lemma all_landmarks_ok (ps : list F) (images : list (Image F)) :
  (∀ img, img ∈ images → is_ok (np_percentile (non_zero (voxels img)) ps) = true) →
  ∃ rows, Nyul.all_landmarks ps images = Ok rows ∧
          length rows = length images ∧
          Forall (λ r, length r = length ps) rows.
Proof.
  induction images as [| img images IH]; intros Hok; cbn [Nyul.all_landmarks].
  - exists []. by repeat split.
  - destruct (np_percentile (non_zero (voxels img)) ps) as [l | e] eqn:Hp.
    2:{ specialize (Hok img (list_elem_of_here _ _)). rewrite Hp in Hok. done. }
    destruct IH as (rows & Hrows & Hlen & Hall).
    { intros i Hi. apply Hok. by right. }
    exists (l :: rows). cbn. rewrite Hrows. cbn. repeat split.
    + by rewrite Hlen.
    + constructor; [| done]. by eapply np_percentile_length.
Qed.

Lemma np_mean_axis0_length (r : list F) (rows : list (list F)) :
  length (np_mean_axis0 (r :: rows)) = length r.
Proof. unfold np_mean_axis0. by rewrite length_map, length_seq. Qed.

(** [train] in closed form, on a non-empty list of images on each of
    which numpy's percentile is defined: the mean landmarks [m] have one
    entry per percentage, and the standard landmarks are [m] with its two
    ends and then its interior overwritten. *)
Lemma nyul_train_closed_form (self : Nyul.NyulStandardizer F)
    (images : list (Image F)) (n : nat) :
  images ≠ [] →
  length (Nyul.landmarks_percentage self) = S n →
  (∀ img, img ∈ images →
     is_ok (np_percentile (non_zero (voxels img))
                          (Nyul.landmarks_percentage self)) = true) →
  ∃ m : list F,
    length m = S n ∧
    Nyul.train self images =
    (let s0 := <[0 := (Nyul.standard_scale self).1]> m in
     let s1 := <[length s0 - 1 := (Nyul.standard_scale self).2]> s0 in
     let s := Nyul.respace (Nyul.standard_scale self) s1 in
     Nyul.mk true
       (<["landmarks_percentage" := JList (Nyul.landmarks_percentage self)]>
          (<["standard_landmarks" := JList s]> (Nyul.parameters self)))
       (Nyul.landmarks_percentage self) (Nyul.standard_scale self) (Some s),
     Ok tt).
Proof.
  intros Hne Hlen Hok.
  destruct (all_landmarks_ok _ _ Hok) as (rows & Hrows & Hrl & Hall).
  destruct rows as [| r rows].
  { destruct images; [done | discriminate]. }
  assert (Hm : length (np_mean_axis0 (r :: rows)) = S n).
  { rewrite np_mean_axis0_length. apply Forall_cons in Hall as [-> _]. done. }
  exists (np_mean_axis0 (r :: rows)). split; [exact Hm |].
  unfold Nyul.train. rewrite Hrows.
  destruct (np_mean_axis0 (r :: rows)) as [| m0 mean] eqn:Hmean; [discriminate |].
  reflexivity.
Qed.

(** C5.  After [train] on a non-empty list of images (on each of which
    numpy's percentile is defined), with landmark percentages
    [p_0 .. p_n], the stored standard landmarks are: [hi] at index [n],
    [lo] at index [0] (when there are at least two landmarks), and
    [lo + (hi - lo) * (i / n)] at every interior index [i], whatever the
    training images are. *)
Theorem C5_nyul_train_landmarks (self : Nyul.NyulStandardizer F)
    (images : list (Image F)) (n : nat) :
  images ≠ [] →
  length (Nyul.landmarks_percentage self) = S n →
  (∀ img, img ∈ images →
     is_ok (np_percentile (non_zero (voxels img))
                          (Nyul.landmarks_percentage self)) = true) →
  ∃ s : list F,
    (Nyul.train self images).2 = Ok tt ∧
    Nyul.trained (Nyul.train self images).1 = true ∧
    Nyul.standard_landmarks (Nyul.train self images).1 = Some s ∧
    length s = S n ∧
    s !! n = Some (Nyul.standard_scale self).2 ∧
    (0 < n → s !! 0 = Some (Nyul.standard_scale self).1) ∧
    ∀ i, 0 < i < n →
      s !! i = Some (fadd (Nyul.standard_scale self).1
                      (fmul (fsub (Nyul.standard_scale self).2
                                  (Nyul.standard_scale self).1)
                            (fdiv (f_of_nat i) (f_of_nat n)))).
Proof.
  intros Hne Hlen Hok.
  destruct (all_landmarks_ok _ _ Hok) as (rows & Hrows & Hrl & Hall).
  destruct rows as [| r rows].
  { destruct images; [done | discriminate]. }
  assert (Hm : length (np_mean_axis0 (r :: rows)) = S n).
  { rewrite np_mean_axis0_length. apply Forall_cons in Hall as [-> _]. done. }
  unfold Nyul.train. rewrite Hrows.
  destruct (np_mean_axis0 (r :: rows)) as [| m0 mean] eqn:Hmean; [discriminate |].
  set (s0 := <[0 := (Nyul.standard_scale self).1]> (m0 :: mean)).
  set (s1 := <[length s0 - 1 := (Nyul.standard_scale self).2]> s0).
  assert (Hs0 : length s0 = S n) by (unfold s0; by rewrite length_insert).
  assert (Hs1 : length s1 = S n) by (unfold s1; by rewrite length_insert).
  exists (Nyul.respace (Nyul.standard_scale self) s1). cbn.
  repeat split.
  - by rewrite respace_length.
  - rewrite respace_lookup, decide_False by lia.
    unfold s1. rewrite Hs0. replace (S n - 1) with n by lia.
    apply list_lookup_insert_eq. lia.
  - intros Hn. rewrite respace_lookup, decide_False by lia.
    unfold s1. rewrite list_lookup_insert_ne by lia. done.
  - intros i Hi. rewrite respace_lookup, decide_True by lia.
    unfold Nyul.interior. rewrite Hs1. by replace (S n - 1) with n by lia.
Qed.

End NyulTrain.

(** The rational instance satisfies what is assumed of numpy. *)
#[global] Instance QNum_numpy_laws : NumpyLaws Q.
Proof.
  constructor. intros xs ps l. cbn. unfold QNum.percentile.
  destruct xs; [discriminate |]. intros [= <-]. by rewrite length_map.
Qed.

Lemma C5_nyul_train_landmarks_witness :
  ∃ s : list Q,
    (Nyul.train Nyul.new [Samples.float_image]).2 = Ok tt ∧
    Nyul.trained (Nyul.train Nyul.new [Samples.float_image]).1 = true ∧
    Nyul.standard_landmarks (Nyul.train Nyul.new [Samples.float_image]).1 = Some s ∧
    length s = 11 ∧
    s !! 10 = Some (Nyul.standard_scale (Nyul.new (F := Q))).2 ∧
    (0 < 10 → s !! 0 = Some (Nyul.standard_scale (Nyul.new (F := Q))).1) ∧
    ∀ i, 0 < i < 10 →
      s !! i = Some (fadd (Nyul.standard_scale (Nyul.new (F := Q))).1
                      (fmul (fsub (Nyul.standard_scale (Nyul.new (F := Q))).2
                                  (Nyul.standard_scale (Nyul.new (F := Q))).1)
                            (fdiv (f_of_nat i) (f_of_nat 10)))).
Proof.
  apply (C5_nyul_train_landmarks (F := Q) Nyul.new [Samples.float_image] 10).
  - discriminate.
  - reflexivity.
  - intros img Hin. apply list_elem_of_singleton in Hin. subst img.
    vm_compute. reflexivity.
Defined.

(** ** The step engine *)

Section EngineFacts.
Context {V W : Type}.
Variable time_time : W → Z * W.

Abbreviation run_step := (Engine.run_step time_time).
Abbreviation run_steps := (Engine.run_steps time_time).
Abbreviation on_success := (Engine.on_success time_time).
Abbreviation on_failure := (Engine.on_failure time_time).

(** Projections of a loop state given in closed form. *)
Ltac norm_loop :=
  cbn [Engine.current_data Engine.world Engine.l_fields Engine.l_step_results
       Engine.l_steps_executed Engine.l_errors Engine.l_index fst snd].

Lemma on_success_eq i (step : Engine.PipelineStep V W) t0 r s :
  on_success i step t0 r s =
  {| Engine.current_data := r ∪ Engine.current_data s;
     Engine.world := (time_time (Engine.world s)).2;
     Engine.l_fields :=
       <[i := {| Engine.execution_time := (time_time (Engine.world s)).1 - t0;
                 Engine.status := "completed";
                 Engine.error_message :=
                   Engine.error_message
                     (default Engine.pending (Engine.l_fields s !! i)) |}]>
         (Engine.l_fields s);
     Engine.l_step_results :=
       <[Engine.name step :=
           {| Engine.sr_result := Some r;
              Engine.sr_execution_time := (time_time (Engine.world s)).1 - t0;
              Engine.sr_status := "success"; Engine.sr_error := None |}]>
         (Engine.l_step_results s);
     Engine.l_steps_executed := Engine.l_steps_executed s ++
       [{| Engine.ex_name := Engine.name step; Engine.ex_index := i;
           Engine.ex_execution_time := (time_time (Engine.world s)).1 - t0;
           Engine.ex_status := "success" |}];
     Engine.l_errors := Engine.l_errors s;
     Engine.l_index := Engine.l_index s |}.
Proof. unfold Engine.on_success. by destruct (time_time (Engine.world s)). Qed.

Lemma on_failure_eq coe i (step : Engine.PipelineStep V W) t0 e s :
  on_failure coe i step t0 e s =
  ({| Engine.current_data := Engine.current_data s;
      Engine.world := (time_time (Engine.world s)).2;
      Engine.l_fields :=
        <[i := {| Engine.execution_time := (time_time (Engine.world s)).1 - t0;
                  Engine.status := "failed";
                  Engine.error_message := Some (exn_msg e) |}]>
          (Engine.l_fields s);
      Engine.l_step_results :=
        <[Engine.name step :=
            {| Engine.sr_result := None;
               Engine.sr_execution_time := (time_time (Engine.world s)).1 - t0;
               Engine.sr_status := "failed";
               Engine.sr_error := Some (exn_msg e) |}]>
          (Engine.l_step_results s);
      Engine.l_steps_executed := Engine.l_steps_executed s;
      Engine.l_errors := Engine.l_errors s ++
        [{| Engine.step_name := Engine.name step; Engine.step_index := i;
            Engine.error := exn_msg e; Engine.error_type := exn_type e |}];
      Engine.l_index := Engine.l_index s |},
   if coe then Ok tt else Raise e).
Proof. unfold Engine.on_failure. by destruct (time_time (Engine.world s)). Qed.

Lemma run_step_eq coe i (step : Engine.PipelineStep V W) s :
  run_step coe i step s =
  match (Engine.attempt step (Engine.current_data s)
           (time_time (Engine.world s)).2).2 with
  | Ok r =>
      (Engine.finally_cleanup step
         (on_success i step (time_time (Engine.world s)).1 r
            (attempted time_time i step s)),
       Ok tt)
  | Raise e =>
      (Engine.finally_cleanup step
         (on_failure coe i step (time_time (Engine.world s)).1 e
            (attempted time_time i step s)).1,
       if coe then Ok tt else Raise e)
  end.
Proof.
  unfold Engine.run_step, attempted.
  destruct (time_time (Engine.world s)) as [t0 w0]. cbn.
  destruct (Engine.attempt step (Engine.current_data s) w0) as [[d w'] [r | e]];
    unfold Engine.set_data_world; cbn; [reflexivity |].
  rewrite on_failure_eq. reflexivity.
Qed.

Lemma run_steps_app coe i (l1 l2 : list (Engine.PipelineStep V W)) s :
  run_steps coe i (l1 ++ l2) s =
  match run_steps coe i l1 s with
  | (s', Ok _) => run_steps coe (i + length l1) l2 s'
  | (s', Raise e) => (s', Raise e)
  end.
Proof.
  revert i s. induction l1 as [| step l1 IH]; intros i s; cbn [app Engine.run_steps length].
  - by rewrite Nat.add_0_r.
  - destruct (run_step coe i step s) as [s' [[] | e]]; [| done].
    rewrite IH. by replace (S i + length l1) with (i + S (length l1)) by lia.
Qed.

Lemma size_insert_2 {A} (k1 k2 : string) (a b : A) :
  k1 ≠ k2 → size (<[k2 := b]> (<[k1 := a]> (∅ : gmap string A))) = 2.
Proof.
  intros Hne. rewrite map_size_insert_None.
  - by rewrite map_size_insert_None, map_size_empty by apply lookup_empty.
  - rewrite lookup_insert_ne by done. apply lookup_empty.
Qed.

Lemma size_insert_3 {A} (k1 k2 k3 : string) (a b c : A) :
  k1 ≠ k2 → k1 ≠ k3 → k2 ≠ k3 →
  size (<[k3 := c]> (<[k2 := b]> (<[k1 := a]> (∅ : gmap string A)))) = 3.
Proof.
  intros H12 H13 H23. rewrite map_size_insert_None.
  - by rewrite size_insert_2.
  - rewrite !lookup_insert_ne by done. apply lookup_empty.
Qed.

(** One iteration, in closed form, when the step returned. *)
Lemma run_step_success coe i (step : Engine.PipelineStep V W) s d w r :
  Engine.attempt step (Engine.current_data s) (time_time (Engine.world s)).2
    = ((d, w), Ok r) →
  run_step coe i step s =
  ({| Engine.current_data := r ∪ d;
      Engine.world := (Engine.cleanup step (time_time w).2).1;
      Engine.l_fields :=
        <[i := {| Engine.execution_time :=
                    (time_time w).1 - (time_time (Engine.world s)).1;
                  Engine.status := "completed";
                  Engine.error_message :=
                    Engine.error_message
                      (default Engine.pending
                         (Engine.set_running i (Engine.l_fields s) !! i)) |}]>
          (Engine.set_running i (Engine.l_fields s));
      Engine.l_step_results :=
        <[Engine.name step :=
            {| Engine.sr_result := Some r;
               Engine.sr_execution_time :=
                 (time_time w).1 - (time_time (Engine.world s)).1;
               Engine.sr_status := "success"; Engine.sr_error := None |}]>
          (Engine.l_step_results s);
      Engine.l_steps_executed := Engine.l_steps_executed s ++
        [{| Engine.ex_name := Engine.name step; Engine.ex_index := i;
            Engine.ex_execution_time :=
              (time_time w).1 - (time_time (Engine.world s)).1;
            Engine.ex_status := "success" |}];
      Engine.l_errors := Engine.l_errors s;
      Engine.l_index := i |}, Ok tt).
Proof.
  intros Ha. rewrite run_step_eq, Ha. cbn [snd]. rewrite on_success_eq.
  unfold attempted. rewrite Ha. reflexivity.
Qed.

(** One iteration, in closed form, when the step raised. *)
Lemma run_step_failure coe i (step : Engine.PipelineStep V W) s d w e :
  Engine.attempt step (Engine.current_data s) (time_time (Engine.world s)).2
    = ((d, w), Raise e) →
  run_step coe i step s =
  ({| Engine.current_data := d;
      Engine.world := (Engine.cleanup step (time_time w).2).1;
      Engine.l_fields :=
        <[i := {| Engine.execution_time :=
                    (time_time w).1 - (time_time (Engine.world s)).1;
                  Engine.status := "failed";
                  Engine.error_message := Some (exn_msg e) |}]>
          (Engine.set_running i (Engine.l_fields s));
      Engine.l_step_results :=
        <[Engine.name step :=
            {| Engine.sr_result := None;
               Engine.sr_execution_time :=
                 (time_time w).1 - (time_time (Engine.world s)).1;
               Engine.sr_status := "failed";
               Engine.sr_error := Some (exn_msg e) |}]>
          (Engine.l_step_results s);
      Engine.l_steps_executed := Engine.l_steps_executed s;
      Engine.l_errors := Engine.l_errors s ++
        [{| Engine.step_name := Engine.name step; Engine.step_index := i;
            Engine.error := exn_msg e; Engine.error_type := exn_type e |}];
      Engine.l_index := i |},
   if coe then Ok tt else Raise e).
Proof.
  intros Ha. rewrite run_step_eq, Ha. cbn [snd]. rewrite on_failure_eq.
  unfold attempted. rewrite Ha. reflexivity.
Qed.

(** A key that no step sets and that the input does not hold is never in
    the context. *)
Lemma run_steps_key_absent (k : string) coe (l : list (Engine.PipelineStep V W)) i s :
  (∀ step, step ∈ l → never_sets k step) →
  Engine.current_data s !! k = None →
  Engine.current_data (run_steps coe i l s).1 !! k = None.
Proof.
  revert i s. induction l as [| step l IH]; intros i s Hl Hk; [done |].
  cbn [Engine.run_steps].
  destruct (Hl step (list_elem_of_here _ _) (Engine.current_data s)
              (time_time (Engine.world s)).2 Hk) as [Hd Hr].
  destruct (Engine.attempt step (Engine.current_data s) (time_time (Engine.world s)).2)
    as [[d w] [r | e]] eqn:Ha.
  - rewrite (run_step_success coe i step s d w r Ha).
    apply IH; [intros st Hst; apply Hl; by right |]. cbn.
    apply lookup_union_None. split; [by apply Hr | exact Hd].
  - rewrite (run_step_failure coe i step s d w e Ha).
    destruct coe; [| exact Hd].
    apply IH; [intros st Hst; apply Hl; by right | exact Hd].
Qed.

(** The loop state in closed form is normalised by unfolding the
    projections only. *)
Tactic Notation "norm_run" :=
  cbn [fst snd Engine.current_data Engine.world Engine.l_fields
       Engine.l_step_results Engine.l_steps_executed Engine.l_errors
       Engine.l_index Engine.steps Engine.fields Engine.perrors Engine.pname
       Engine.make Engine.start map].
Tactic Notation "norm_run" "in" hyp(H) :=
  cbn [fst snd Engine.current_data Engine.world Engine.l_fields
       Engine.l_step_results Engine.l_steps_executed Engine.l_errors
       Engine.l_index Engine.steps Engine.fields Engine.perrors Engine.pname
       Engine.make Engine.start map] in H.

(** What a run without [continue_on_error] observes does not depend on
    the step after one that raises. *)
Lemma run_ignores_third n (s1 s2 s3 s3' : Engine.PipelineStep V W) input w :
  step_raises time_time 1 (Engine.make n [s1; s2; s3]) input false w →
  let out := Engine.execute_pipeline time_time (Engine.make n [s1; s2; s3]) input false w in
  let out' := Engine.execute_pipeline time_time (Engine.make n [s1; s2; s3']) input false w in
  out'.2 = out.2 ∧ out'.1.2 = out.1.2 ∧
  Engine.presults out'.1.1 = Engine.presults out.1.1 ∧
  Engine.fields out'.1.1 = Engine.fields out.1.1.
Proof.
  unfold step_raises.
  destruct (attempt_at _ _ _ _ _ _) as [[a [r | e]] |] eqn:Hf; try done. intros _.
  unfold Engine.execute_pipeline, attempt_at, reached in *.
  cbn [Engine.make Engine.steps take lookup list_lookup fmap option_fmap option_map
       Engine.run_steps map Engine.fields Engine.perrors Engine.start] in *.
  unfold Engine.start in *.
  cbn [Engine.make Engine.steps Engine.fields Engine.perrors map] in *.
  destruct (time_time w) as [t_start w0]. cbn [snd] in Hf.
  destruct (run_step false 0 s1 _) as [st1 [[] | e1]].
  - cbn [fst snd] in Hf. injection Hf as Hf. rewrite !run_step_eq, Hf. cbn [snd].
    match goal with |- context [let '(_, _) := time_time ?w in _] =>
      destruct (time_time w) as [stop wf] end.
    done.
  - match goal with |- context [let '(_, _) := time_time ?w in _] =>
      destruct (time_time w) as [stop wf] end.
    done.
Qed.


(** C4, as the code has it.  A 3-step pipeline with pairwise different
    step names, in a run with [continue_on_error] in which steps 1 and 3
    return and step 2 raises, leaving the context dictionary as it was
    handed to it: the call returns; [step_results] holds exactly three
    entries, "failed" for step 2 and "success" for steps 1 and 3 (whose
    step objects are "completed"); and the context passed to step 3 is
    the context that was passed to step 2. *)
Theorem C4_failure_is_absorbed n (s1 s2 s3 : Engine.PipelineStep V W) input w :
  let p := Engine.make n [s1; s2; s3] in
  step_returns time_time 0 p input true w →
  step_raises time_time 1 p input true w →
  step_returns time_time 2 p input true w →
  step_keeps_context time_time 1 p input true w →
  Engine.name s1 ≠ Engine.name s2 →
  Engine.name s1 ≠ Engine.name s3 →
  Engine.name s2 ≠ Engine.name s3 →
  let out := Engine.execute_pipeline time_time p input true w in
  ∃ res,
    out.2 = Ok res ∧
    Engine.presults out.1.1 = Some res ∧
    outcomes_recorded out.1.1 = Some 3 ∧
    recorded_status res (Engine.name s1) = Some "success" ∧
    recorded_status res (Engine.name s2) = Some "failed" ∧
    recorded_status res (Engine.name s3) = Some "success" ∧
    step_status out.1.1 0 = Some "completed" ∧
    step_status out.1.1 1 = Some "failed" ∧
    step_status out.1.1 2 = Some "completed" ∧
    context_passed_to time_time 2 p input true w =
    context_passed_to time_time 1 p input true w.
Proof.
  intros p H1 H2 H3 Hp H12 H13 H23 out.
  unfold step_returns in H1, H3. unfold step_raises in H2.
  unfold step_keeps_context in Hp.
  destruct (attempt_at _ 0 _ _ _ _) as [[[d1 w1] [r1 | ?]] |] eqn:A1; try done.
  destruct (attempt_at _ 1 _ _ _ _) as [[[d2 w2] [? | e2]] |] eqn:A2; try done.
  destruct (attempt_at _ 2 _ _ _ _) as [[[d3 w3] [r3 | ?]] |] eqn:A3; try done.
  clear H1 H2 H3. rename Hp into Hkeep. cbn [fst] in Hkeep.
  unfold out, p, Engine.execute_pipeline, outcomes_recorded, step_status,
    recorded_status, context_passed_to, attempt_at, reached in *.
  cbn [Engine.make Engine.steps take lookup list_lookup fmap option_fmap option_map
       Engine.run_steps map] in *.
  destruct (time_time w) as [t_start w0]. unfold Engine.start in *.
  norm_run in A1. norm_run in A2. norm_run in A3. norm_run in Hkeep. norm_run.
  injection A1 as A1.
  match goal with |- context [run_step true 0 s1 ?s] =>
    rewrite (run_step_success true 0 s1 s d1 w1 r1 A1) in A2, A3, Hkeep |- * end.
  norm_run in A2. norm_run in A3. norm_run in Hkeep. norm_run.
  injection A2 as A2.
  match goal with |- context [run_step true 1 s2 ?s] =>
    rewrite (run_step_failure true 1 s2 s d2 w2 e2 A2) in A3 |- * end.
  norm_run in A3. norm_run. injection A3 as A3.
  match goal with |- context [run_step true 2 s3 ?s] =>
    rewrite (run_step_success true 2 s3 s d3 w3 r3 A3) end.
  norm_run.
  match goal with |- context [let '(_, _) := time_time ?w in _] =>
    destruct (time_time w) as [stop wf] end.
  eexists.
  split; [reflexivity |]. split; [reflexivity |].
  cbn. split; [by rewrite size_insert_3 |].
  split; [by rewrite lookup_insert_ne, lookup_insert_ne, lookup_insert_eq |].
  split; [by rewrite lookup_insert_ne, lookup_insert_eq |].
  split; [by rewrite lookup_insert_eq |].
  split; [reflexivity |]. split; [reflexivity |]. split; [reflexivity |].
  exact Hkeep.
Qed.

End EngineFacts.



Lemma C4_failure_is_absorbed_witness :
  let out := EngineSamples.run EngineSamples.distinct_names true in
  ∃ res,
    out.2 = Ok res ∧
    Engine.presults out.1.1 = Some res ∧
    outcomes_recorded out.1.1 = Some 3 ∧
    recorded_status res "one" = Some "success" ∧
    recorded_status res "two" = Some "failed" ∧
    recorded_status res "three" = Some "success" ∧
    step_status out.1.1 0 = Some "completed" ∧
    step_status out.1.1 1 = Some "failed" ∧
    step_status out.1.1 2 = Some "completed" ∧
    EngineSamples.context 2 EngineSamples.distinct_names true =
    EngineSamples.context 1 EngineSamples.distinct_names true.
Proof.
  apply (C4_failure_is_absorbed EngineSamples.clock "p"
           (EngineSamples.ok_step "one" "a") (EngineSamples.failing_step "two")
           (EngineSamples.ok_step "three" "c") ∅ tt).
  - vm_compute. exact I.
  - vm_compute. exact I.
  - vm_compute. exact I.
  - vm_compute. reflexivity.
  - discriminate.
  - discriminate.
  - discriminate.
Defined.

(** C4 as stated fails in two ways.  A failing step that wrote into the
    context dictionary before raising leaves its key there for step 3 (the
    engine hands every step the same dictionary and never restores it);
    and with a repeated step name fewer than three outcomes are recorded. *)
Lemma C4_counterexample_leak_and_repeated_name :
  (EngineSamples.returns 0 EngineSamples.leaking true ∧
   EngineSamples.raises_at 1 EngineSamples.leaking true ∧
   EngineSamples.returns 2 EngineSamples.leaking true ∧
   EngineSamples.context 1 EngineSamples.leaking true !! "partial" = None ∧
   EngineSamples.context 2 EngineSamples.leaking true !! "partial" = Some 7) ∧
  (EngineSamples.returns 0 EngineSamples.repeated_name true ∧
   EngineSamples.raises_at 1 EngineSamples.repeated_name true ∧
   EngineSamples.returns 2 EngineSamples.repeated_name true ∧
   outcomes_recorded (EngineSamples.run EngineSamples.repeated_name true).1.1
     = Some 2 ∧
   outcomes_recorded (EngineSamples.run EngineSamples.repeated_name true).1.1
     ≠ Some 3).
Proof.
  split.
  - split; [vm_compute; exact I |].
    split; [vm_compute; exact I |].
    split; [vm_compute; exact I |].
    split; vm_compute; reflexivity.
  - split; [vm_compute; exact I |].
    split; [vm_compute; exact I |].
    split; [vm_compute; exact I |].
    split; [vm_compute; reflexivity | vm_compute; discriminate].
Qed.

(** ** Patient discovery *)

Section Discovery.
Import Batch DiscoverySpec.

Lemma discover_entry_eq base e (acc : list patient * list log_record) :
  discover_entry base e acc =
  (acc.1 ++ option_list (patient_of base e), acc.2 ++ log_of e).
Proof.
  unfold discover_entry, patient_of, log_of. destruct acc as [ps l].
  destruct (is_dir e); cbn; [| by rewrite !app_nil_r].
  destruct (hidden e); cbn; [by rewrite !app_nil_r |].
  destruct (required_files e) as [[t a] |]; cbn; [done |].
  by rewrite app_nil_r.
Qed.

Lemma discover_from base entries (acc : list patient * list log_record) :
  foldl (λ acc e, discover_entry base e acc) acc entries =
  (acc.1 ++ omap (patient_of base) entries, acc.2 ++ concat (log_of <$> entries)).
Proof.
  revert acc. induction entries as [| e entries IH]; intros acc; cbn [foldl].
  - cbn. rewrite !app_nil_r. by destruct acc.
  - rewrite IH, discover_entry_eq. cbn [fst snd fmap list_fmap concat omap list_omap].
    f_equal.
    + rewrite <- app_assoc. f_equal. by destruct (patient_of base e).
    + by rewrite <- app_assoc.
Qed.

(** Discovery is a filter-map over the directory listing, in its order. *)
Lemma discover_eq base entries :
  discover base entries =
  (omap (patient_of base) entries, concat (log_of <$> entries)).
Proof. unfold discover. by rewrite discover_from. Qed.

Lemma patient_of_id base e p : patient_of base e = Some p → patient_id p = entry_name e.
Proof.
  unfold patient_of. destruct (is_dir e && negb (hidden e)); [| done].
  destruct (required_files e) as [[t a] |]; [| done]. by intros [= <-].
Qed.

Lemma occurrences_absent base pid entries :
  pid ∉ entry_name <$> entries →
  occurrences pid (omap (patient_of base) entries) = 0.
Proof.
  unfold occurrences. induction entries as [| e entries IH]; intros Hni; [done |].
  cbn [omap list_omap]. rewrite fmap_cons, not_elem_of_cons in Hni.
  destruct Hni as [Hne Hni].
  destruct (patient_of base e) as [p |] eqn:Hp; [| by apply IH].
  cbn [List.filter]. apply patient_of_id in Hp.
  destruct (String.eqb_spec (patient_id p) pid) as [Heq | _]; [congruence |].
  by apply IH.
Qed.

(** With distinct names in the listing, an entry is listed once if it
    yields a work item and not at all otherwise. *)
Lemma occurrences_entry base entries e :
  NoDup (entry_name <$> entries) → e ∈ entries →
  occurrences (entry_name e) (omap (patient_of base) entries) =
  match patient_of base e with Some _ => 1 | None => 0 end.
Proof.
  induction entries as [| e' entries IH]; intros Hnd Hin.
  { by apply elem_of_nil in Hin. }
  rewrite fmap_cons in Hnd. apply NoDup_cons in Hnd as [Hni Hnd].
  cbn [omap list_omap].
  apply elem_of_cons in Hin as [-> | Hin].
  - destruct (patient_of base e') as [p |] eqn:Hp.
    + unfold occurrences. cbn [List.filter]. apply patient_of_id in Hp.
      rewrite Hp, String.eqb_refl. cbn [length].
      fold (occurrences (entry_name e') (omap (patient_of base) entries)).
      by rewrite occurrences_absent.
    + by apply occurrences_absent.
  - assert (Hne : entry_name e' ≠ entry_name e).
    { intros Heq. apply Hni. rewrite Heq. by apply list_elem_of_fmap_2. }
    destruct (patient_of base e') as [p |] eqn:Hp; [| by apply IH].
    unfold occurrences. cbn [List.filter]. apply patient_of_id in Hp.
    destruct (String.eqb_spec (patient_id p) (entry_name e)) as [Heq | _];
      [congruence |].
    by apply IH.
Qed.

(** The pattern loop finds a pair exactly when some pattern pair has a
    candidate for both files. *)
Lemma first_match_some pats e :
  is_Some (first_match pats e) ↔
  ∃ pat, pat ∈ pats ∧ glob pat.1 e ≠ [] ∧ glob pat.2 e ≠ [].
Proof.
  induction pats as [| [tp ap] pats IH]; cbn [first_match].
  - split; [by intros [? ?] | intros (pat & Hin & _)]. by apply elem_of_nil in Hin.
  - destruct (glob tp e) as [| t ts] eqn:Ht.
    + rewrite IH. split; intros (pat & Hin & H1 & H2).
      * exists pat. split; [by right | done].
      * apply elem_of_cons in Hin as [-> | Hin]; [cbn in H1; congruence |].
        by exists pat.
    + destruct (glob ap e) as [| a ats] eqn:Ha.
      * rewrite IH. split; intros (pat & Hin & H1 & H2).
        -- exists pat. split; [by right | done].
        -- apply elem_of_cons in Hin as [-> | Hin]; [cbn in H2; congruence |].
           by exists pat.
      * split; [intros _ | by eexists].
        exists (tp, ap). split; [by left |]. cbn. by rewrite Ht, Ha.
Qed.

(** First match wins: the pair found is the head candidates of the first
    pattern pair that has candidates for both files. *)
Lemma first_match_priority pats e t a :
  first_match pats e = Some (t, a) ↔
  ∃ before pat after,
    pats = before ++ pat :: after ∧
    (∀ q, q ∈ before → glob q.1 e = [] ∨ glob q.2 e = []) ∧
    head (glob pat.1 e) = Some t ∧ head (glob pat.2 e) = Some a.
Proof.
  revert t a. induction pats as [| [tp ap] pats IH]; intros t a; cbn [first_match].
  - split; [done | intros (before & pat & after & Heq & _)].
    by destruct before.
  - destruct (glob tp e) as [| t0 ts] eqn:Ht;
      [| destruct (glob ap e) as [| a0 ats] eqn:Ha].
    + rewrite IH. split.
      * intros (before & pat & after & -> & Hb & H1 & H2).
        exists ((tp, ap) :: before), pat, after. split; [done |].
        split; [| done]. intros q [-> | Hq]%elem_of_cons; [by left | by apply Hb].
      * intros (before & pat & after & Heq & Hb & H1 & H2).
        destruct before as [| q before]; simplify_eq/=.
        { rewrite Ht in H1. done. }
        exists before, pat, after. split; [done |]. split; [| done].
        intros q Hq. apply Hb. by right.
    + rewrite IH. split.
      * intros (before & pat & after & -> & Hb & H1 & H2).
        exists ((tp, ap) :: before), pat, after. split; [done |].
        split; [| done]. intros q [-> | Hq]%elem_of_cons; [by right | by apply Hb].
      * intros (before & pat & after & Heq & Hb & H1 & H2).
        destruct before as [| q before]; simplify_eq/=.
        { rewrite Ha in H2. done. }
        exists before, pat, after. split; [done |]. split; [| done].
        intros q Hq. apply Hb. by right.
    + split.
      * intros [= <- <-]. exists [], (tp, ap), pats. cbn. rewrite Ht, Ha.
        split; [done |]. split; [| done]. intros q Hq. by apply elem_of_nil in Hq.
      * intros (before & pat & after & Heq & Hb & H1 & H2).
        destruct before as [| q before]; simplify_eq/=.
        { rewrite Ht in H1. rewrite Ha in H2. by simplify_eq/=. }
        destruct (Hb (tp, ap)) as [Hb' | Hb']; [by left | |]; cbn in Hb'; congruence.
Qed.

Lemma required_files_some e : is_Some (required_files e) ↔ has_both e.
Proof.
  unfold required_files, has_both.
  destruct (first_match patterns e) as [ta |] eqn:Hfm.
  - split; [intros _ | by eexists]. left. apply first_match_some. by rewrite Hfm.
  - assert (Hno : ¬ ∃ pat, pat ∈ patterns ∧ glob pat.1 e ≠ [] ∧ glob pat.2 e ≠ []).
    { rewrite <- first_match_some, Hfm. by intros [? ?]. }
    destruct (file_exists _ e) eqn:Ht; cbn.
    + destruct (file_exists (entry_name e +:+ "_adc.nii.gz") e) eqn:Ha.
      * split; [intros _; by right | by eexists].
      * split; [by intros [? ?] | intros [? | [_ ?]]; done].
    + split; [by intros [? ?] | intros [? | [? _]]; done].
Qed.

Lemma patient_of_some base e :
  is_Some (patient_of base e) ↔
  is_dir e = true ∧ hidden e = false ∧ has_both e.
Proof.
  rewrite <- required_files_some. unfold patient_of.
  destruct (is_dir e), (hidden e); cbn;
    try (split; [by intros [? ?] | by intros (? & ? & ?)]).
  destruct (required_files e) as [[t a] |].
  - split; [intros _; by eauto | by eexists].
  - split; [by intros [? ?] | by intros (_ & _ & [? ?])].
Qed.

Lemma missing_file_not_both e : no_t2w e ∨ no_adc e → ¬ has_both e.
Proof.
  intros [[Hp Hx] | [Hp Hx]] [(pat & Hin & H1 & H2) | [H1 H2]].
  - by apply H1, Hp.
  - congruence.
  - by apply H2, Hp.
  - congruence.
Qed.


End Discovery.


(** ** Training of the shared standardizer *)

Lemma omap_length_le {A B} (f : A → option B) (l : list A) :
  length (omap f l) ≤ length l.
Proof.
  induction l as [| x l IH]; [done |]. cbn. destruct (f x); cbn; lia.
Qed.

Section SharedTraining.
Import Batch BatchSpec.
Context {F : Type} `{NumpyLaws F}.
Variable ReadImage : string → result (Image F).

Lemma load_training_eq (ps : list patient) :
  load_training ReadImage ps =
  (omap (read_ok ReadImage) ps, omap (load_warning ReadImage) ps).
Proof.
  induction ps as [| p ps IH]; [done |].
  cbn [load_training omap list_omap]. rewrite IH.
  unfold read_ok, load_warning. by destruct (ReadImage (t2w_path p)).
Qed.

(** Training the default Nyul standardizer returns as soon as there is a
    training image and numpy's percentile is defined on each of them. *)
Lemma nyul_train_new_ok (images : list (Image F)) :
  images ≠ [] →
  (∀ img, img ∈ images →
     is_ok (np_percentile (non_zero (voxels img)) Nyul.default_percentage) = true) →
  (Nyul.train Nyul.new images).2 = Ok tt.
Proof.
  intros Hne Hok.
  destruct (nyul_train_closed_form Nyul.new images 10 Hne eq_refl Hok)
    as (m & _ & ->). reflexivity.
Qed.


End SharedTraining.


(** ** Per-patient isolation in the batch step *)

Lemma oset_fresh {A} (k : string) (v : A) (d : list (string * A)) :
  k ∉ d.*1 → oset k v d = d ++ [(k, v)].
Proof.
  induction d as [| [k' v'] d IH]; intros Hni; [done |].
  rewrite fmap_cons, not_elem_of_cons in Hni. destruct Hni as [Hne Hni].
  cbn [oset]. destruct (String.eqb_spec k k') as [-> | _]; [done |].
  cbn. by rewrite IH.
Qed.

Lemma NoDup_fmap_eq {A B} (f : A → B) (l : list A) (x y : A) :
  NoDup (f <$> l) → x ∈ l → y ∈ l → f x = f y → x = y.
Proof.
  induction l as [| z l IH]; intros Hnd Hx Hy Heq.
  { by apply elem_of_nil in Hx. }
  rewrite fmap_cons in Hnd. apply NoDup_cons in Hnd as [Hni Hnd].
  apply elem_of_cons in Hx as [-> | Hx]; apply elem_of_cons in Hy as [-> | Hy].
  - done.
  - exfalso. apply Hni. rewrite Heq. by apply list_elem_of_fmap_2.
  - exfalso. apply Hni. rewrite <- Heq. by apply list_elem_of_fmap_2.
  - by apply IH.
Qed.

Lemma entries_for_fmap {A B} (key : A → string) (g : A → B) (k : string) (l : list A) :
  BatchSpec.entries_for k ((λ x, (key x, g x)) <$> l) =
  length (List.filter (λ x, String.eqb (key x) k) l).
Proof.
  unfold BatchSpec.entries_for. induction l as [| x l IH]; [done |].
  rewrite fmap_cons. cbn [List.filter fst].
  destruct (String.eqb (key x) k); cbn [length]; by rewrite IH.
Qed.

Lemma count_key_once {A} (key : A → string) (l : list A) (x : A) :
  NoDup (key <$> l) → x ∈ l →
  length (List.filter (λ y, String.eqb (key y) (key x)) l) = 1.
Proof.
  induction l as [| z l IH]; intros Hnd Hx.
  { by apply elem_of_nil in Hx. }
  assert (Hnd' := Hnd). rewrite fmap_cons in Hnd'.
  apply NoDup_cons in Hnd' as [Hni Hnd'].
  cbn [List.filter].
  destruct (String.eqb_spec (key z) (key x)) as [Heq | Hne].
  - cbn [length]. f_equal. apply length_zero_iff_nil.
    destruct (List.filter _ l) as [| y ys] eqn:Hf; [done |].
    assert (Hy : In y (List.filter (λ y, String.eqb (key y) (key x)) l))
      by (rewrite Hf; by left).
    apply filter_In in Hy as [Hy Hk]. apply String.eqb_eq in Hk.
    exfalso. apply Hni. rewrite Heq, <- Hk.
    by apply list_elem_of_fmap_2, list_elem_of_In.
  - apply IH; [done |]. apply elem_of_cons in Hx as [-> | Hx]; [done | exact Hx].
Qed.

Lemma oget_fmap_once {A B} (key : A → string) (g : A → B) (l : list A) (x : A) :
  NoDup (key <$> l) → x ∈ l →
  oget (key x) ((λ y, (key y, g y)) <$> l) = Some (g x).
Proof.
  induction l as [| z l IH]; intros Hnd Hx.
  { by apply elem_of_nil in Hx. }
  rewrite fmap_cons. cbn [oget].
  destruct (String.eqb_spec (key x) (key z)) as [Heq | Hne].
  - f_equal. f_equal. symmetry.
    apply (NoDup_fmap_eq key (z :: l) x z); [done | done | by left | done].
  - rewrite fmap_cons in Hnd. apply NoDup_cons in Hnd as [_ Hnd].
    apply IH; [done |]. apply elem_of_cons in Hx as [-> | Hx]; [done | exact Hx].
Qed.

Section Isolation.
Import Batch BatchSpec.
Context {F : Type} `{Numeric F}.
Variable mkdir : string → result unit.
Variable patient_run :
  patient → option (Nyul.NyulStandardizer F) → result (list string * Z).
Variable as_completed : list patient → list patient.

Abbreviation outcome := (outcome_of mkdir patient_run).
Abbreviation single := (process_single_patient mkdir patient_run).

(** A patient's outcome is a success exactly when its own processing
    went through. *)
Lemma outcome_success output_dir std p :
  success (outcome output_dir std p) = processed_ok mkdir patient_run output_dir std p.
Proof.
  unfold outcome_of, processed_ok, process_single_patient.
  destruct (mkdir _) as [[] | e]; cbn; [| done].
  by destruct (patient_run p std) as [[saved t] | e].
Qed.

Lemma record_outcome_eq output_dir std p acc :
  record_outcome p (single output_dir std p) acc =
  {| successful := successful acc ++
       (if success (outcome output_dir std p) then [patient_id p] else []);
     failed := failed acc ++
       (if success (outcome output_dir std p) then [] else [patient_id p]);
     detailed_results :=
       oset (patient_id p) (outcome output_dir std p) (detailed_results acc) |}.
Proof.
  unfold record_outcome, outcome_of.
  destruct (single output_dir std p) as [res | e]; cbn.
  - destruct (success res); by rewrite !app_nil_r.
  - by rewrite app_nil_r.
Qed.

(** The loop over the patients, in closed form, when their identifiers
    are distinct and not yet recorded. *)
Lemma process_from output_dir std (order : list patient) (acc : batch_results) :
  NoDup (patient_id <$> order) →
  (∀ p, p ∈ order → patient_id p ∉ (detailed_results acc).*1) →
  foldl (λ acc p, record_outcome p (single output_dir std p) acc) acc order =
  {| successful := successful acc ++
       (patient_id <$> List.filter (λ p, success (outcome output_dir std p)) order);
     failed := failed acc ++
       (patient_id <$>
          List.filter (λ p, negb (success (outcome output_dir std p))) order);
     detailed_results := detailed_results acc ++
       ((λ p, (patient_id p, outcome output_dir std p)) <$> order) |}.
Proof.
  revert acc. induction order as [| p order IH]; intros acc Hnd Hfresh.
  { cbn. rewrite !app_nil_r. by destruct acc. }
  rewrite fmap_cons in Hnd. apply NoDup_cons in Hnd as [Hni Hnd].
  cbn [foldl]. rewrite record_outcome_eq, IH; [| done |].
  - cbn [successful failed detailed_results List.filter].
    rewrite oset_fresh by (apply Hfresh; by left).
    rewrite !fmap_cons, <- !app_assoc. cbn [app].
    destruct (success (outcome output_dir std p)); cbn [negb app fmap list_fmap]; done.
  - intros q Hq. cbn [detailed_results].
    rewrite oset_fresh by (apply Hfresh; by left).
    rewrite fmap_app, not_elem_of_app. split; [apply Hfresh; by right |].
    cbn. rewrite list_elem_of_singleton. intros Heq. apply Hni.
    rewrite <- Heq. by apply list_elem_of_fmap_2.
Qed.

Lemma process_all_eq output_dir std (order : list patient) :
  NoDup (patient_id <$> order) →
  process_all mkdir patient_run output_dir std order =
  {| successful :=
       patient_id <$> List.filter (λ p, success (outcome output_dir std p)) order;
     failed :=
       patient_id <$>
         List.filter (λ p, negb (success (outcome output_dir std p))) order;
     detailed_results := (λ p, (patient_id p, outcome output_dir std p)) <$> order |}.
Proof.
  intros Hnd. unfold process_all. rewrite process_from; [done | done |].
  intros p _. cbn. apply not_elem_of_nil.
Qed.

(** The outcomes recorded when the patients are handled in any order
    that is a rearrangement of the list. *)
Lemma process_all_outcomes output_dir std (order patients : list patient) :
  order ≡ₚ patients →
  NoDup (patient_id <$> patients) →
  let b := process_all mkdir patient_run output_dir std order in
  length (detailed_results b) = length patients ∧
  ∀ p, p ∈ patients →
    entries_for (patient_id p) (detailed_results b) = 1 ∧
    oget (patient_id p) (detailed_results b) = Some (outcome output_dir std p) ∧
    (patient_id p ∈ successful b ↔
       processed_ok mkdir patient_run output_dir std p = true) ∧
    (patient_id p ∈ failed b ↔
       processed_ok mkdir patient_run output_dir std p = false).
Proof.
  intros Hperm Hnd b.
  assert (Hnd' : NoDup (patient_id <$> order)) by by rewrite Hperm.
  unfold b. rewrite process_all_eq by done. cbn [detailed_results successful failed].
  split; [by rewrite length_fmap, Hperm |].
  intros p Hp. assert (Hp' : p ∈ order) by by rewrite Hperm.
  split.
  { rewrite (entries_for_fmap patient_id (outcome output_dir std)).
    by apply count_key_once. }
  split.
  { by apply (oget_fmap_once patient_id (outcome output_dir std)). }
  rewrite <- outcome_success.
  split; split.
  - intros (q & Hid & Hq)%list_elem_of_fmap.
    apply list_elem_of_In, filter_In in Hq as [Hq Hs]. apply list_elem_of_In in Hq.
    by rewrite (NoDup_fmap_eq patient_id order p q Hnd' Hp' Hq Hid).
  - intros Hs. apply list_elem_of_fmap. exists p. split; [done |].
    apply list_elem_of_In, filter_In. split; [by apply list_elem_of_In | done].
  - intros (q & Hid & Hq)%list_elem_of_fmap.
    apply list_elem_of_In, filter_In in Hq as [Hq Hs]. apply list_elem_of_In in Hq.
    rewrite (NoDup_fmap_eq patient_id order p q Hnd' Hp' Hq Hid).
    by apply negb_true_iff.
  - intros Hs. apply list_elem_of_fmap. exists p. split; [done |].
    apply list_elem_of_In, filter_In. split; [by apply list_elem_of_In |].
    by rewrite Hs.
Qed.


End Isolation.

(** The work list produced by discovery has distinct identifiers when the
    directory listing has distinct names. *)
Lemma discover_NoDup base (entries : list Batch.dir_entry) :
  NoDup (Batch.entry_name <$> entries) →
  NoDup (Batch.patient_id <$> (Batch.discover base entries).1).
Proof.
  rewrite discover_eq. cbn [fst].
  induction entries as [| e entries IH]; intros Hnd; [constructor |].
  rewrite fmap_cons in Hnd. apply NoDup_cons in Hnd as [Hni Hnd].
  cbn [omap list_omap].
  destruct (DiscoverySpec.patient_of base e) as [p |] eqn:Hp; [| by apply IH].
  rewrite fmap_cons. apply NoDup_cons. split; [| by apply IH].
  rewrite (patient_of_id _ _ _ Hp).
  intros (q & Hid & Hq)%list_elem_of_fmap.
  apply list_elem_of_omap in Hq as (e' & He' & Hq).
  apply Hni. rewrite Hid, (patient_of_id _ _ _ Hq). by apply list_elem_of_fmap_2.
Qed.


(** ** Reports *)

Section Reporting.
Import Batch.
Context {F : Type} `{Numeric F}.
Variable clock : nat → Z.
Variable mkdir : string → result unit.

(** The reporting step reports on what it finds under the key
    "BatchProcessingStep" (nothing, when the key is absent): it writes the
    counts of that result, one CSV row per detailed result and, when that
    result lists a failed patient, an error log with one entry per failed
    patient. *)
Lemma reporting_of_results (d : gmap string (value F)) (w : World F)
    (b : batch_results) (output_dir : string) (total : nat) :
  d !! "output_directory" = Some (VStr output_dir) →
  reported_results d = Ok b →
  d !! "total_patients" = Some (VNat total) →
  mkdir (joinpath output_dir "reports") = Ok tt →
  let reports := report_files (reporting_execute clock mkdir d w).1 in
  let dir := joinpath output_dir "reports" in
  is_ok (reporting_execute clock mkdir d w).2 = true ∧
  (∃ s, reports !! joinpath dir "batch_summary.json" = Some (SummaryFile s) ∧
        s_total_patients s = total ∧
        s_successful s = length (successful b) ∧
        s_failed s = length (failed b) ∧
        s_success_rate s = success_rate (length (successful b)) total) ∧
  (∃ rows, reports !! joinpath dir "batch_results.csv" = Some (CsvFile rows) ∧
           PatientID <$> rows = (detailed_results b).*1) ∧
  (failed b ≠ [] →
   ∃ t entries, reports !! joinpath dir "error_log.txt" = Some (ErrorLogFile t entries) ∧
                log_patient <$> entries = failed b).
Proof.
  intros Ho Hb Ht Hm reports dir. unfold reports, dir, reporting_execute,
    total_patients, Batch.time_time.
  rewrite Ho, Hb, Hm, Ht. cbn [readings param_files report_files log fst snd].
  assert (Hne1 : joinpath (joinpath output_dir "reports") "batch_results.csv"
                 ≠ joinpath (joinpath output_dir "reports") "batch_summary.json").
  { unfold joinpath. intros Heq. apply (inj (String.app _)) in Heq. discriminate. }
  assert (Hne2 : joinpath (joinpath output_dir "reports") "error_log.txt"
                 ≠ joinpath (joinpath output_dir "reports") "batch_summary.json").
  { unfold joinpath. intros Heq. apply (inj (String.app _)) in Heq. discriminate. }
  assert (Hne3 : joinpath (joinpath output_dir "reports") "error_log.txt"
                 ≠ joinpath (joinpath output_dir "reports") "batch_results.csv").
  { unfold joinpath. intros Heq. apply (inj (String.app _)) in Heq. discriminate. }
  destruct (failed b) as [| f fs] eqn:Hf; unfold write_report;
    cbn [readings param_files report_files log fst snd].
  - split; [done |]. split; [| split; [| done]].
    + eexists. rewrite lookup_insert_ne, lookup_insert_eq by done.
      split; [reflexivity |]. cbn. by rewrite Hf.
    + eexists. rewrite lookup_insert_eq. split; [reflexivity |].
      unfold csv_rows. rewrite <- list_fmap_compose. done.
  - split; [done |]. split; [| split].
    + eexists. rewrite lookup_insert_ne, lookup_insert_ne, lookup_insert_eq by done.
      split; [reflexivity |]. cbn. by rewrite Hf.
    + eexists. rewrite lookup_insert_ne, lookup_insert_eq by done.
      split; [reflexivity |]. unfold csv_rows. rewrite <- list_fmap_compose. done.
    + intros _. eexists _, _. rewrite lookup_insert_eq. split; [reflexivity |].
      unfold error_log. rewrite Hf, <- list_fmap_compose. cbn. f_equal.
      by rewrite list_fmap_id.
Qed.

End Reporting.

(** ** The context of the batch pipeline *)

Section BatchContext.
Import Batch.
Context {F : Type} `{Numeric F}.
Variable clock : nat → Z.
Variable iterdir : string → result (list dir_entry).
Variable ReadImage : string → result (Image F).
Variable mkdir : string → result unit.
Variable patient_run :
  patient → option (Nyul.NyulStandardizer F) → result (list string * Z).
Variable as_completed : list patient → list patient.

Lemma step_never_sets (k n : string)
    (exec : gmap string (value F) → World F → World F * result (gmap string (value F))) :
  (∀ d w r, (exec d w).2 = Ok r → r !! k = None) →
  never_sets k (step n exec).
Proof.
  intros Hexec d w Hk. unfold Engine.attempt, step. cbn.
  specialize (Hexec d w). destruct (exec d w) as [w' r]. cbn in *.
  split; [exact Hk |]. intros r0 ->. by apply Hexec.
Qed.

Lemma discovery_key (d : gmap string (value F)) (w : World F) r :
  (discovery_execute iterdir d w).2 = Ok r → r !! "BatchProcessingStep" = None.
Proof.
  unfold discovery_execute.
  destruct (d !! "base_directory") as [[] |]; try done.
  destruct (iterdir _) as [entries | e]; [| done].
  destruct (discover _ entries) as [ps l]. cbn. by intros [= <-].
Qed.

Lemma standardization_key method (d : gmap string (value F)) (w : World F) r :
  (standardization_execute ReadImage method d w).2 = Ok r →
  r !! "BatchProcessingStep" = None.
Proof.
  unfold standardization_execute.
  destruct (d !! "patients") as [[] |]; try done.
  destruct (String.eqb method "nyul"); [| by intros [= <-]].
  destruct (load_training _ _) as [imgs lg].
  destruct (Nyul.train _ _) as [st [[] | e]]; [| done].
  destruct (d !! "output_directory") as [[] |]; try done. by intros [= <-].
Qed.

Lemma processing_key parallel (d : gmap string (value F)) (w : World F) r :
  (processing_execute mkdir patient_run as_completed parallel d w).2 = Ok r →
  r !! "BatchProcessingStep" = None.
Proof.
  unfold processing_execute.
  destruct (d !! "patients") as [[] |]; try done.
  destruct (d !! "output_directory") as [[] |]; try done. by intros [= <-].
Qed.

(** Whatever the directory, the images and the patients' runs are, the
    context that reaches the reporting step holds no key
    "BatchProcessingStep" unless the caller put one in the input: the
    reporting step then reports on an empty result. *)
Lemma report_reads_no_results method parallel
    (input : gmap string (value F)) (w : World F) :
  input !! "BatchProcessingStep" = None →
  reported_results
    (context_passed_to (Batch.time_time clock) 3
       (BatchPreprocessingPipeline clock iterdir ReadImage mkdir patient_run
          as_completed method parallel) input false w)
  = Ok no_results.
Proof.
  intros Hk. unfold reported_results, context_passed_to, reached.
  rewrite run_steps_key_absent; [done | | exact Hk].
  intros st Hst. cbn in Hst.
  apply elem_of_cons in Hst as [-> | Hst];
    [apply step_never_sets, discovery_key |].
  apply elem_of_cons in Hst as [-> | Hst];
    [apply step_never_sets, standardization_key |].
  apply elem_of_cons in Hst as [-> | Hst];
    [apply step_never_sets, processing_key |].
  by apply elem_of_nil in Hst.
Qed.

End BatchContext.

(** C2 (refuted as a property of the code).  In a run of the batch
    pipeline over two patients, one processed successfully and one
    failed, the processing step returns these outcomes, but the reporting
    step reads them under the key "BatchProcessingStep", which the engine
    never puts in the context (it merges the returned keys themselves).
    The summary written reports 0 successful, 0 failed and a success rate
    of 0 for 2 patients; the CSV has no row; no error log is written. *)
Theorem C2_report_misses_batch_outcome :
  is_ok BatchRun.run.2 = true ∧
  (BatchRun.processing_result ≫= (λ r, r !! "successful"))
    = Some (Batch.VIds ["p1"]) ∧
  (BatchRun.processing_result ≫= (λ r, r !! "failed"))
    = Some (Batch.VIds ["p3"]) ∧
  (∃ s, BatchRun.written "out/reports/batch_summary.json" = Some (Batch.SummaryFile s) ∧
        Batch.s_total_patients s = 2 ∧
        Batch.s_successful s = 0 ∧
        Batch.s_failed s = 0 ∧
        Batch.s_success_rate s = 0%Q) ∧
  BatchRun.written "out/reports/batch_results.csv" = Some (Batch.CsvFile []) ∧
  BatchRun.written "out/reports/error_log.txt" = None.
Proof.
  split; [vm_compute; reflexivity |].
  split; [vm_compute; reflexivity |].
  split; [vm_compute; reflexivity |].
  split.
  { eexists. split; [vm_compute; reflexivity |]. cbn. done. }
  split; vm_compute; reflexivity.
Qed.

(** ** Z-score standardization *)

Section ZScoreFacts.
Context {F : Type} `{Numeric F}.

(** A masked assignment into a fresh array of zeros. *)
Lemma assign_where_zeros (mask : F → bool) (f : F → F) (src : list F) :
  assign_where mask f src (zeros_like src) =
  List.map (λ x, if mask x then f x else f0) src.
Proof. induction src as [| x src IH]; [done |]. cbn. by rewrite <- IH. Qed.

(** Untrained, [transform] takes its statistics from the image itself
    and does not raise. *)
Lemma zscore_transform_untrained (robust : bool) (img : Image F) :
  ZScore.transform (ZScore.init robust) img =
  Ok (mkImage (pixel img)
        (List.map (zscore_voxel (pixel img)
                     (ZScore.center robust (non_zero (voxels img)))
                     (ZScore.scale robust (non_zero (voxels img))))
                  (voxels img))).
Proof.
  unfold ZScore.transform, ZScore.standardize. cbn.
  by rewrite assign_where_zeros.
Qed.

(** After [train], [transform] uses the statistics of the pooled
    training voxels. *)
Lemma zscore_transform_trained (self : ZScore.ZScoreStandardizer F)
    (images : list (Image F)) (img : Image F) :
  ZScore.transform (ZScore.train self images) img =
  Ok (mkImage (pixel img)
        (List.map (zscore_voxel (pixel img)
                     (ZScore.center (ZScore.use_robust_statistics self)
                        (ZScore.pooled images))
                     (ZScore.scale (ZScore.use_robust_statistics self)
                        (ZScore.pooled images)))
                  (voxels img))).
Proof.
  unfold ZScore.transform, ZScore.standardize, ZScore.train. cbn.
  by rewrite assign_where_zeros.
Qed.

End ZScoreFacts.

(** C7 (refuted as a property of the code).  [transform] computes
    [(value - center) / (scale + 1e-8)] for the voxels above 0, with the
    stored statistics after [train] and the statistics of the image
    itself before, and never raises; but it writes the quotient into
    [np.zeros_like(img_array)], an array of the element type of the
    input.  For an image with floating-point voxels the output is the
    quotient; for an image with integer voxels it is the quotient
    truncated: on the 16-bit sample image the output is [-1; 0; 0; 1; 0]
    where the quotients are about [-1.01; -0.34; 0.34; 1.01]. *)
Theorem C7_zscore_output_is_stored_in_input_type :
  (∀ (F : Type) (N : Numeric F) (robust : bool) (img : Image F),
     ZScore.transform (ZScore.init robust) img =
     Ok (mkImage (pixel img)
           (List.map (zscore_voxel (pixel img)
                        (ZScore.center robust (non_zero (voxels img)))
                        (ZScore.scale robust (non_zero (voxels img))))
                     (voxels img)))) ∧
  (∀ (F : Type) (N : Numeric F) (self : ZScore.ZScoreStandardizer F) images img,
     ZScore.transform (ZScore.train self images) img =
     Ok (mkImage (pixel img)
           (List.map (zscore_voxel (pixel img)
                        (ZScore.center (ZScore.use_robust_statistics self)
                           (ZScore.pooled images))
                        (ZScore.scale (ZScore.use_robust_statistics self)
                           (ZScore.pooled images)))
                     (voxels img)))) ∧
  ZScore.transform ZScore.new Samples.float_image =
    Ok (mkImage PixelFloat
          [-150000000 # 148260001; -50000000 # 148260001;
           50000000 # 148260001; 150000000 # 148260001; 0]%Q) ∧
  ZScore.transform ZScore.new Samples.int_image =
    Ok (mkImage PixelInt [-1; 0; 0; 1; 0]%Q).
Proof.
  split; [intros; apply zscore_transform_untrained |].
  split; [intros; apply zscore_transform_trained |].
  split; vm_compute; reflexivity.
Qed.

(** ** The Nyul mapping *)

Section NyulTransform.
Context {F : Type} `{NumpyLaws F}.

(** A masked assignment into an array computed voxel-wise from the
    source. *)
Lemma assign_where_map (mask : F → bool) (f g : F → F) (src : list F) :
  assign_where mask f src (List.map g src) =
  List.map (λ x, if mask x then f x else g x) src.
Proof. induction src as [| x src IH]; [done |]. cbn. by rewrite <- IH. Qed.

Lemma getitem_lookup (a : list F) (i : nat) (x : F) :
  a !! i = Some x → getitem a i = Ok x.
Proof. unfold getitem. by intros ->. Qed.

Lemma getlast_last (a : list F) : a ≠ [] → getlast a = Ok (List.last a f0).
Proof.
  intros Hne. unfold getlast.
  destruct a as [| x a] using rev_ind; [done |].
  by rewrite rev_unit, last_last.
Qed.

(** One iteration writes, for each voxel, the value of its bucket if the
    voxel lies in it, and nothing otherwise. *)
Lemma transform_step_map (self : Nyul.NyulStandardizer F) p (s src lm : list F)
    (i : nat) (g : F → F) :
  Nyul.standard_landmarks self = Some s →
  i + 1 < length lm → i + 1 < length s →
  Nyul.transform_step self p src lm i (List.map g src) =
  Ok (List.map (λ x, default (g x) (bucket_value p lm s i x)) src).
Proof.
  intros Hs Hl Hsl. unfold Nyul.transform_step, bucket_value, linear_map.
  destruct (lookup_lt_is_Some_2 lm i) as [lower Hlower]; [lia |].
  destruct (lookup_lt_is_Some_2 lm (i + 1)) as [upper Hupper]; [lia |].
  destruct (lookup_lt_is_Some_2 s i) as [s0 Hs0]; [lia |].
  destruct (lookup_lt_is_Some_2 s (i + 1)) as [s1 Hs1]; [lia |].
  rewrite (getitem_lookup _ _ _ Hlower), (getitem_lookup _ _ _ Hupper). cbn.
  rewrite Hs. cbn. rewrite Hlower, Hupper, Hs0, Hs1.
  destruct (fltb lower upper); cbn.
  - rewrite (getitem_lookup _ _ _ Hs1), (getitem_lookup _ _ _ Hs0). cbn.
    rewrite assign_where_map. f_equal. apply map_ext. intros x.
    by destruct (fleb lower x && fltb x upper).
  - reflexivity.
Qed.

Lemma transform_loop_map (self : Nyul.NyulStandardizer F) p (s src lm : list F)
    (idxs : list nat) (g : F → F) :
  Nyul.standard_landmarks self = Some s →
  (∀ i, i ∈ idxs → i + 1 < length lm ∧ i + 1 < length s) →
  Nyul.transform_loop self p src lm idxs (List.map g src) =
  Ok (List.map (λ x, loop_value p lm s idxs (g x) x) src).
Proof.
  intros Hs. revert g. induction idxs as [| i idxs IH]; intros g Hidx.
  - reflexivity.
  - cbn [Nyul.transform_loop].
    destruct (Hidx i) as [Hl Hsl]; [by left |].
    rewrite (transform_step_map self p s src lm i g Hs Hl Hsl). cbn.
    rewrite IH; [done |]. intros j Hj. apply Hidx. by right.
Qed.

(** [transform], voxel by voxel: for a standardizer holding standard
    landmarks [s], on an image whose own landmarks are [lm], every output
    voxel is [nyul_voxel] of the input voxel. *)
Lemma nyul_transform_voxels (self : Nyul.NyulStandardizer F) (img : Image F)
    (s lm : list F) :
  Nyul.trained self = true →
  Nyul.standard_landmarks self = Some s →
  length s = length (Nyul.landmarks_percentage self) →
  Nyul.landmarks_percentage self ≠ [] →
  np_percentile (non_zero (voxels img)) (Nyul.landmarks_percentage self) = Ok lm →
  Nyul.transform self img =
  Ok (mkImage (pixel img) (List.map (nyul_voxel (pixel img) lm s) (voxels img))).
Proof.
  intros Ht Hs Hlen Hne Hlm. unfold Nyul.transform. rewrite Ht, Hlm. cbn.
  assert (Hll : length lm = length (Nyul.landmarks_percentage self))
    by by eapply np_percentile_length.
  unfold zeros_like.
  rewrite (transform_loop_map self (pixel img) s (voxels img) lm _ _ Hs).
  2:{ intros i Hi%list_elem_of_In%in_seq. lia. }
  cbn. rewrite Hs. cbn. rewrite getlast_last.
  2:{ intros ->. destruct (Nyul.landmarks_percentage self); done. }
  cbn. rewrite getlast_last.
  2:{ intros ->. destruct (Nyul.landmarks_percentage self); done. }
  cbn. rewrite !assign_where_map. do 2 f_equal. apply map_ext. intros x.
  unfold nyul_voxel. by rewrite Hll.
Qed.

Context `{!OrderLaws F}.

Lemma nondecreasing_chain (lm : list F) (j k : nat) (x y : F) :
  nondecreasing lm → j < k → lm !! j = Some x → lm !! k = Some y →
  fleb x y = true.
Proof.
  intros Hnd Hjk Hx. revert y. induction k as [| k IH]; intros y Hy; [lia |].
  destruct (decide (j = k)) as [-> | Hne].
  - apply (Hnd k); [done |]. by replace (k + 1) with (S k) by lia.
  - destruct (lookup_lt_is_Some_2 lm k) as [z Hz].
    { apply lookup_lt_Some in Hy. lia. }
    apply (fleb_trans x z y); [apply IH; [lia | done] |].
    apply (Hnd k); [done |]. by replace (k + 1) with (S k) by lia.
Qed.

(** A voxel below the landmark of index [k] is in no bucket from [k] on. *)
Lemma bucket_value_above p (lm s : list F) (k j : nat) (bound x : F) :
  nondecreasing lm → lm !! k = Some bound → fltb x bound = true → k ≤ j →
  bucket_value p lm s j x = None.
Proof.
  intros Hnd Hk Hx Hkj. unfold bucket_value.
  destruct (lm !! j) as [lower |] eqn:Hl; [| done].
  destruct (lm !! (j + 1)) as [upper |]; [| done].
  destruct (s !! j) as [s0 |]; [| done].
  destruct (s !! (j + 1)) as [s1 |]; [| done].
  assert (Hout : fleb lower x = false).
  { destruct (decide (k = j)) as [-> | Hne].
    - rewrite Hk in Hl. injection Hl as <-. by apply fltb_fleb_false.
    - destruct (fleb lower x) eqn:Hle; [| done].
      assert (Hbl : fleb bound lower = true).
      { apply (nondecreasing_chain lm k j); [done | lia | done | done]. }
      rewrite <- (fltb_fleb_false x bound Hx). symmetry.
      by apply (fleb_trans bound lower x). }
  rewrite Hout. cbn. by rewrite andb_false_r.
Qed.

Lemma loop_value_unwritten p (lm s : list F) (idxs : list nat) (d x : F) :
  (∀ j, j ∈ idxs → bucket_value p lm s j x = None) →
  loop_value p lm s idxs d x = d.
Proof.
  revert d. induction idxs as [| j idxs IH]; intros d Hnone; [done |].
  unfold loop_value. cbn [foldl]. rewrite (Hnone j) by by left. cbn.
  apply IH. intros k Hk. apply Hnone. by right.
Qed.

Lemma last_lookup_default (a : list F) (y : F) :
  a !! (length a - 1) = Some y → List.last a f0 = y.
Proof.
  destruct a as [| z a _] using rev_ind; [done |].
  rewrite length_app, last_last. cbn [length].
  replace (length a + 1 - 1) with (length a) by lia.
  rewrite lookup_app_r by lia. rewrite Nat.sub_diag. by intros [= ->].
Qed.

(** A voxel in a non-degenerate source interval is mapped by the
    piecewise-linear map of that interval (and stored). *)
Lemma nyul_voxel_in_bucket p (lm s : list F) (i : nat) (lower upper s0 s1 x : F) :
  nondecreasing lm →
  lm !! i = Some lower → lm !! (i + 1) = Some upper →
  s !! i = Some s0 → s !! (i + 1) = Some s1 →
  fltb lower upper = true → fleb lower x = true → fltb x upper = true →
  feqb x f0 = false →
  nyul_voxel p lm s x = store p (linear_map lower upper s0 s1 x).
Proof.
  intros Hnd Hl Hu Hs0 Hs1 Hlu Hlx Hxu Hx0. unfold nyul_voxel. rewrite Hx0.
  assert (Hlen : i + 1 < length lm) by by eapply lookup_lt_Some.
  destruct (lookup_lt_is_Some_2 lm (length lm - 1)) as [top Htop]; [lia |].
  rewrite (last_lookup_default lm top Htop).
  assert (Htx : fleb top x = false).
  { destruct (decide (i + 1 = length lm - 1)) as [Heq | Hne].
    - rewrite <- Heq, Hu in Htop. injection Htop as <-. by apply fltb_fleb_false.
    - destruct (fleb top x) eqn:Hle; [| done].
      assert (Hut : fleb upper top = true).
      { apply (nondecreasing_chain lm (i + 1) (length lm - 1)); [done | lia | done | done]. }
      rewrite <- (fltb_fleb_false x upper Hxu). symmetry.
      by apply (fleb_trans upper top x). }
  rewrite Htx.
  replace (length lm - 1) with (i + S (length lm - 1 - S i)) by lia.
  rewrite seq_app. cbn [seq plus]. unfold loop_value. rewrite foldl_app.
  cbn [foldl].
  assert (Hb : bucket_value p lm s i x = Some (store p (linear_map lower upper s0 s1 x))).
  { unfold bucket_value. by rewrite Hl, Hu, Hs0, Hs1, Hlu, Hlx, Hxu. }
  rewrite Hb. cbn [default].
  apply (loop_value_unwritten p lm s). intros j Hj%list_elem_of_In%in_seq.
  apply (bucket_value_above p lm s (i + 1) j upper x); [done | done | done | lia].
Qed.

(** A voxel at or above the top source landmark is mapped to the top
    standard landmark (stored), unless it is 0. *)
Lemma nyul_voxel_top p (lm s : list F) (x : F) :
  feqb x f0 = false → fleb (List.last lm f0) x = true →
  nyul_voxel p lm s x = store p (List.last s f0).
Proof. intros Hx0 Htop. unfold nyul_voxel. by rewrite Hx0, Htop. Qed.

(** A voxel equal to 0 is 0 in the output, whatever the landmarks. *)
Lemma nyul_voxel_zero p (lm s : list F) (x : F) :
  feqb x f0 = true → nyul_voxel p lm s x = f0.
Proof. intros Hx0. unfold nyul_voxel. by rewrite Hx0. Qed.

(** The iteration of a degenerate interval writes nothing. *)
Lemma bucket_value_degenerate p (lm s : list F) (i : nat) (lower upper x : F) :
  lm !! i = Some lower → lm !! (i + 1) = Some upper →
  fltb lower upper = false →
  bucket_value p lm s i x = None.
Proof.
  intros Hl Hu Hlu. unfold bucket_value. rewrite Hl, Hu, Hlu.
  by destruct (s !! i), (s !! (i + 1)).
Qed.

End NyulTransform.

(** The rational numbers satisfy the order laws. *)
#[global] Instance QNum_order_laws : OrderLaws Q.
Proof.
  constructor; cbn; unfold QNum.leb, QNum.ltb.
  - intros a b c Hab%Qle_bool_iff Hbc%Qle_bool_iff. apply Qle_bool_iff.
    by apply (Qle_trans a b c).
  - intros x a Hlt%negb_true_iff. exact Hlt.
Qed.

(** C6 (refuted as a property of the code).  [transform] builds its
    output in [np.zeros_like(img_array)], an array of the element type of
    the input, so every mapped value is converted to that type when it is
    written.  On the floating-point sample image the voxels 2 and 3 are
    mapped by the piecewise-linear map to 100/3 and 200/3; on the 16-bit
    image with the same voxels (used for training as well) the output
    holds 33 and 66.  Voxel by voxel, and up to this conversion, the four
    cases of C6 are [nyul_voxel_in_bucket], [nyul_voxel_top],
    [bucket_value_degenerate] and [nyul_voxel_zero]. *)
Theorem C6_nyul_output_is_stored_in_input_type :
  Nyul.transform Samples.trained_nyul Samples.float_image =
    Ok (mkImage PixelFloat [0; 100 # 3; 200 # 3; 100; 0]%Q) ∧
  Nyul.transform Samples.trained_nyul_int Samples.int_image =
    Ok (mkImage PixelInt [0; 33; 66; 100; 0]%Q) ∧
  Nyul.standard_landmarks Samples.trained_nyul_int =
    Nyul.standard_landmarks Samples.trained_nyul ∧
  (∀ x : Q, store PixelFloat x = x) ∧
  store PixelInt (100 # 3)%Q = 33%Q.
Proof.
  split; [vm_compute; reflexivity |].
  split; [vm_compute; reflexivity |].
  split; [vm_compute; reflexivity |].
  split; [reflexivity | vm_compute; reflexivity].
Qed.

(** * Further properties of the embedded code *)

(** ** Standardizers *)

Section NyulTrainFacts.
Context {F : Type} `{NumpyLaws F}.

(** The standard landmarks computed from mean landmarks [m] depend on
    the length of [m] only: every entry is overwritten. *)
Lemma nyul_target_ignores_mean (scale : F * F) (m m' : list F) :
  length m = length m' →
  (let s0 := <[0 := scale.1]> m in
   Nyul.respace scale (<[length s0 - 1 := scale.2]> s0)) =
  (let s0 := <[0 := scale.1]> m' in
   Nyul.respace scale (<[length s0 - 1 := scale.2]> s0)).
Proof.
  intros Hlen. cbn zeta. apply list_eq. intros j.
  rewrite !respace_lookup, !length_insert, <- Hlen.
  destruct (decide (0 < j ∧ j < length m - 1)) as [_ | Hno]; [done |].
  destruct (decide (j = length m - 1)) as [-> | Hlast].
  - destruct (decide (length m - 1 < length m)) as [Hlt | Hge].
    + rewrite !list_lookup_insert_eq; [done | |]; rewrite length_insert; lia.
    + assert (Hm : m = []) by (apply length_zero_iff_nil; lia).
      assert (Hm' : m' = []) by (apply length_zero_iff_nil; lia).
      by subst.
  - rewrite !(list_lookup_insert_ne _ (length m - 1) j) by done.
    destruct (decide (j = 0)) as [-> | Hj0].
    + rewrite !list_lookup_insert_eq; [done | |]; lia.
    + rewrite !list_lookup_insert_ne by done.
      rewrite !lookup_ge_None_2; [done | |]; lia.
Qed.

(** X1.  Training the Nyul standardizer returns on every non-empty list
    of images on which numpy's percentile is defined, and what it learns
    does not depend on the images: two such trainings leave the
    standardizer in the same state (flag, standard landmarks and
    parameter dictionary). *)
Theorem nyul_train_ignores_training_data (self : Nyul.NyulStandardizer F)
    (images images' : list (Image F)) :
  Nyul.landmarks_percentage self ≠ [] →
  images ≠ [] → images' ≠ [] →
  (∀ img, img ∈ images ++ images' →
     is_ok (np_percentile (non_zero (voxels img))
                          (Nyul.landmarks_percentage self)) = true) →
  (Nyul.train self images).2 = Ok tt ∧
  Nyul.trained (Nyul.train self images).1 = true ∧
  Nyul.train self images' = Nyul.train self images.
Proof.
  intros Hps Hne Hne' Hok.
  destruct (Nyul.landmarks_percentage self) as [| p0 ps] eqn:Hp; [done |].
  destruct (nyul_train_closed_form self images (length ps)) as (m & Hm & Ht).
  { done. } { by rewrite Hp. }
  { intros img Hin. rewrite Hp. apply Hok, elem_of_app. by left. }
  destruct (nyul_train_closed_form self images' (length ps)) as (m' & Hm' & Ht').
  { done. } { by rewrite Hp. }
  { intros img Hin. rewrite Hp. apply Hok, elem_of_app. by right. }
  rewrite Ht, Ht'. cbn zeta. split; [done |]. split; [done |].
  pose proof (nyul_target_ignores_mean (Nyul.standard_scale self) m' m) as Heq.
  cbn zeta in Heq. rewrite Heq by congruence. reflexivity.
Qed.

End NyulTrainFacts.

Lemma nyul_train_ignores_training_data_witness :
  (Nyul.train Nyul.new [Samples.float_image]).2 = Ok tt ∧
  Nyul.trained (Nyul.train Nyul.new [Samples.float_image]).1 = true ∧
  Nyul.train Nyul.new [Samples.int_image; Samples.float_image] =
  Nyul.train Nyul.new [Samples.float_image].
Proof.
  apply (nyul_train_ignores_training_data (F := Q) Nyul.new
           [Samples.float_image] [Samples.int_image; Samples.float_image]).
  - discriminate.
  - discriminate.
  - discriminate.
  - intros img Hin.
    repeat (apply elem_of_cons in Hin as [-> | Hin]; [vm_compute; reflexivity |]).
    by apply elem_of_nil in Hin.
Defined.

Section NyulTransformFacts.
Context {F : Type} `{Numeric F}.

Lemma lookup_map {A B} (f : A → B) (l : list A) (k : nat) :
  List.map f l !! k = f <$> (l !! k).
Proof. revert k. induction l as [| a l IH]; intros [| k]; cbn; done. Qed.

Lemma assign_where_length (mask : F → bool) (f : F → F) (src dst : list F) :
  length (assign_where mask f src dst) = length dst.
Proof.
  revert dst. induction src as [| x src IH]; intros [| d dst]; cbn; [done.. |].
  by rewrite IH.
Qed.

(** A masked assignment, entry by entry, between arrays of one shape. *)
Lemma assign_where_lookup (mask : F → bool) (f : F → F) (src dst : list F)
    (k : nat) (x : F) :
  length dst = length src → src !! k = Some x →
  assign_where mask f src dst !! k = if mask x then Some (f x) else dst !! k.
Proof.
  revert dst k. induction src as [| y src IH]; intros [| d dst] [| k] Hlen Hk;
    cbn in *; try done.
  - injection Hk as ->. by destruct (mask x).
  - apply IH; [lia | done].
Qed.

Lemma transform_step_length (self : Nyul.NyulStandardizer F) p
    (src lm : list F) (i : nat) (st st' : list F) :
  Nyul.transform_step self p src lm i st = Ok st' → length st' = length st.
Proof.
  unfold Nyul.transform_step.
  destruct (getitem lm i) as [lower |]; [| done]. cbn.
  destruct (getitem lm (i + 1)) as [upper |]; [| done]. cbn.
  destruct (fltb lower upper); [| by intros [= ->]].
  destruct (subscript _ (i + 1)) as [s1 |]; [| done]. cbn.
  destruct (subscript _ i) as [s0 |]; [| done]. cbn.
  intros [= <-]. apply assign_where_length.
Qed.

Lemma transform_loop_length (self : Nyul.NyulStandardizer F) p
    (src lm : list F) (idxs : list nat) (st st' : list F) :
  Nyul.transform_loop self p src lm idxs st = Ok st' → length st' = length st.
Proof.
  revert st. induction idxs as [| i idxs IH]; intros st; cbn [Nyul.transform_loop].
  - by intros [= ->].
  - destruct (Nyul.transform_step self p src lm i st) as [st1 |] eqn:H1; [| done].
    cbn. intros H2. rewrite (IH _ H2). by eapply transform_step_length.
Qed.

(** What [transform] returned, when it returned: the array left by the
    mapping loop, with the two final masked assignments. *)
Lemma nyul_transform_inv (self : Nyul.NyulStandardizer F) (img out : Image F) :
  Nyul.transform self img = Ok out →
  Nyul.trained self = true ∧
  ∃ st top_src top_std,
    length st = length (voxels img) ∧
    out = mkImage (pixel img)
            (assign_where (λ x, feqb x f0) (λ _, f0) (voxels img)
               (assign_where (λ x, fleb top_src x)
                  (λ _, store (pixel img) top_std) (voxels img) st)).
Proof.
  unfold Nyul.transform. destruct (Nyul.trained self); [| done]. cbn [negb].
  destruct (np_percentile _ _) as [lm |]; [| done]. cbn.
  destruct (Nyul.transform_loop _ _ _ _ _ _) as [st |] eqn:Hloop; [| done]. cbn.
  destruct (subscript_last _) as [top_std |]; [| done]. cbn.
  destruct (getlast lm) as [top_src |]; [| done]. cbn.
  intros [= <-]. split; [done |]. exists st, top_src, top_std.
  apply transform_loop_length in Hloop. unfold zeros_like in Hloop.
  rewrite length_map in Hloop. done.
Qed.

(** X2.  Whenever [NyulStandardizer.transform] returns, the standardizer
    was trained, the output has the element type and the number of voxels
    of the input, and every voxel that is 0 in the input is 0 in the
    output, whatever the landmarks are. *)
Theorem nyul_transform_shape_and_background (self : Nyul.NyulStandardizer F)
    (img out : Image F) :
  Nyul.transform self img = Ok out →
  Nyul.trained self = true ∧
  pixel out = pixel img ∧
  length (voxels out) = length (voxels img) ∧
  ∀ k x, voxels img !! k = Some x → feqb x f0 = true →
    voxels out !! k = Some f0.
Proof.
  intros (Ht & st & top_src & top_std & Hlen & ->)%nyul_transform_inv.
  cbn [pixel voxels].
  split; [done |]. split; [done |]. split.
  - by rewrite !assign_where_length.
  - intros k x Hk Hx.
    rewrite (assign_where_lookup _ _ _ _ k x); [by rewrite Hx | | done].
    by rewrite assign_where_length.
Qed.

End NyulTransformFacts.

Lemma nyul_transform_shape_and_background_witness :
  Nyul.trained Samples.trained_nyul = true ∧
  pixel (mkImage PixelFloat [0; 100 # 3; 200 # 3; 100; 0]%Q) =
    pixel Samples.float_image ∧
  length (voxels (mkImage PixelFloat [0; 100 # 3; 200 # 3; 100; 0]%Q)) =
    length (voxels Samples.float_image) ∧
  ∀ k x, voxels Samples.float_image !! k = Some x → feqb x f0 = true →
    voxels (mkImage PixelFloat [0; 100 # 3; 200 # 3; 100; 0]%Q) !! k = Some f0.
Proof.
  apply (nyul_transform_shape_and_background (F := Q) Samples.trained_nyul).
  vm_compute. reflexivity.
Defined.

Section NyulPiecewise.
Context {F : Type} `{NumpyLaws F} `{!OrderLaws F}.

(** X3.  The mapping of [NyulStandardizer.transform], voxel by voxel.
    For a trained standardizer holding one standard landmark per
    percentage, on an image whose own landmarks [lm] do not decrease,
    [transform] returns, and a voxel that is not 0 is written as follows
    into the output array (so converted to its element type): the top
    standard landmark if the voxel is at or above the top landmark of the
    image; the piecewise-linear image of the voxel if it lies in a
    non-degenerate interval [lower, upper) of consecutive landmarks. *)
Theorem nyul_transform_piecewise_linear (self : Nyul.NyulStandardizer F)
    (img : Image F) (s lm : list F) :
  Nyul.trained self = true →
  Nyul.standard_landmarks self = Some s →
  length s = length (Nyul.landmarks_percentage self) →
  Nyul.landmarks_percentage self ≠ [] →
  np_percentile (non_zero (voxels img)) (Nyul.landmarks_percentage self) = Ok lm →
  nondecreasing lm →
  ∃ out,
    Nyul.transform self img = Ok out ∧
    ∀ k x, voxels img !! k = Some x → feqb x f0 = false →
      (fleb (List.last lm f0) x = true →
       voxels out !! k = Some (store (pixel img) (List.last s f0))) ∧
      (∀ i lower upper s0 s1,
         lm !! i = Some lower → lm !! (i + 1) = Some upper →
         s !! i = Some s0 → s !! (i + 1) = Some s1 →
         fltb lower upper = true → fleb lower x = true → fltb x upper = true →
         voxels out !! k = Some (store (pixel img) (linear_map lower upper s0 s1 x))).
Proof.
  intros Ht Hs Hlen Hne Hlm Hnd. eexists. split.
  { by apply nyul_transform_voxels. }
  intros k x Hk Hx0. cbn [voxels]. rewrite lookup_map, Hk. cbn. split.
  - intros Htop. f_equal. by apply nyul_voxel_top.
  - intros i lower upper s0 s1 Hl Hu Hs0 Hs1 Hlu Hlx Hxu. f_equal.
    by apply (nyul_voxel_in_bucket _ lm s i lower upper s0 s1 x).
Qed.

End NyulPiecewise.

Lemma nyul_transform_piecewise_linear_witness :
  let s := [0; 10; 20; 30; 40; 50; 60; 70; 80; 90; 100]%Q in
  let lm := [1; 13 # 10; 8 # 5; 19 # 10; 11 # 5; 5 # 2; 14 # 5; 31 # 10;
             17 # 5; 37 # 10; 4]%Q in
  ∃ out,
    Nyul.transform Samples.trained_nyul Samples.float_image = Ok out ∧
    ∀ k x, voxels Samples.float_image !! k = Some x → feqb x f0 = false →
      (fleb (List.last lm f0) x = true →
       voxels out !! k =
         Some (store (pixel Samples.float_image) (List.last s f0))) ∧
      (∀ i lower upper s0 s1,
         lm !! i = Some lower → lm !! (i + 1) = Some upper →
         s !! i = Some s0 → s !! (i + 1) = Some s1 →
         fltb lower upper = true → fleb lower x = true → fltb x upper = true →
         voxels out !! k =
           Some (store (pixel Samples.float_image)
                   (linear_map lower upper s0 s1 x))).
Proof.
  apply (nyul_transform_piecewise_linear (F := Q) Samples.trained_nyul
           Samples.float_image).
  - vm_compute. reflexivity.
  - vm_compute. reflexivity.
  - vm_compute. reflexivity.
  - vm_compute. discriminate.
  - vm_compute. reflexivity.
  - intros j x y Hx Hy.
    do 10 (destruct j as [| j];
           [vm_compute in Hx, Hy; injection Hx as <-; injection Hy as <-;
            vm_compute; reflexivity |]).
    destruct j; vm_compute in Hy; discriminate.
Defined.

Section ZScoreMore.
Context {F : Type} `{Numeric F}.

(** X4.  The per-image fallback of [ZScoreStandardizer.transform] is
    training on the image itself: an untrained standardizer transforms an
    image as the same standardizer does after [train] on that image
    alone. *)
Theorem zscore_untrained_is_self_trained (robust : bool) (img : Image F) :
  ZScore.transform (ZScore.init robust) img =
  ZScore.transform (ZScore.train (ZScore.init robust) [img]) img.
Proof.
  rewrite zscore_transform_untrained, zscore_transform_trained.
  unfold ZScore.pooled. cbn [List.map concat ZScore.use_robust_statistics ZScore.init].
  by rewrite app_nil_r.
Qed.

End ZScoreMore.

Section FitTransformFacts.
Context {F : Type} `{Numeric F}.

(** X5.  [fit_transform] of the Z-score standardizer never raises,
    whatever the images (none, or images without a voxel above 0): it
    returns one output per input image, in order, each of them the image
    standardized with the statistics of the voxels pooled over all the
    images. *)
Theorem zscore_fit_transform_total (self : ZScore.ZScoreStandardizer F)
    (images : list (Image F)) :
  let robust := ZScore.use_robust_statistics self in
  IntensityStandardizer.fit_transform self images =
  (ZScore.train self images,
   Ok (List.map
         (λ img, mkImage (pixel img)
                   (List.map (zscore_voxel (pixel img)
                                (ZScore.center robust (ZScore.pooled images))
                                (ZScore.scale robust (ZScore.pooled images)))
                             (voxels img)))
         images)).
Proof.
  cbn zeta. unfold IntensityStandardizer.fit_transform.
  cbn [IntensityStandardizer.train IntensityStandardizer.zscore].
  f_equal. generalize images at 2 5 as imgs. intros imgs.
  induction imgs as [| img imgs IH]; [done |].
  cbn [IntensityStandardizer.transform_each List.map].
  cbn [IntensityStandardizer.transform IntensityStandardizer.zscore].
  rewrite zscore_transform_trained. cbn. rewrite IH. reflexivity.
Qed.

Lemma nyul_transform_each_shape (self : Nyul.NyulStandardizer F)
    (images outs : list (Image F)) :
  IntensityStandardizer.transform_each self images = Ok outs →
  Forall2 (λ img out, pixel out = pixel img ∧
                      length (voxels out) = length (voxels img)) images outs.
Proof.
  revert outs. induction images as [| img images IH]; intros outs;
    cbn [IntensityStandardizer.transform_each].
  - intros [= <-]. constructor.
  - cbn [IntensityStandardizer.transform IntensityStandardizer.nyul].
    destruct (Nyul.transform self img) as [out |] eqn:Hout; [| done]. cbn.
    destruct (IntensityStandardizer.transform_each self images) as [os |];
      [| done].
    cbn. intros [= <-]. constructor; [| by apply IH].
    apply nyul_transform_inv in Hout
      as (_ & st & top_src & top_std & Hlen & ->).
    cbn [pixel voxels]. by rewrite !assign_where_length.
Qed.

(** X6.  [fit_transform] of the Nyul standardizer.  When it returns,
    there was at least one image, the standardizer is trained, and there
    is one output per input image, in order, each with the element type
    and the number of voxels of its input.  On no image it raises the
    [TypeError] of [train] (the mean of no landmark vector is a scalar),
    and the standardizer does not become trained by the call. *)
Theorem nyul_fit_transform_outputs (self : Nyul.NyulStandardizer F)
    (images outs : list (Image F)) :
  (IntensityStandardizer.fit_transform self images).2 = Ok outs →
  images ≠ [] ∧
  Nyul.trained (IntensityStandardizer.fit_transform self images).1 = true ∧
  Forall2 (λ img out, pixel out = pixel img ∧
                      length (voxels out) = length (voxels img)) images outs ∧
  (IntensityStandardizer.fit_transform self []).2 =
    Raise (TypeError "'numpy.float64' object does not support item assignment") ∧
  Nyul.trained (IntensityStandardizer.fit_transform self []).1 = Nyul.trained self.
Proof.
  unfold IntensityStandardizer.fit_transform at 1 2.
  cbn [IntensityStandardizer.train IntensityStandardizer.nyul].
  unfold Nyul.train.
  destruct (Nyul.all_landmarks _ images) as [rows |] eqn:Hrows; [| done].
  destruct (np_mean_axis0 rows) as [| m0 mean] eqn:Hmean; [done |].
  cbn [fst snd]. intros Hall.
  split.
  { intros ->. cbn in Hrows. injection Hrows as <-. done. }
  split; [done |]. split; [by eapply nyul_transform_each_shape |]. done.
Qed.

End FitTransformFacts.

Lemma nyul_fit_transform_outputs_witness :
  let outs := [mkImage PixelFloat [0; 100 # 3; 200 # 3; 100; 0]%Q] in
  [Samples.float_image] ≠ [] ∧
  Nyul.trained
    (IntensityStandardizer.fit_transform Nyul.new [Samples.float_image]).1 = true ∧
  Forall2 (λ img out, pixel out = pixel img ∧
                      length (voxels out) = length (voxels img))
    [Samples.float_image] outs ∧
  (IntensityStandardizer.fit_transform (Nyul.new (F := Q)) []).2 =
    Raise (TypeError "'numpy.float64' object does not support item assignment") ∧
  Nyul.trained (IntensityStandardizer.fit_transform (Nyul.new (F := Q)) []).1 =
    Nyul.trained (Nyul.new (F := Q)).
Proof.
  apply (nyul_fit_transform_outputs (F := Q) Nyul.new [Samples.float_image]).
  vm_compute. reflexivity.
Defined.

Section ParameterFiles.
Context {F : Type} `{Numeric F}.

(** X7.  Parameter files.  Loading from a path that holds no file raises
    [FileNotFoundError] and leaves the standardizer as it was (not marked
    trained).  Of two standardizers saved to the same path the second
    one is the one loaded back; saving to one path does not change what
    is loaded from another; and loading marks the standardizer trained
    even when the file was written by a standardizer that was never
    trained. *)
Theorem parameter_files_by_path (a b self : Nyul.NyulStandardizer F)
    (path other : string) (fs : files F) :
  let fs' := Nyul.save_parameters b path (Nyul.save_parameters a path fs) in
  (fs !! other = None →
   Nyul.load_parameters self other fs = (self, Raise (FileNotFoundError other))) ∧
  (Nyul.load_parameters self path fs').2 = Ok tt ∧
  Nyul.parameters (Nyul.load_parameters self path fs').1 = Nyul.parameters b ∧
  Nyul.trained (Nyul.load_parameters self path fs').1 = true ∧
  (other ≠ path →
   Nyul.load_parameters self other fs' = Nyul.load_parameters self other fs) ∧
  Nyul.trained
    (Nyul.load_parameters self path
       (Nyul.save_parameters (Nyul.init (Nyul.landmarks_percentage self)
                                (Nyul.standard_scale self)) path fs)).1 = true.
Proof.
  cbn zeta. unfold Nyul.load_parameters, Nyul.save_parameters, json_load, json_dump.
  split; [by intros -> |].
  rewrite !lookup_insert_eq. cbn.
  split; [done |]. split; [done |]. split; [done |]. split; [| done].
  intros Hne. by rewrite !lookup_insert_ne.
Qed.

End ParameterFiles.

(** ** The step engine, for any number of steps *)

Section EngineGeneral.
Context {V W : Type}.
Variable time_time : W → Z * W.

Abbreviation run_step := (Engine.run_step time_time).
Abbreviation run_steps := (Engine.run_steps time_time).

(** With [continue_on_error] the loop runs to its end: every step adds
    one entry, to [steps_executed] or to the errors. *)
Lemma run_steps_continue (l : list (Engine.PipelineStep V W)) i s :
  (run_steps true i l s).2 = Ok tt ∧
  length (Engine.l_steps_executed (run_steps true i l s).1) +
  length (Engine.l_errors (run_steps true i l s).1) =
  length l + (length (Engine.l_steps_executed s) + length (Engine.l_errors s)).
Proof.
  revert i s. induction l as [| step l IH]; intros i s; [done |].
  cbn [Engine.run_steps length].
  destruct (Engine.attempt step (Engine.current_data s) (time_time (Engine.world s)).2)
    as [[d w] [r | e]] eqn:Ha.
  - rewrite (run_step_success time_time true i step s d w r Ha).
    destruct (IH (S i) (Engine.run_step time_time true i step s).1) as [IH1 IH2].
    rewrite (run_step_success time_time true i step s d w r Ha) in IH1, IH2.
    cbn [fst] in IH1, IH2. split; [exact IH1 |]. rewrite IH2.
    cbn [Engine.l_steps_executed Engine.l_errors]. rewrite length_app. cbn. lia.
  - rewrite (run_step_failure time_time true i step s d w e Ha).
    destruct (IH (S i) (Engine.run_step time_time true i step s).1) as [IH1 IH2].
    rewrite (run_step_failure time_time true i step s d w e Ha) in IH1, IH2.
    cbn [fst] in IH1, IH2. split; [exact IH1 |]. rewrite IH2.
    cbn [Engine.l_steps_executed Engine.l_errors]. rewrite length_app. cbn. lia.
Qed.

(** The loop only ever appends to the errors. *)
Lemma run_steps_errors_prefix coe (l : list (Engine.PipelineStep V W)) i s :
  Engine.l_errors s `prefix_of` Engine.l_errors (run_steps coe i l s).1.
Proof.
  revert i s. induction l as [| step l IH]; intros i s; [done |].
  cbn [Engine.run_steps].
  destruct (Engine.attempt step (Engine.current_data s) (time_time (Engine.world s)).2)
    as [[d w] [r | e]] eqn:Ha.
  - rewrite (run_step_success time_time coe i step s d w r Ha).
    etransitivity; [| apply IH]. done.
  - rewrite (run_step_failure time_time coe i step s d w e Ha).
    destruct coe; cbn [fst Engine.l_errors].
    + etransitivity; [| apply IH]. cbn. by apply prefix_app_r.
    + by apply prefix_app_r.
Qed.

(** X8.  With [continue_on_error] set, [BasePipeline.execute] never
    raises, whatever the steps do: it returns its results with status
    "completed" and no top-level error, even if every step failed; each
    step of the pipeline was attempted and is accounted for once, in
    [steps_executed] or in the errors, next to the errors the pipeline
    object held before the call. *)
Theorem continue_on_error_never_raises (self : Engine.BasePipeline V W)
    (input : gmap string V) (w : W) :
  let out := Engine.execute_pipeline time_time self input true w in
  ∃ res,
    out.2 = Ok res ∧
    Engine.presults out.1.1 = Some res ∧
    Engine.pstatus out.1.1 = "completed" ∧
    Engine.meta_status res = "completed" ∧
    Engine.results_error res = None ∧
    length (Engine.steps_executed res) + length (Engine.meta_errors res) =
    length (Engine.steps self) + length (Engine.perrors self).
Proof.
  cbn zeta. unfold Engine.execute_pipeline.
  destruct (time_time w) as [t_start w0].
  destruct (run_steps_continue (Engine.steps self) 0 (Engine.start self input w0))
    as [Hr Hlen].
  destruct (run_steps true 0 (Engine.steps self) (Engine.start self input w0))
    as [s r]. cbn [fst snd] in Hr, Hlen. subst r.
  destruct (time_time (Engine.world s)) as [stop wf].
  eexists. split; [reflexivity |]. cbn.
  split; [reflexivity |]. split; [reflexivity |]. split; [reflexivity |].
  split; [reflexivity |]. rewrite Hlen. cbn. lia.
Qed.

(** X9.  The errors of a pipeline object are never reset: a run starts
    from the errors the object already holds and only appends to them, so
    the errors of an earlier run are reported again, first, in the
    metadata of every later run of the same object. *)
Theorem errors_accumulate_across_runs (self : Engine.BasePipeline V W)
    (input input' : gmap string V) (coe coe' : bool) (w : W) :
  let out := Engine.execute_pipeline time_time self input coe w in
  let out' := Engine.execute_pipeline time_time out.1.1 input' coe' out.1.2 in
  Engine.perrors self `prefix_of` Engine.perrors out.1.1 ∧
  (Engine.meta_errors <$> Engine.presults out.1.1) = Some (Engine.perrors out.1.1) ∧
  Engine.perrors out.1.1 `prefix_of` Engine.perrors out'.1.1 ∧
  (Engine.meta_errors <$> Engine.presults out'.1.1) = Some (Engine.perrors out'.1.1).
Proof.
  assert (Hone : ∀ (p : Engine.BasePipeline V W) i c w1,
    let o := Engine.execute_pipeline time_time p i c w1 in
    Engine.perrors p `prefix_of` Engine.perrors o.1.1 ∧
    (Engine.meta_errors <$> Engine.presults o.1.1) = Some (Engine.perrors o.1.1)).
  { intros p i c w1. cbn zeta. unfold Engine.execute_pipeline.
    destruct (time_time w1) as [t_start w0].
    pose proof (run_steps_errors_prefix c (Engine.steps p) 0
                  (Engine.start p i w0)) as Hpre.
    destruct (run_steps c 0 (Engine.steps p) (Engine.start p i w0)) as [s r].
    destruct (time_time (Engine.world s)) as [stop wf]. cbn in *. done. }
  cbn zeta. split; [apply Hone |]. split; [apply Hone |]. apply Hone.
Qed.

(** The loop over steps that all return: it ends normally, lists every
    step in [steps_executed] with its index, adds no error, and leaves a
    "success" entry under every step name. *)
Lemma run_steps_all_return coe (l : list (Engine.PipelineStep V W)) i s :
  (∀ k step, l !! k = Some step →
     is_ok (Engine.attempt step
              (Engine.current_data (run_steps coe i (take k l) s).1)
              (time_time (Engine.world (run_steps coe i (take k l) s).1)).2).2
       = true) →
  (run_steps coe i l s).2 = Ok tt ∧
  Engine.ex_name <$> Engine.l_steps_executed (run_steps coe i l s).1 =
    (Engine.ex_name <$> Engine.l_steps_executed s) ++ (Engine.name <$> l) ∧
  Engine.ex_index <$> Engine.l_steps_executed (run_steps coe i l s).1 =
    (Engine.ex_index <$> Engine.l_steps_executed s) ++ seq i (length l) ∧
  Engine.l_errors (run_steps coe i l s).1 = Engine.l_errors s ∧
  ∀ n, (Engine.sr_status <$> (Engine.l_step_results s !! n) = Some "success" ∨
        n ∈ Engine.name <$> l) →
       Engine.sr_status <$> (Engine.l_step_results (run_steps coe i l s).1 !! n)
         = Some "success".
Proof.
  revert i s. induction l as [| step l IH]; intros i s Hall.
  { cbn. rewrite !app_nil_r. repeat split; try done.
    intros n [Hn | Hn]; [done | by apply elem_of_nil in Hn]. }
  pose proof (Hall 0 step eq_refl) as H0. cbn [take firstn Engine.run_steps fst] in H0.
  destruct (Engine.attempt step (Engine.current_data s) (time_time (Engine.world s)).2)
    as [[d w] [r | e]] eqn:Ha; [| done]. clear H0.
  cbn [Engine.run_steps]. rewrite (run_step_success time_time coe i step s d w r Ha).
  match goal with |- context [run_steps coe (S i) l ?s1] => set (s' := s1) end.
  destruct (IH (S i) s') as (Hr & Hnames & Hidx & Herr & Hst).
  { intros k step' Hk. specialize (Hall (S k) step' Hk).
    cbn [take firstn Engine.run_steps] in Hall.
    rewrite (run_step_success time_time coe i step s d w r Ha) in Hall.
    exact Hall. }
  split; [exact Hr |]. split.
  { rewrite Hnames. unfold s'. cbn [Engine.l_steps_executed].
    rewrite fmap_app, fmap_cons, <- app_assoc. done. }
  split.
  { rewrite Hidx. unfold s'. cbn [Engine.l_steps_executed length seq].
    rewrite fmap_app, <- app_assoc. done. }
  split; [by rewrite Herr |].
  intros n Hn. apply Hst. unfold s'. cbn [Engine.l_step_results].
  destruct (decide (n = Engine.name step)) as [-> | Hne].
  { left. by rewrite lookup_insert_eq. }
  destruct Hn as [Hn | Hn].
  - left. by rewrite lookup_insert_ne.
  - right. rewrite fmap_cons in Hn. apply elem_of_cons in Hn as [Hn | Hn]; done.
Qed.

(** What [step_returns] says, for the loop. *)
Lemma step_returns_is_ok (self : Engine.BasePipeline V W) input coe w k step :
  step_returns time_time k self input coe w →
  Engine.steps self !! k = Some step →
  is_ok (Engine.attempt step
           (Engine.current_data (reached time_time k self input coe w))
           (time_time (Engine.world (reached time_time k self input coe w))).2).2
    = true.
Proof.
  unfold step_returns, attempt_at. intros Hret Hk. rewrite Hk in Hret. cbn in Hret.
  by destruct (Engine.attempt step _ _) as [? [? | ?]].
Qed.

(** X10.  A run in which every step returns.  [execute] returns its
    results with status "completed", whether or not [continue_on_error]
    is set; [steps_executed] lists the steps of the pipeline in order,
    with their indices; no error is added; and every step name has a
    "success" entry in [step_results]. *)
Theorem all_steps_return_run_completes (self : Engine.BasePipeline V W)
    (input : gmap string V) (coe : bool) (w : W) :
  (∀ k, k < length (Engine.steps self) →
        step_returns time_time k self input coe w) →
  let out := Engine.execute_pipeline time_time self input coe w in
  ∃ res,
    out.2 = Ok res ∧
    Engine.presults out.1.1 = Some res ∧
    Engine.pstatus out.1.1 = "completed" ∧
    Engine.meta_status res = "completed" ∧
    Engine.ex_name <$> Engine.steps_executed res =
      Engine.name <$> Engine.steps self ∧
    Engine.ex_index <$> Engine.steps_executed res =
      seq 0 (length (Engine.steps self)) ∧
    Engine.meta_errors res = Engine.perrors self ∧
    ∀ step, step ∈ Engine.steps self →
      recorded_status res (Engine.name step) = Some "success".
Proof.
  intros Hall. cbn zeta.
  assert (Hloop := run_steps_all_return coe (Engine.steps self) 0
                     (Engine.start self input (time_time w).2)).
  destruct Hloop as (Hr & Hnames & Hidx & Herr & Hst).
  { intros k step Hk.
    apply (step_returns_is_ok self input coe w k step); [| exact Hk].
    apply Hall. by eapply lookup_lt_Some. }
  unfold Engine.execute_pipeline. destruct (time_time w) as [t_start w0].
  cbn [snd] in Hr, Hnames, Hidx, Herr, Hst.
  destruct (run_steps coe 0 (Engine.steps self) (Engine.start self input w0))
    as [s r]. cbn [fst snd] in Hr, Hnames, Hidx, Herr, Hst. subst r.
  destruct (time_time (Engine.world s)) as [stop wf].
  eexists. split; [reflexivity |]. cbn.
  split; [reflexivity |]. split; [reflexivity |]. split; [reflexivity |].
  split; [exact Hnames |]. split; [exact Hidx |]. split; [exact Herr |].
  intros step Hin. unfold recorded_status. cbn. apply Hst. right.
  by apply list_elem_of_fmap_2.
Qed.

(** Without [continue_on_error], the steps after one that raises play no
    part. *)
Lemma run_steps_raise_app (l1 l2 : list (Engine.PipelineStep V W)) i s e :
  (run_steps false i l1 s).2 = Raise e →
  run_steps false i (l1 ++ l2) s = run_steps false i l1 s.
Proof.
  intros Hr. rewrite run_steps_app.
  destruct (run_steps false i l1 s) as [s' [[] | e']]; [done | done].
Qed.

(** X11.  The first step that raises, in a run without
    [continue_on_error].  If the steps before index [k] return and step
    [k] raises [e], then [execute] raises [e]; the pipeline is "failed"
    with [e]'s message as top-level error; [steps_executed] lists the
    steps before [k]; one error is added, naming step [k], its index and
    the message and type of [e]; and no later step plays any part: a
    pipeline that agrees with this one up to step [k] gives the same
    outcome, world, results and step fields. *)
Theorem first_failure_aborts_run (self : Engine.BasePipeline V W)
    (input : gmap string V) (w : W) (k : nat) (step : Engine.PipelineStep V W)
    (dw : gmap string V * W) (e : exn) :
  (∀ j, j < k → step_returns time_time j self input false w) →
  Engine.steps self !! k = Some step →
  attempt_at time_time k self input false w = Some (dw, Raise e) →
  let out := Engine.execute_pipeline time_time self input false w in
  out.2 = Raise e ∧
  Engine.pstatus out.1.1 = "failed" ∧
  Engine.current_step_index out.1.1 = k ∧
  (∃ res,
     Engine.presults out.1.1 = Some res ∧
     Engine.meta_status res = "failed" ∧
     Engine.results_error res = Some (exn_msg e) ∧
     Engine.ex_name <$> Engine.steps_executed res =
       Engine.name <$> take k (Engine.steps self) ∧
     Engine.meta_errors res =
       Engine.perrors self ++
       [{| Engine.step_name := Engine.name step; Engine.step_index := k;
           Engine.error := exn_msg e; Engine.error_type := exn_type e |}] ∧
     recorded_status res (Engine.name step) = Some "failed") ∧
  ∀ self' : Engine.BasePipeline V W,
    Engine.pname self' = Engine.pname self →
    Engine.fields self' = Engine.fields self →
    Engine.perrors self' = Engine.perrors self →
    take (S k) (Engine.steps self') = take (S k) (Engine.steps self) →
    let out' := Engine.execute_pipeline time_time self' input false w in
    out'.2 = out.2 ∧ out'.1.2 = out.1.2 ∧
    Engine.presults out'.1.1 = Engine.presults out.1.1 ∧
    Engine.fields out'.1.1 = Engine.fields out.1.1.
Proof.
  intros Hbefore Hk Hat. cbn zeta.
  set (s0 := Engine.start self input (time_time w).2).
  assert (Hlen : k < length (Engine.steps self)) by by eapply lookup_lt_Some.
  (* the steps before k *)
  destruct (run_steps_all_return false (take k (Engine.steps self)) 0 s0)
    as (Hr & Hnames & _ & Herr & _).
  { intros j stepj Hj.
    assert (Hjk : j < k).
    { apply lookup_lt_Some in Hj. rewrite length_take in Hj. lia. }
    rewrite take_take, Nat.min_l by lia.
    apply (step_returns_is_ok self input false w j stepj); [by apply Hbefore |].
    by rewrite lookup_take_lt in Hj. }
  (* step k *)
  unfold attempt_at, reached in Hat. rewrite Hk in Hat. cbn in Hat.
  injection Hat as Hat. fold s0 in Hat.
  assert (Hrun : ∀ l', take (S k) l' = take (S k) (Engine.steps self) →
    run_steps false 0 l' s0 =
    ((run_step false k step (run_steps false 0 (take k (Engine.steps self)) s0).1).1,
     Raise e)).
  { intros l' Hl'.
    assert (Hsplit : take (S k) (Engine.steps self) = take k (Engine.steps self) ++ [step])
      by by apply take_S_r.
    rewrite <- (take_drop (S k) l'), Hl', Hsplit.
    assert (Hone : run_steps false 0 (take k (Engine.steps self) ++ [step]) s0 =
      ((run_step false k step
          (run_steps false 0 (take k (Engine.steps self)) s0).1).1, Raise e)).
    { rewrite run_steps_app.
      destruct (run_steps false 0 (take k (Engine.steps self)) s0) as [sk rk].
      cbn [fst snd] in *. subst rk. rewrite length_take, Nat.min_l by lia.
      cbn [Engine.run_steps Nat.add]. destruct dw as [d w'].
      by rewrite (run_step_failure time_time false k step sk d w' e Hat). }
    rewrite (run_steps_raise_app _ _ _ _ e); [exact Hone | by rewrite Hone]. }
  destruct dw as [d w'].
  assert (Hstepk := run_step_failure time_time false k step
                      (run_steps false 0 (take k (Engine.steps self)) s0).1 d w' e Hat).
  assert (Hexec : ∀ self' : Engine.BasePipeline V W,
    Engine.pname self' = Engine.pname self →
    Engine.fields self' = Engine.fields self →
    Engine.perrors self' = Engine.perrors self →
    take (S k) (Engine.steps self') = take (S k) (Engine.steps self) →
    let o := Engine.execute_pipeline time_time self' input false w in
    let sk := (run_step false k step
                 (run_steps false 0 (take k (Engine.steps self)) s0).1).1 in
    o.2 = Raise e ∧ o.1.2 = (time_time (Engine.world sk)).2 ∧
    Engine.fields o.1.1 = Engine.l_fields sk ∧
    Engine.pstatus o.1.1 = "failed" ∧
    Engine.current_step_index o.1.1 = Engine.l_index sk ∧
    Engine.presults o.1.1 =
      Some {| Engine.input_data := input;
              Engine.step_results := Engine.l_step_results sk;
              Engine.pipeline_name := Engine.pname self;
              Engine.meta_start_time := (time_time w).1;
              Engine.steps_executed := Engine.l_steps_executed sk;
              Engine.results_error := Some (exn_msg e);
              Engine.meta_end_time := (time_time (Engine.world sk)).1;
              Engine.total_execution_time :=
                (time_time (Engine.world sk)).1 - (time_time w).1;
              Engine.meta_status := "failed";
              Engine.meta_errors := Engine.l_errors sk |}).
  { intros self' Hn Hf He Hs. cbn zeta. unfold Engine.execute_pipeline.
    assert (Hs0 : Engine.start self' input (time_time w).2 = s0).
    { unfold s0, Engine.start. by rewrite Hf, He. }
    destruct (time_time w) as [t_start w0]. cbn [snd] in Hs0. rewrite Hs0.
    rewrite (Hrun _ Hs).
    match goal with |- context [let '(_, _) := time_time ?w in _] =>
      destruct (time_time w) as [stop wf] end.
    cbn. by rewrite Hn. }
  destruct (Hexec self eq_refl eq_refl eq_refl eq_refl)
    as (H2 & Hw & Hf & Hst & Hi & Hres).
  cbn zeta in *.
  split; [exact H2 |]. split; [exact Hst |].
  split; [by rewrite Hi, Hstepk |].
  split.
  { eexists. split; [exact Hres |]. cbn. rewrite Hstepk. cbn.
    split; [done |]. split; [done |].
    split; [by rewrite Hnames |]. split; [by rewrite Herr |].
    unfold recorded_status. cbn. by rewrite lookup_insert_eq. }
  intros self' Hn' Hf' He' Hs'.
  destruct (Hexec self' Hn' Hf' He' Hs') as (H2' & Hw' & Hfl' & _ & _ & Hres').
  cbn zeta in *. by rewrite H2, H2', Hw, Hw', Hf, Hfl', Hres, Hres'.
Qed.

End EngineGeneral.

Lemma all_steps_return_run_completes_witness :
  let out := EngineSamples.run EngineSamples2.all_ok false in
  ∃ res,
    out.2 = Ok res ∧
    Engine.presults out.1.1 = Some res ∧
    Engine.pstatus out.1.1 = "completed" ∧
    Engine.meta_status res = "completed" ∧
    Engine.ex_name <$> Engine.steps_executed res =
      Engine.name <$> Engine.steps EngineSamples2.all_ok ∧
    Engine.ex_index <$> Engine.steps_executed res =
      seq 0 (length (Engine.steps EngineSamples2.all_ok)) ∧
    Engine.meta_errors res = Engine.perrors EngineSamples2.all_ok ∧
    ∀ step, step ∈ Engine.steps EngineSamples2.all_ok →
      recorded_status res (Engine.name step) = Some "success".
Proof.
  apply (all_steps_return_run_completes EngineSamples.clock
           EngineSamples2.all_ok ∅ false tt).
  intros k Hk. destruct k as [| [| k]]; [vm_compute; exact I.. |].
  cbn in Hk. lia.
Defined.

Lemma first_failure_aborts_run_witness :
  let self := EngineSamples2.fails_fourth in
  let step := EngineSamples.failing_step "four" in
  let e := EngineSamples.boom in
  let out := EngineSamples.run self false in
  out.2 = Raise e ∧
  Engine.pstatus out.1.1 = "failed" ∧
  Engine.current_step_index out.1.1 = 3 ∧
  (∃ res,
     Engine.presults out.1.1 = Some res ∧
     Engine.meta_status res = "failed" ∧
     Engine.results_error res = Some (exn_msg e) ∧
     Engine.ex_name <$> Engine.steps_executed res =
       Engine.name <$> take 3 (Engine.steps self) ∧
     Engine.meta_errors res =
       Engine.perrors self ++
       [{| Engine.step_name := Engine.name step; Engine.step_index := 3;
           Engine.error := exn_msg e; Engine.error_type := exn_type e |}] ∧
     recorded_status res (Engine.name step) = Some "failed") ∧
  ∀ self' : Engine.BasePipeline nat unit,
    Engine.pname self' = Engine.pname self →
    Engine.fields self' = Engine.fields self →
    Engine.perrors self' = Engine.perrors self →
    take 4 (Engine.steps self') = take 4 (Engine.steps self) →
    let out' := Engine.execute_pipeline EngineSamples.clock self' ∅ false tt in
    out'.2 = out.2 ∧ out'.1.2 = out.1.2 ∧
    Engine.presults out'.1.1 = Engine.presults out.1.1 ∧
    Engine.fields out'.1.1 = Engine.fields out.1.1.
Proof.
  apply (first_failure_aborts_run EngineSamples.clock EngineSamples2.fails_fourth
           ∅ tt 3 (EngineSamples.failing_step "four")
           (EngineSamples.context 3 EngineSamples2.fails_fourth false, tt)
           EngineSamples.boom).
  - intros j Hj. destruct j as [| [| [| j]]]; [vm_compute; exact I.. | lia].
  - reflexivity.
  - vm_compute. reflexivity.
Defined.

(** ** Discovery: the files of a work item *)

Section DiscoveryFiles.
Import Batch DiscoverySpec.

(** Two prefixes of one string: the shorter is a prefix of the longer. *)
Lemma prefix_of_same (a b r : string) :
  String.prefix a r = true → String.prefix b r = true →
  String.length a ≤ String.length b → String.prefix a b = true.
Proof.
  revert b r. induction a as [| c a IH]; intros b r Ha Hb Hlen; [by destruct b |].
  destruct r as [| c' r]; [done |].
  destruct b as [| c'' b]; [cbn in Hlen; lia |].
  cbn in Ha, Hb, Hlen |- *.
  destruct (Ascii.ascii_dec c c') as [-> |]; [| done].
  destruct (Ascii.ascii_dec c'' c') as [-> |]; [| done].
  destruct (Ascii.ascii_dec c' c'); [| done].
  apply (IH b r); [done | done | lia].
Qed.

(** No file name is a T2W candidate and an ADC candidate of the same
    naming convention. *)
Lemma patterns_disjoint (pat : string * string) (fname : string) :
  pat ∈ patterns → fnmatch pat.1 fname = true → fnmatch pat.2 fname = true → False.
Proof.
  unfold patterns. intros Hin H1 H2.
  repeat (apply elem_of_cons in Hin as [-> | Hin]);
    [| | | by apply elem_of_nil in Hin];
    cbn in H1, H2; unfold ends_with in H1, H2;
    pose proof (prefix_of_same _ _ _ H1 H2) as Hp;
    cbn in Hp; by specialize (Hp ltac:(lia)).
Qed.

Lemma head_filter_elem (f : string → bool) (l : list string) (x : string) :
  head (List.filter f l) = Some x → x ∈ l ∧ f x = true.
Proof.
  intros Hh. assert (Hin : In x (List.filter f l)).
  { destruct (List.filter f l); [done |]. injection Hh as ->. by left. }
  apply filter_In in Hin as [Hin Hf]. by apply list_elem_of_In in Hin.
Qed.

(** X12.  Every work item of [PatientDiscoveryStep] comes from a
    non-hidden subdirectory of the listing, carries its name as patient
    identifier, and points at two different files that are both listed in
    that subdirectory. *)
Theorem discovered_patient_files (base : string) (entries : list dir_entry)
    (p : patient) :
  p ∈ (discover base entries).1 →
  ∃ e t a,
    e ∈ entries ∧ is_dir e = true ∧ hidden e = false ∧
    patient_id p = entry_name e ∧
    patient_dir p = joinpath base (entry_name e) ∧
    t2w_path p = joinpath (patient_dir p) t ∧
    adc_path p = joinpath (patient_dir p) a ∧
    t ∈ children e ∧ a ∈ children e ∧ t ≠ a ∧
    t2w_path p ≠ adc_path p.
Proof.
  rewrite discover_eq. cbn [fst].
  intros (e & He & Hp)%list_elem_of_omap.
  unfold patient_of in Hp.
  destruct (is_dir e) eqn:Hd; [| done]. destruct (hidden e) eqn:Hh; [done |].
  cbn in Hp. destruct (required_files e) as [[t a] |] eqn:Hreq; [| done].
  injection Hp as <-. cbn [patient_id patient_dir t2w_path adc_path].
  assert (Hfiles : t ∈ children e ∧ a ∈ children e ∧ t ≠ a).
  { unfold required_files in Hreq.
    destruct (first_match patterns e) as [[t' a'] |] eqn:Hfm.
    - injection Hreq as -> ->.
      apply first_match_priority in Hfm
        as (before & pat & after & Hpat & _ & Ht & Ha).
      apply head_filter_elem in Ht as [Ht Hmt].
      apply head_filter_elem in Ha as [Ha Hma].
      split; [done |]. split; [done |]. intros ->.
      apply (patterns_disjoint pat a); [| done | done].
      rewrite Hpat. apply elem_of_app. right. by left.
    - destruct (file_exists _ e) eqn:Ht; [| done].
      destruct (file_exists (entry_name e +:+ "_adc.nii.gz") e) eqn:Ha; [| done].
      cbn in Hreq. injection Hreq as <- <-.
      apply bool_decide_eq_true in Ht, Ha.
      split; [done |]. split; [done |].
      intros Heq. apply (inj (String.app _)) in Heq. discriminate. }
  destruct Hfiles as (Ht & Ha & Hne).
  exists e, t, a. repeat split; try done.
  unfold joinpath. intros Heq. apply (inj (String.app _)) in Heq.
  apply (inj (String.app _)) in Heq. done.
Qed.

End DiscoveryFiles.

Lemma discovered_patient_files_witness :
  let p := {| Batch.patient_id := "p3";
              Batch.t2w_path := "in/p3/scan_T2W.nii.gz";
              Batch.adc_path := "in/p3/map_ADC.nii.gz";
              Batch.patient_dir := "in/p3" |} in
  ∃ e t a,
    e ∈ DiscoverySpec.sample_listing ∧
    Batch.is_dir e = true ∧ Batch.hidden e = false ∧
    Batch.patient_id p = Batch.entry_name e ∧
    Batch.patient_dir p = Batch.joinpath "in" (Batch.entry_name e) ∧
    Batch.t2w_path p = Batch.joinpath (Batch.patient_dir p) t ∧
    Batch.adc_path p = Batch.joinpath (Batch.patient_dir p) a ∧
    t ∈ Batch.children e ∧ a ∈ Batch.children e ∧ t ≠ a ∧
    Batch.t2w_path p ≠ Batch.adc_path p.
Proof.
  apply (discovered_patient_files "in" DiscoverySpec.sample_listing).
  vm_compute. apply list_elem_of_further, list_elem_of_here.
Defined.

(** ** The batch pipeline, step after step *)

Section BatchRuns.
Import Batch BatchSpec.
Context {F : Type} `{NumpyLaws F}.
Variable clock : nat → Z.
Variable iterdir : string → result (list dir_entry).
Variable ReadImage : string → result (Image F).
Variable mkdir : string → result unit.
Variable patient_run :
  patient → option (Nyul.NyulStandardizer F) → result (list string * Z).
Variable as_completed : list patient → list patient.

Abbreviation tick := (Batch.time_time clock).
Abbreviation pipeline :=
  (BatchPreprocessingPipeline clock iterdir ReadImage mkdir patient_run as_completed).

Tactic Notation "norm_batch" :=
  cbn [fst snd Engine.current_data Engine.world Engine.l_fields
       Engine.l_step_results Engine.l_steps_executed Engine.l_errors
       Engine.l_index Engine.steps Engine.fields Engine.perrors Engine.pname
       Engine.make Engine.start map take firstn Engine.run_steps
       Engine.name Batch.step].
Tactic Notation "norm_batch" "in" hyp(H) :=
  cbn [fst snd Engine.current_data Engine.world Engine.l_fields
       Engine.l_step_results Engine.l_steps_executed Engine.l_errors
       Engine.l_index Engine.steps Engine.fields Engine.perrors Engine.pname
       Engine.make Engine.start map take firstn Engine.run_steps
       Engine.name Batch.step] in H.

(** A step of this pipeline in the engine: it always validates, never
    touches the context it is handed, and its cleanup does nothing. *)
Lemma attempt_step (n : string)
    (exec : gmap string (value F) → World F → World F * result (gmap string (value F)))
    d w :
  Engine.attempt (step n exec) d w = ((d, (exec d w).1), (exec d w).2).
Proof. unfold Engine.attempt, step. cbn. by destruct (exec d w). Qed.

(** One iteration of the engine on a step of this pipeline. *)
Lemma batch_step_success coe i (n : string)
    (exec : gmap string (value F) → World F → World F * result (gmap string (value F)))
    (s : Engine.loop (value F) (World F)) (r : gmap string (value F)) :
  (exec (Engine.current_data s) (tick (Engine.world s)).2).2 = Ok r →
  let w' := (exec (Engine.current_data s) (tick (Engine.world s)).2).1 in
  let dt := ((tick w').1 - (tick (Engine.world s)).1)%Z in
  Engine.run_step tick coe i (step n exec) s =
  ({| Engine.current_data := r ∪ Engine.current_data s;
      Engine.world := (tick w').2;
      Engine.l_fields :=
        <[i := {| Engine.execution_time := dt;
                  Engine.status := "completed";
                  Engine.error_message :=
                    Engine.error_message
                      (default Engine.pending
                         (Engine.set_running i (Engine.l_fields s) !! i)) |}]>
          (Engine.set_running i (Engine.l_fields s));
      Engine.l_step_results :=
        <[n := {| Engine.sr_result := Some r; Engine.sr_execution_time := dt;
                  Engine.sr_status := "success"; Engine.sr_error := None |}]>
          (Engine.l_step_results s);
      Engine.l_steps_executed := Engine.l_steps_executed s ++
        [{| Engine.ex_name := n; Engine.ex_index := i;
            Engine.ex_execution_time := dt; Engine.ex_status := "success" |}];
      Engine.l_errors := Engine.l_errors s;
      Engine.l_index := i |}, Ok tt).
Proof.
  intros Hr. cbn zeta.
  rewrite (run_step_success tick coe i (step n exec) s (Engine.current_data s)
             (exec (Engine.current_data s) (tick (Engine.world s)).2).1 r).
  - reflexivity.
  - by rewrite attempt_step, Hr.
Qed.

Lemma batch_step_failure coe i (n : string)
    (exec : gmap string (value F) → World F → World F * result (gmap string (value F)))
    (s : Engine.loop (value F) (World F)) (e : exn) :
  (exec (Engine.current_data s) (tick (Engine.world s)).2).2 = Raise e →
  let w' := (exec (Engine.current_data s) (tick (Engine.world s)).2).1 in
  let dt := ((tick w').1 - (tick (Engine.world s)).1)%Z in
  Engine.run_step tick coe i (step n exec) s =
  ({| Engine.current_data := Engine.current_data s;
      Engine.world := (tick w').2;
      Engine.l_fields :=
        <[i := {| Engine.execution_time := dt;
                  Engine.status := "failed";
                  Engine.error_message := Some (exn_msg e) |}]>
          (Engine.set_running i (Engine.l_fields s));
      Engine.l_step_results :=
        <[n := {| Engine.sr_result := None; Engine.sr_execution_time := dt;
                  Engine.sr_status := "failed";
                  Engine.sr_error := Some (exn_msg e) |}]>
          (Engine.l_step_results s);
      Engine.l_steps_executed := Engine.l_steps_executed s;
      Engine.l_errors := Engine.l_errors s ++
        [{| Engine.step_name := n; Engine.step_index := i;
            Engine.error := exn_msg e; Engine.error_type := exn_type e |}];
      Engine.l_index := i |},
   if coe then Ok tt else Raise e).
Proof.
  intros Hr. cbn zeta.
  rewrite (run_step_failure tick coe i (step n exec) s (Engine.current_data s)
             (exec (Engine.current_data s) (tick (Engine.world s)).2).1 e).
  - reflexivity.
  - by rewrite attempt_step, Hr.
Qed.

(** The work list and the log of the discovery step. *)
Lemma discovery_execute_ok (input : gmap string (value F)) (w : World F)
    (base : string) (entries : list dir_entry) :
  input !! "base_directory" = Some (VStr base) →
  iterdir base = Ok entries →
  (discovery_execute iterdir input w).2 =
    Ok (<["total_patients" := VNat (length (discover base entries).1)]>
          {["patients" := VPatients (discover base entries).1]}) ∧
  param_files (discovery_execute iterdir input w).1 = param_files w ∧
  report_files (discovery_execute iterdir input w).1 = report_files w.
Proof.
  intros Hb Hi. unfold discovery_execute. rewrite Hb, Hi.
  by destruct (discover base entries) as [ps l].
Qed.

(** The loop state after the discovery step returned. *)
Lemma reached_after_discovery (method : string) (parallel : bool)
    (input : gmap string (value F)) (w : World F)
    (base : string) (entries : list dir_entry) :
  input !! "base_directory" = Some (VStr base) →
  iterdir base = Ok entries →
  let s1 := reached tick 1 (pipeline method parallel) input false w in
  Engine.current_data s1 =
    <["total_patients" := VNat (length (discover base entries).1)]>
      {["patients" := VPatients (discover base entries).1]} ∪ input ∧
  param_files (Engine.world s1) = param_files w ∧
  report_files (Engine.world s1) = report_files w ∧
  Engine.l_errors s1 = [] ∧
  Engine.sr_status <$> (Engine.l_step_results s1 !! "PatientDiscoveryStep")
    = Some "success" ∧
  (∀ n, n ≠ "PatientDiscoveryStep" → Engine.l_step_results s1 !! n = None).
Proof.
  intros Hb Hi. cbn zeta. unfold reached, BatchPreprocessingPipeline.
  norm_batch. unfold PatientDiscoveryStep.
  destruct (discovery_execute_ok input (tick (tick w).2).2 base entries Hb Hi)
    as (Hr & Hp & Hf).
  match goal with |- context [Engine.run_step _ false 0 _ ?s] =>
    rewrite (batch_step_success false 0 _ _ s _ Hr) end.
  norm_batch.
  split; [done |].
  unfold Batch.time_time in Hp, Hf |- *.
  cbn [fst snd param_files report_files] in Hp, Hf |- *.
  split; [exact Hp |]. split; [exact Hf |].
  split; [done |]. split; [by rewrite lookup_insert_eq |].
  intros n Hn. by rewrite lookup_insert_ne.
Qed.

(** Training on no image: the standardization step raises the
    [TypeError] of [train] and writes no file. *)
Lemma standardization_no_images (d : gmap string (value F)) (w : World F)
    (patients : list patient) :
  d !! "patients" = Some (VPatients patients) →
  omap (read_ok ReadImage) (take 20 patients) = [] →
  (standardization_execute ReadImage "nyul" d w).2 =
    Raise (TypeError "'numpy.float64' object does not support item assignment") ∧
  param_files (standardization_execute ReadImage "nyul" d w).1 = param_files w ∧
  report_files (standardization_execute ReadImage "nyul" d w).1 = report_files w.
Proof.
  intros Hp Hnone. unfold standardization_execute. rewrite Hp.
  replace ("nyul" =? "nyul")%string with true by reflexivity.
  rewrite load_training_eq, Hnone. done.
Qed.

(** X13.  A batch run with the Nyul method in which no training image
    can be loaded (no patient was discovered, or the T2W image of none of
    the first 20 patients loads) fails as a whole: [execute] raises the
    [TypeError] of [NyulStandardizer.train] on an empty list, the
    discovery step is recorded as a success and the standardization step
    as failed, no patient is processed, and neither a parameter file nor
    a report is written. *)
Theorem nyul_batch_without_training_image_aborts (parallel : bool)
    (input : gmap string (value F)) (w : World F)
    (base : string) (entries : list dir_entry) :
  input !! "base_directory" = Some (VStr base) →
  iterdir base = Ok entries →
  omap (read_ok ReadImage) (take 20 (discover base entries).1) = [] →
  let out := run_batch clock iterdir ReadImage mkdir patient_run as_completed
               "nyul" parallel input w in
  out.2 =
    Raise (TypeError "'numpy.float64' object does not support item assignment") ∧
  Engine.pstatus out.1.1 = "failed" ∧
  param_files out.1.2 = param_files w ∧
  report_files out.1.2 = report_files w ∧
  ∃ res,
    Engine.presults out.1.1 = Some res ∧
    recorded_status res "PatientDiscoveryStep" = Some "success" ∧
    recorded_status res "BatchStandardizationStep" = Some "failed" ∧
    recorded_status res "BatchProcessingStep" = None ∧
    recorded_status res "BatchReportingStep" = None.
Proof.
  intros Hb Hi Hnone. cbn zeta.
  unfold run_batch, Engine.execute_pipeline, BatchPreprocessingPipeline.
  unfold Engine.start. norm_batch.
  unfold PatientDiscoveryStep, BatchStandardizationStep.
  assert (Hw0 : param_files (tick w).2 = param_files w ∧
                report_files (tick w).2 = report_files w) by done.
  destruct (tick w) as [t_start w0]. cbn [snd] in Hw0. destruct Hw0 as [Hp0 Hf0].
  destruct (discovery_execute_ok input (tick w0).2 base entries Hb Hi)
    as (Hr & Hp & Hf).
  match goal with |- context [Engine.run_step _ false 0 _ ?s] =>
    rewrite (batch_step_success false 0 _ _ s _ Hr) end.
  norm_batch.
  match goal with |- context [Engine.run_step _ false 1 _ ?s] =>
    destruct (standardization_no_images (Engine.current_data s)
                (tick (Engine.world s)).2 (discover base entries).1)
      as (Hr2 & Hp2 & Hf2);
    [ cbn [Engine.current_data];
      apply lookup_union_Some_l;
      by rewrite lookup_insert_ne, lookup_singleton_eq
    | exact Hnone
    | rewrite (batch_step_failure false 1 _ _ s _ Hr2) ]
  end.
  norm_batch. norm_batch in Hp2. norm_batch in Hf2.
  unfold Batch.time_time in Hp, Hf, Hp2, Hf2 |- *.
  cbn [fst snd param_files report_files] in Hp, Hf, Hp2, Hf2 |- *.
  split; [done |]. split; [done |].
  split; [by rewrite Hp2, Hp |]. split; [by rewrite Hf2, Hf |].
  eexists. split; [reflexivity |]. unfold recorded_status. cbn.
  split; [by rewrite lookup_insert_ne, lookup_insert_eq |].
  split; [by rewrite lookup_insert_eq |].
  split; by rewrite !lookup_insert_ne, lookup_empty.
Qed.

(** The standardization step when training returns (Nyul method), and
    for any other method. *)
Lemma standardization_execute_ok (method : string) (d : gmap string (value F))
    (w : World F) (patients : list patient) (output_dir : string) :
  d !! "patients" = Some (VPatients patients) →
  d !! "output_directory" = Some (VStr output_dir) →
  let sample := omap (read_ok ReadImage) (take 20 patients) in
  let trained := (Nyul.train Nyul.new sample).1 in
  ((method =? "nyul")%string = true → (Nyul.train Nyul.new sample).2 = Ok tt) →
  let step := standardization_execute ReadImage method d w in
  step.2 =
    Ok (if (method =? "nyul")%string
        then <["training_samples" := VNat (length sample)]>
               (<["standardization_trained" := VBool true]>
                  {["t2w_standardizer" := VStandardizer trained]})
        else {["standardization_trained" := VBool false]}) ∧
  param_files step.1 =
    (if (method =? "nyul")%string
     then Nyul.save_parameters trained (joinpath output_dir "nyul_parameters.json")
            (param_files w)
     else param_files w) ∧
  report_files step.1 = report_files w.
Proof.
  intros Hp Ho sample trained Hok. cbn zeta. unfold standardization_execute.
  rewrite Hp. destruct (method =? "nyul")%string; [| done].
  rewrite load_training_eq. fold sample. specialize (Hok eq_refl).
  unfold trained. destruct (Nyul.train Nyul.new sample) as [st r].
  cbn [fst snd] in Hok |- *. subst r. rewrite Ho. done.
Qed.

Lemma processing_execute_ok (parallel : bool) (d : gmap string (value F))
    (w : World F) (patients : list patient) (output_dir : string) :
  d !! "patients" = Some (VPatients patients) →
  d !! "output_directory" = Some (VStr output_dir) →
  processing_execute mkdir patient_run as_completed parallel d w =
  (w, Ok (results_dict
            (process_patients mkdir patient_run as_completed parallel output_dir
               match d !! "t2w_standardizer" with
               | Some (VStandardizer s) => Some s
               | _ => None
               end patients))).
Proof. intros Hp Ho. unfold processing_execute. by rewrite Hp, Ho. Qed.

(** The reporting step writes reports only. *)
Lemma reporting_keeps_param_files (d : gmap string (value F)) (w : World F) :
  param_files (reporting_execute clock mkdir d w).1 = param_files w.
Proof.
  unfold reporting_execute.
  destruct (d !! "output_directory") as [[] |]; try done.
  destruct (reported_results d) as [b |]; [| done].
  destruct (mkdir _) as [[] |]; [| done].
  unfold Batch.time_time. cbn.
  destruct (total_patients d) as [total |]; [| done].
  by destruct (failed b).
Qed.

(** X14.  The standardizer of a batch run.  With the Nyul method, when
    the training of the standardization step returns, the processing
    step hands every patient the standardizer that step trained (on the
    images that load among the first 20 discovered patients), and its
    parameters are in the file "nyul_parameters.json" of the output
    directory.  With any other method name (the name is not checked)
    nothing is trained, no parameter file is written, and the patients
    are processed without a shared standardizer.  In both cases the
    outcome of the processing step is recorded under its name, whether
    or not the reporting step after it fails. *)
Theorem batch_standardizer_reaches_patients (method : string) (parallel : bool)
    (input : gmap string (value F)) (w : World F)
    (base output_dir : string) (entries : list dir_entry) :
  input !! "base_directory" = Some (VStr base) →
  input !! "output_directory" = Some (VStr output_dir) →
  input !! "t2w_standardizer" = None →
  iterdir base = Ok entries →
  let patients := (discover base entries).1 in
  let sample := omap (read_ok ReadImage) (take 20 patients) in
  let trained := (Nyul.train Nyul.new sample).1 in
  ((method =? "nyul")%string = true → (Nyul.train Nyul.new sample).2 = Ok tt) →
  let out := run_batch clock iterdir ReadImage mkdir patient_run as_completed
               method parallel input w in
  let std := if (method =? "nyul")%string then Some trained else None in
  (∃ res r,
     Engine.presults out.1.1 = Some res ∧
     Engine.step_results res !! "BatchProcessingStep" = Some r ∧
     Engine.sr_result r =
       Some (results_dict
               (process_patients mkdir patient_run as_completed parallel
                  output_dir std patients))) ∧
  param_files out.1.2 =
    (if (method =? "nyul")%string
     then <[joinpath output_dir "nyul_parameters.json" := Nyul.parameters trained]>
            (param_files w)
     else param_files w).
Proof.
  intros Hb Ho Hstd Hi patients sample trained Hok. cbn zeta.
  unfold run_batch, Engine.execute_pipeline, BatchPreprocessingPipeline.
  unfold Engine.start. norm_batch.
  unfold PatientDiscoveryStep, BatchStandardizationStep, BatchProcessingStep,
    BatchReportingStep.
  assert (Hw0 : param_files (tick w).2 = param_files w) by done.
  destruct (tick w) as [t_start w0]. cbn [snd] in Hw0.
  (* discovery *)
  destruct (discovery_execute_ok input (tick w0).2 base entries Hb Hi)
    as (Hr & Hp & _).
  match goal with |- context [Engine.run_step _ false 0 _ ?s] =>
    rewrite (batch_step_success false 0 _ _ s _ Hr) end.
  norm_batch. fold patients.
  set (d1 := <["total_patients" := VNat (length patients)]>
               {["patients" := VPatients patients]} ∪ input).
  assert (Hd1p : d1 !! "patients" = Some (VPatients patients)).
  { apply lookup_union_Some_l. by rewrite lookup_insert_ne, lookup_singleton_eq. }
  assert (Hd1o : d1 !! "output_directory" = Some (VStr output_dir)).
  { unfold d1. rewrite lookup_union_r; [done |].
    by rewrite lookup_insert_ne, lookup_singleton_ne. }
  assert (Hd1s : d1 !! "t2w_standardizer" = None).
  { unfold d1. rewrite lookup_union_r; [done |].
    by rewrite lookup_insert_ne, lookup_singleton_ne. }
  (* standardization *)
  match goal with |- context [Engine.run_step _ false 1 _ ?s] =>
    destruct (standardization_execute_ok method (Engine.current_data s)
                (tick (Engine.world s)).2 patients output_dir Hd1p Hd1o Hok)
      as (Hr2 & Hp2 & _);
    rewrite (batch_step_success false 1 _ _ s _ Hr2)
  end.
  norm_batch. norm_batch in Hp2. fold sample in Hp2 |- *. fold trained in Hp2 |- *.
  set (r2 := if (method =? "nyul")%string
             then <["training_samples" := VNat (length sample)]>
                    (<["standardization_trained" := VBool true]>
                       {["t2w_standardizer" := VStandardizer trained]})
             else {["standardization_trained" := VBool false]}) in *.
  assert (Hd2p : (r2 ∪ d1) !! "patients" = Some (VPatients patients)).
  { rewrite lookup_union_r; [done |]. unfold r2.
    destruct (method =? "nyul")%string;
      by rewrite ?lookup_insert_ne, lookup_singleton_ne. }
  assert (Hd2o : (r2 ∪ d1) !! "output_directory" = Some (VStr output_dir)).
  { rewrite lookup_union_r; [done |]. unfold r2.
    destruct (method =? "nyul")%string;
      by rewrite ?lookup_insert_ne, lookup_singleton_ne. }
  assert (Hd2s : match (r2 ∪ d1) !! "t2w_standardizer" with
                 | Some (VStandardizer s) => Some s
                 | _ => None
                 end = if (method =? "nyul")%string then Some trained else None).
  { unfold r2. destruct (method =? "nyul")%string.
    - rewrite (lookup_union_Some_l _ _ _ (VStandardizer trained)); [done |].
      by rewrite !lookup_insert_ne, lookup_singleton_eq.
    - rewrite lookup_union_r, Hd1s; [done |]. by rewrite lookup_singleton_ne. }
  (* processing *)
  match goal with |- context [Engine.run_step _ false 2 _ ?s] =>
    pose proof (processing_execute_ok parallel (Engine.current_data s)
                  (tick (Engine.world s)).2 patients output_dir Hd2p Hd2o) as Hr3;
    cbn [Engine.current_data] in Hr3; rewrite Hd2s in Hr3;
    rewrite (batch_step_success false 2 _ _ s _ (f_equal snd Hr3))
  end.
  norm_batch. norm_batch in Hr3. rewrite Hr3. norm_batch.
  (* reporting *)
  match goal with |- context [Engine.run_step _ false 3 _ ?s] =>
    pose proof (reporting_keeps_param_files (Engine.current_data s)
                  (tick (Engine.world s)).2) as Hp4;
    destruct (reporting_execute clock mkdir (Engine.current_data s)
                (tick (Engine.world s)).2) as [w4 [r4 | e4]] eqn:Hr4;
    [ rewrite (batch_step_success false 3 _ _ s r4 (f_equal snd Hr4))
    | rewrite (batch_step_failure false 3 _ _ s e4 (f_equal snd Hr4)) ]
  end.
  all: norm_batch; norm_batch in Hr4; rewrite Hr4; norm_batch; norm_batch in Hp4;
    unfold Batch.time_time in Hp, Hp2, Hp4 |- *;
    cbn [fst snd param_files] in Hp, Hp2, Hp4 |- *;
    (split;
     [ eexists _, _; split; [reflexivity |]; cbn;
       split; [by rewrite lookup_insert_ne, lookup_insert_eq | reflexivity]
     | rewrite Hp4, Hp2; unfold Nyul.save_parameters, json_dump;
       by rewrite Hp, Hw0 ]).
Qed.

End BatchRuns.

Lemma nyul_batch_without_training_image_aborts_witness :
  let out := Batch.run_batch BatchSamples.clock BatchSamples.iterdir
               BatchSamples2.unreadable BatchSamples.mkdir BatchSamples.patient_run
               BatchSamples.as_completed "nyul" true BatchSamples.input
               BatchSamples.world in
  out.2 =
    Raise (TypeError "'numpy.float64' object does not support item assignment") ∧
  Engine.pstatus out.1.1 = "failed" ∧
  Batch.param_files out.1.2 = Batch.param_files BatchSamples.world ∧
  Batch.report_files out.1.2 = Batch.report_files BatchSamples.world ∧
  ∃ res,
    Engine.presults out.1.1 = Some res ∧
    recorded_status res "PatientDiscoveryStep" = Some "success" ∧
    recorded_status res "BatchStandardizationStep" = Some "failed" ∧
    recorded_status res "BatchProcessingStep" = None ∧
    recorded_status res "BatchReportingStep" = None.
Proof.
  apply (nyul_batch_without_training_image_aborts (F := Q) BatchSamples.clock
           BatchSamples.iterdir BatchSamples2.unreadable BatchSamples.mkdir
           BatchSamples.patient_run BatchSamples.as_completed true
           BatchSamples.input BatchSamples.world "in" DiscoverySpec.sample_listing).
  - vm_compute. reflexivity.
  - reflexivity.
  - vm_compute. reflexivity.
Defined.

Lemma batch_standardizer_reaches_patients_witness :
  let patients := (Batch.discover "in" DiscoverySpec.sample_listing).1 in
  let sample := omap (BatchSpec.read_ok BatchSamples.ReadImage) (take 20 patients) in
  let trained := (Nyul.train Nyul.new sample).1 in
  let out := Batch.run_batch BatchSamples.clock BatchSamples.iterdir
               BatchSamples.ReadImage BatchSamples.mkdir BatchSamples.patient_run
               BatchSamples.as_completed "nyul" true BatchSamples.input
               BatchSamples.world in
  let std := if ("nyul" =? "nyul")%string then Some trained else None in
  (∃ res r,
     Engine.presults out.1.1 = Some res ∧
     Engine.step_results res !! "BatchProcessingStep" = Some r ∧
     Engine.sr_result r =
       Some (Batch.results_dict
               (Batch.process_patients BatchSamples.mkdir BatchSamples.patient_run
                  BatchSamples.as_completed true "out" std patients))) ∧
  Batch.param_files out.1.2 =
    (if ("nyul" =? "nyul")%string
     then <[Batch.joinpath "out" "nyul_parameters.json" := Nyul.parameters trained]>
            (Batch.param_files BatchSamples.world)
     else Batch.param_files BatchSamples.world).
Proof.
  apply (batch_standardizer_reaches_patients (F := Q) BatchSamples.clock
           BatchSamples.iterdir BatchSamples.ReadImage BatchSamples.mkdir
           BatchSamples.patient_run BatchSamples.as_completed "nyul" true
           BatchSamples.input BatchSamples.world "in" "out"
           DiscoverySpec.sample_listing).
  - vm_compute. reflexivity.
  - vm_compute. reflexivity.
  - vm_compute. reflexivity.
  - reflexivity.
  - intros _. vm_compute. reflexivity.
Defined.
